(** * Nictiz-R4-QA: the QA entry point ([entrypoint.py])

    A shallow embedding of the three classes of the QA tooling entry point
    and the properties of its specification:

    - [Printer]: routes output to the terminal and, when a web socket is set
      and open, to the socket with ANSI colour codes rewritten to HTML;
    - [FileCollection]: resolves the named glob patterns of the
      configuration to lists of files, either the changed files only or all;
    - [StepExecutor]: runs the requested steps on the resolved files and
      reports the outcome.

    Part I holds the embedding, Part II the lemmas and theorems.

    Modelling conventions.
    - A Python [str] is the Rocq [string] of its UTF-8 encoding: a
      character is one byte below 128 or a lead byte with its continuation
      bytes ([utf8_head]); the characters the code names are all of one
      byte.
    - A Python [dict] whose iteration order matters (the configuration
      mappings) is an association list in insertion order; the file
      collection itself, which is only ever indexed by key, is a [gmap].
    - Exceptions are values of [exn]; a computation that can raise returns
      [result]; the state reached when the exception is raised is kept.
    - The collaborators (the file system seen through [glob], git, the
      subprocesses, [mkstemp]) are parameters: functions of the current
      set of files. *)

From Stdlib Require Import Ascii String NArith ZArith Bool.
From stdpp Require Import base option list gmap strings fin_maps.

Open Scope string_scope.
Open Scope list_scope.
Open Scope Z_scope.

(** String concatenation unfolds on a known first character. *)
#[local] Arguments String.append !s1 s2 : simpl nomatch.

(* ===================================================================== *)
(** * Part I: the embedding                                               *)
(* ===================================================================== *)

(** ** Python preliminaries *)

(** The escape character, [\x1b] (written [\033] in some literals). *)
Definition ESC : ascii := "027"%char.

(** The newline character, [\n]. *)
Definition NL : ascii := "010"%char.

(** Whether a byte continues a character, [10xxxxxx]. *)
Definition is_continuation (c : ascii) : bool :=
  ((128 <=? N_of_ascii c) && (N_of_ascii c <? 192))%N.

(** The number of bytes of the character a byte starts, [0] for a byte
    that starts none. *)
Definition utf8_length (c : ascii) : nat :=
  let n := N_of_ascii c in
  if (n <? 128)%N then 1%nat
  else if (n <? 192)%N then 0%nat
  else if (n <? 224)%N then 2%nat
  else if (n <? 240)%N then 3%nat
  else if (n <? 248)%N then 4%nat
  else 0%nat.

(** The [n] continuation bytes a string starts with, and the text after
    them. *)
Fixpoint continuation (n : nat) (s : string) : option (string * string) :=
  match n with
  | O => Some ("", s)
  | S k =>
      match s with
      | String c s' =>
          if is_continuation c then
            match continuation k s' with
            | Some (cs, rest) => Some (String c cs, rest)
            | None => None
            end
          else None
      | EmptyString => None
      end
  end.

(** The character a string starts with, and the text after it. *)
Definition utf8_head (s : string) : option (string * string) :=
  match s with
  | String c s' =>
      match utf8_length c with
      | S k =>
          match continuation k s' with
          | Some (cs, rest) => Some (String c cs, rest)
          | None => None
          end
      | O => None
      end
  | EmptyString => None
  end.

(** The exceptions the code can raise. *)
Inductive exn : Type :=
| KeyError (key : string)
| TypeError (msg : string)
| UnboundLocalError (name : string)
| FileNotFoundError (path : string).

(** Outcome of a computation that may raise. *)
Inductive result (A : Type) : Type :=
| Ok (a : A)
| Raise (e : exn).
Arguments Ok {A} a.
Arguments Raise {A} e.

(** The values [execute] hands to its callers: a function that falls off
    its end returns [None]. *)
Inductive py_value : Type :=
| PyNone
| PyBool (b : bool).

(** Truth value of a returned value, as [if result] and [if not result]
    take it. *)
Definition truthy (v : py_value) : bool :=
  match v with
  | PyNone => false
  | PyBool b => b
  end.

(** Truth value of an integer, as [if returncode] takes it. *)
Definition truthy_int (n : Z) : bool := negb (n =? 0).

(** A mapping in insertion order. *)
Definition dict (V : Type) : Type := list (string * V).

(** [d[k]], [None] standing for the [KeyError]. *)
Fixpoint dict_get {V : Type} (d : dict V) (k : string) : option V :=
  match d with
  | [] => None
  | (k', v) :: d' => if String.eqb k' k then Some v else dict_get d' k
  end.

(** [list(d.keys())]. *)
Definition dict_keys {V : Type} (d : dict V) : list string := map fst d.

(** A YAML value that is either one string or a list of strings. *)
Inductive str_or_list : Type :=
| Str (s : string)
| StrList (l : list string).

(** [if type(patterns) == str: patterns = [patterns]]. *)
Definition as_list (v : str_or_list) : list string :=
  match v with
  | Str s => [s]
  | StrList l => l
  end.

(** [s[i]] for a string [s] of one-byte characters and
    [0 <= i < len(s)]: the one-character string at index [i]. *)
Definition str_getitem (s : string) (i : nat) : string := substring i 1 s.

(** [sep.join(l)]. *)
Definition join (sep : string) (l : list string) : string := String.concat sep l.

(** [s.split("\n")], from the left: the empty string gives [[""]], a
    trailing newline a trailing empty string. *)
Fixpoint split_lines_from (cur : string) (s : string) : list string :=
  match s with
  | EmptyString => [cur]
  | String c s' =>
      if Ascii.eqb c NL then cur :: split_lines_from "" s'
      else split_lines_from (cur +:+ String c "") s'
  end.

Definition split_lines (s : string) : list string := split_lines_from "" s.

(** [x in l] on a list of strings. *)
Fixpoint str_in (x : string) (l : list string) : bool :=
  match l with
  | [] => false
  | y :: l' => String.eqb y x || str_in x l'
  end.

(** [l.remove(x)]: drops the first occurrence ([x] is known to occur where
    the code calls it). *)
Fixpoint list_remove (x : string) (l : list string) : list string :=
  match l with
  | [] => []
  | y :: l' => if String.eqb y x then l' else y :: list_remove x l'
  end.

(** ** Printer *)

Module Printer.

(** A message sent over the web socket with [send_json]. *)
Inductive ws_message : Type :=
| OutputMsg (html : string)
| ResultMsg (status : string).

(** The web socket: whether it is closed, and what was sent over it. *)
Record Socket : Type := mkSocket {
  closed : bool;
  sent : list ws_message
}.

(** The printer together with the terminal it prints to. *)
Record t : Type := mk {
  stdout : list string;
  socket : option Socket
}.

Definition ANSI_TO_HTML : dict (dict string) :=
  [ ("0", [ ("0", "black"); ("1", "darkred"); ("2", "green"); ("3", "orange");
            ("4", "darkblue"); ("5", "purple"); ("6", "lightblue");
            ("7", "lightgrey") ]);
    ("1", [ ("0", "black"); ("1", "red"); ("2", "lightgreen"); ("3", "yellow");
            ("4", "blue"); ("5", "magenta"); ("6", "cyan"); ("7", "white") ]) ].

Definition __init__ : t := {| stdout := []; socket := None |}.

Definition setSocket (s : Socket) (self : t) : t :=
  {| stdout := stdout self; socket := Some s |}.

(** [_ansiToHTML], on the two groups of the match. *)
Definition _ansiToHTML (group1 group2 : string) : string :=
  match dict_get ANSI_TO_HTML group1 with
  | Some row =>
      match dict_get row group2 with
      | Some color => "</span><span style='color: " +:+ color +:+ "'>"
      | None => ""
      end
  | None => ""
  end.

(** Whether five bytes match [\x1b\[(0|1);3]. *)
Definition is_color_prefix (c0 c1 c2 c3 c4 : ascii) : bool :=
  Ascii.eqb c0 ESC && Ascii.eqb c1 "[" &&
  (Ascii.eqb c2 "0" || Ascii.eqb c2 "1") &&
  Ascii.eqb c3 ";" && Ascii.eqb c4 "3".

(** A match of [\x1b\[(0|1);3(.)m] at the start of a string: the two
    groups and the text after the match. The dot matches one character,
    whatever the number of its bytes, but not a newline. *)
Definition color_match (s : string) : option (string * string * string) :=
  match s with
  | String c0 (String c1 (String c2 (String c3 (String c4 s5)))) =>
      if is_color_prefix c0 c1 c2 c3 c4 then
        match utf8_head s5 with
        | Some (group2, String c6 rest) =>
            if negb (String.eqb group2 (String NL "")) && Ascii.eqb c6 "m"
            then Some (String c2 "", group2, rest)
            else None
        | _ => None
        end
      else None
  | _ => None
  end.

(** [re.sub('\x1b\[(0|1);3(.)m', self._ansiToHTML, message)]: the
    matches are taken from the left and do not overlap; [skip] is the
    number of bytes of the last match still to pass over. *)
Fixpoint sub_color_from (skip : nat) (s : string) : string :=
  match s with
  | String c s' =>
      match skip with
      | S k => sub_color_from k s'
      | O =>
          match color_match s with
          | Some (group1, group2, _) =>
              _ansiToHTML group1 group2
              +:+ sub_color_from (5 + String.length group2) s'
          | None => String c (sub_color_from 0 s')
          end
      end
  | EmptyString => EmptyString
  end.

Definition sub_color (s : string) : string := sub_color_from 0 s.

Definition RESET_TAG : string := "</span><span style='color: lightgrey'>".

(** Whether four characters match [\x1b\[0m]. *)
Definition is_reset_code (c0 c1 c2 c3 : ascii) : bool :=
  Ascii.eqb c0 ESC && Ascii.eqb c1 "[" && Ascii.eqb c2 "0" && Ascii.eqb c3 "m".

(** [re.sub('\x1b\[0m', "</span><span style='color: lightgrey'>", html_msg)]. *)
Fixpoint sub_reset (s : string) : string :=
  match s with
  | String c0 (String c1 (String c2 (String c3 rest)) as s') =>
      if is_reset_code c0 c1 c2 c3
      then RESET_TAG +:+ sub_reset rest
      else String c0 (sub_reset s')
  | String c0 s' => String c0 (sub_reset s')
  | EmptyString => EmptyString
  end.

(** The two substitutions, one after the other. *)
Definition translate (message : string) : string :=
  sub_reset (sub_color message).

(** The [html_msg] that [write] sends for [message]. *)
Definition html_msg (message : string) : string :=
  "<span style='color: lightgrey;'>" +:+ translate message +:+ "</span>".

Definition send_json (m : ws_message) (s : Socket) : Socket :=
  {| closed := closed s; sent := sent s ++ [m] |}.

Definition write (message : string) (self : t) : t :=
  let out := stdout self ++ [message] in
  match socket self with
  | Some s =>
      if negb (closed s)
      then {| stdout := out; socket := Some (send_json (OutputMsg (html_msg message)) s) |}
      else {| stdout := out; socket := socket self |}
  | None => {| stdout := out; socket := None |}
  end.

End Printer.

(** ** State and exceptions *)

(** A computation on a state [S] that returns an [A] or raises; the state
    reached is returned in both cases. *)
Definition M (S A : Type) : Type := S -> S * result A.

Definition ret {S A : Type} (a : A) : M S A := fun s => (s, Ok a).

Definition raise {S A : Type} (e : exn) : M S A := fun s => (s, Raise e).

Definition bind {S A B : Type} (c : M S A) (k : A -> M S B) : M S B :=
  fun s =>
    match c s with
    | (s', Ok a) => k a s'
    | (s', Raise e) => (s', Raise e)
    end.

Definition gets {S A : Type} (f : S -> A) : M S A := fun s => (s, Ok (f s)).

Definition modify {S : Type} (f : S -> S) : M S unit := fun s => (f s, Ok tt).

Declare Scope prog_scope.
Delimit Scope prog_scope with prog.
Notation "'let*' x ':=' c 'in' k" := (bind c (fun x => k))
  (at level 10, x name, c at level 100, k at level 200) : prog_scope.
Notation "c >> k" := (bind c (fun _ => k))
  (at level 80, right associativity) : prog_scope.
Open Scope prog_scope.

(** [for x in l: body(x)]; an exception leaves the loop. *)
Fixpoint for_each {S A : Type} (l : list A) (body : A -> M S unit) : M S unit :=
  match l with
  | [] => ret tt
  | x :: l' => body x >> for_each l' body
  end.

(** ** The configuration *)

(** One step of the configuration: a mapping with the optional keys
    [patterns], [profile] and [script]. *)
Record Step : Type := mkStep {
  step_patterns : option str_or_list;
  step_profile : option string;
  step_script : option string
}.

(** The loaded YAML file: a mapping with the optional keys [patterns] and
    [steps]. *)
Record Config : Type := mkConfig {
  cfg_patterns : option (dict str_or_list);
  cfg_steps : option (dict Step)
}.

(** What [subprocess.run(..., capture_output = True)] returns: the exit
    status and the decoded standard output. *)
Record CompletedProcess : Type := mkCompleted {
  returncode : Z;
  stdout : string
}.

(** A [CompletedProcess] defines neither [__bool__] nor [__len__]: it is
    true whatever the exit status. *)
Definition truthy_completed (p : CompletedProcess) : bool := true.

(** ** FileCollection *)

Module FileCollection.

(** The collection is the [dict] from pattern name to file list, with the
    attributes [patterns] and [changed_only]. *)
Record t : Type := mk {
  items : gmap string (list string);
  patterns : dict str_or_list;
  changed_only : bool
}.

Definition set_items (f : gmap string (list string) -> gmap string (list string))
    (self : t) : t :=
  {| items := f (items self);
     patterns := patterns self;
     changed_only := changed_only self |}.

Definition __init__ (config : Config) (changed_only : bool) : t :=
  let patterns :=
    match cfg_patterns config with
    | Some p => p
    | None => []
    end in
  {| items := foldl (fun m pattern_name => <[pattern_name := []]> m) ∅ (dict_keys patterns);
     patterns := patterns;
     changed_only := changed_only |}.

Definition setChangedOnly (changed_only : bool) (self : t) : t :=
  {| items := items self; patterns := patterns self; changed_only := changed_only |}.

(** [for pattern_name in self.keys(): self[pattern_name] = []]. *)
Definition reset (self : t) : t := set_items (fmap (fun _ => [])) self.

(** The collection and the local variables of [resolve]; a local that has
    not been assigned is [None]. *)
Record frame : Type := mkFrame {
  self : t;
  changed_files : option (list string);
  combined : option (list string)
}.

Definition set_self (f : t -> t) (fr : frame) : frame :=
  {| self := f (self fr); changed_files := changed_files fr; combined := combined fr |}.

Definition set_changed_files (l : list string) (fr : frame) : frame :=
  {| self := self fr; changed_files := Some l; combined := combined fr |}.

Definition set_combined (l : list string) (fr : frame) : frame :=
  {| self := self fr; changed_files := changed_files fr; combined := Some l |}.

(** Reading a local variable. *)
Definition local (name : string) (v : frame -> option (list string)) : M frame (list string) :=
  fun fr =>
    match v fr with
    | Some l => (fr, Ok l)
    | None => (fr, Raise (UnboundLocalError name))
    end.

(** [self[pattern_name].append(file_name)]. *)
Definition append (pattern_name file_name : string) : M frame unit :=
  fun fr =>
    match items (self fr) !! pattern_name with
    | Some l => (set_self (set_items <[pattern_name := l ++ [file_name]]>) fr, Ok tt)
    | None => (fr, Raise (KeyError pattern_name))
    end.

(** The body of the innermost loop of [resolve]. *)
Definition visit (pattern_name file_name : string) : M frame unit :=
  let* changed_only := gets (fun fr => changed_only (self fr)) in
  if (changed_only : bool) then
    let* changed := local "changed_files" changed_files in
    if str_in file_name changed then
      append pattern_name file_name >>
      modify (set_changed_files (list_remove file_name changed))
    else ret tt
  else
    let* seen := local "combined" combined in
    if negb (str_in file_name seen) then
      append pattern_name file_name >>
      modify (set_combined (seen ++ [file_name]))
    else ret tt.

Definition GIT_DIFF : list string :=
  ["git"; "diff"; "--name-only"; "--diff-filter=ACM"; "origin/main"].

Definition GIT_LS_FILES : list string := ["git"; "ls-files"; "--others"].

Section Resolve.

(** The file system, as [glob.glob(pattern, recursive = True)] lists it. *)
Variable glob : string -> list string.

(** Git, as [subprocess.run] reaches it: [None] when the program cannot
    be started. *)
Variable git : list string -> option CompletedProcess.

Definition subprocess_run (args : list string) : M frame CompletedProcess :=
  match git args with
  | Some p => ret p
  | None => raise (FileNotFoundError "git")
  end.

(** [self.patterns[pattern_name]]. *)
Definition patterns_getitem (pattern_name : string) : M frame str_or_list :=
  fun fr =>
    match dict_get (patterns (self fr)) pattern_name with
    | Some v => (fr, Ok v)
    | None => (fr, Raise (KeyError pattern_name))
    end.

(** The first half of [resolve]: the reset and the list of changed files
    or the empty list of files seen. *)
Definition resolve_init : M frame unit :=
  modify (set_self reset) >>
  let* changed_only := gets (fun fr => changed_only (self fr)) in
  if (changed_only : bool) then
    let* committed := subprocess_run GIT_DIFF in
    let* uncommitted := subprocess_run GIT_LS_FILES in
    if truthy_completed committed && truthy_completed uncommitted then
      modify (set_changed_files
                (split_lines (stdout committed) ++ split_lines (stdout uncommitted)))
    else ret tt
  else
    modify (set_combined []).

(** The loops of [resolve]. *)
Definition resolve_loop : M frame unit :=
  let* names := gets (fun fr => dict_keys (patterns (self fr))) in
  for_each names (fun pattern_name =>
    let* patterns := patterns_getitem pattern_name in
    for_each (as_list patterns) (fun pattern =>
      for_each (glob pattern) (fun file_name =>
        visit pattern_name file_name))).

Definition resolve_frame : M frame unit := resolve_init >> resolve_loop.

(** [resolve]: runs in a fresh frame and keeps the collection. *)
Definition resolve : M t unit :=
  fun s =>
    let (fr, r) := resolve_frame {| self := s; changed_files := None; combined := None |} in
    (self fr, r).

End Resolve.

End FileCollection.

(** ** StepExecutor *)

Module StepExecutor.

(** What [subprocess.Popen] is given: an argument vector, or one line for
    the shell ([shell = True]). *)
Inductive command : Type :=
| Argv (args : list string)
| Shell (line : string).

(** What a started process does: the lines it writes (standard output and
    standard error together), its exit status and the files it leaves. *)
Record ProcessRun : Type := mkRun {
  output : list string;
  exit_status : Z;
  files_after : gset string
}.

(** [self.steps]: [config["steps"]], or the list [[]] when the
    configuration has no steps. *)
Inductive steps_value : Type :=
| StepsDict (d : dict Step)
| StepsEmptyList.

(** The executor's own attributes. *)
Record t : Type := mk {
  steps : steps_value;
  debug : bool
}.

(** Everything a run can change: the printer and the file collection the
    executor refers to, the process environment, the files on disk and
    the commands given to [subprocess.Popen] so far. *)
Record World : Type := mkWorld {
  printer : Printer.t;
  file_collection : FileCollection.t;
  environ : gmap string string;
  files : gset string;
  popen_log : list command
}.

Definition set_printer (f : Printer.t -> Printer.t) (w : World) : World :=
  {| printer := f (printer w); file_collection := file_collection w;
     environ := environ w; files := files w; popen_log := popen_log w |}.

Definition set_file_collection (fc : FileCollection.t) (w : World) : World :=
  {| printer := printer w; file_collection := fc;
     environ := environ w; files := files w; popen_log := popen_log w |}.

Definition set_environ (f : gmap string string -> gmap string string) (w : World) : World :=
  {| printer := printer w; file_collection := file_collection w;
     environ := f (environ w); files := files w; popen_log := popen_log w |}.

Definition set_files (f : gset string -> gset string) (w : World) : World :=
  {| printer := printer w; file_collection := file_collection w;
     environ := environ w; files := f (files w); popen_log := popen_log w |}.

Definition log_popen (c : command) (w : World) : World :=
  {| printer := printer w; file_collection := file_collection w;
     environ := environ w; files := files w; popen_log := popen_log w ++ [c] |}.

Definition __init__ (config : Config) : t :=
  {| steps := match cfg_steps config with
              | Some d => StepsDict d
              | None => StepsEmptyList
              end;
     debug := false |}.

Definition setDebugging (debug : bool) (self : t) : t :=
  {| steps := steps self; debug := debug |}.

(** [await self.printer.write(message)]. *)
Definition printer_write (message : string) : M World unit :=
  modify (set_printer (Printer.write message)).

(** [os.environ[name] = value]. *)
Definition setenv (name value : string) : M World unit :=
  modify (set_environ <[name := value]>).

(** [os.unlink(path)]. *)
Definition os_unlink (path : string) : M World unit :=
  fun w =>
    if bool_decide (path ∈ files w)
    then (set_files (fun fs => fs ∖ {[path]}) w, Ok tt)
    else (w, Raise (FileNotFoundError path)).

(** [self.steps[step_name]]. *)
Definition steps_getitem (self : t) (step_name : string) : M World Step :=
  match steps self with
  | StepsDict d =>
      match dict_get d step_name with
      | Some step => ret step
      | None => raise (KeyError step_name)
      end
  | StepsEmptyList => raise (TypeError "list indices must be integers or slices, not str")
  end.

(** [self.file_collection[pattern]]. *)
Definition file_collection_getitem (pattern : string) : M World (list string) :=
  fun w =>
    match FileCollection.items (file_collection w) !! pattern with
    | Some l => (w, Ok l)
    | None => (w, Raise (KeyError pattern))
    end.

(** [for pattern in patterns: files += self.file_collection[pattern]]. *)
Fixpoint gather (patterns : list string) (files : list string) : M World (list string) :=
  match patterns with
  | [] => ret files
  | pattern :: rest =>
      let* l := file_collection_getitem pattern in
      gather rest (files ++ l)
  end.

(** The files of a step: lines 153 to 159 of [execute]. *)
Definition step_files (step : Step) : M World (list string) :=
  match step_patterns step with
  | Some patterns => gather (as_list patterns) []
  | None => ret []
  end.

(** What one turn of the loop of [execute] leads to: the next turn, with
    the new [overall_success], or a [return]. *)
Inductive flow : Type :=
| Next (overall_success : bool)
| Return (v : py_value).

Definition OUT_FILE : string := "output.xml".

Definition VALIDATOR_WARNING : string :=
  String ESC "[0;33mThere was an error running the validator. Re-run with the --debug option to see the output."
  +:+ String ESC "[0m".

Definition validator_command (profile : string) (files : list string) : list string :=
  ["java"; "-jar"; "validator_cli.jar";
   "-ig"; "qa"; "-ig"; "resources"; "-recurse";
   "-profile"; profile;
   "-output"; str_getitem OUT_FILE 1] ++ files.

Definition analysis_command : list string :=
  ["python3"; "../hl7-validator-action/analyze_results.py"; "--colorize";
   "--fail-at"; "error"; "--ignored-issues"; "known-issues.yml";
   str_getitem OUT_FILE 1].

Section Run.

(** The file system as [glob.glob] lists it, given the files on disk. *)
Variable glob : gset string -> string -> list string.

(** Git, given the files on disk. *)
Variable git : gset string -> list string -> option CompletedProcess.

(** The programs [subprocess.Popen] starts, given the files on disk;
    [None] when the program cannot be started. *)
Variable process : command -> gset string -> option ProcessRun.

(** The path [tempfile.mkstemp(suffix)] picks, given the files on disk. *)
Variable mkstemp_path : gset string -> string -> string.

(** [tempfile.mkstemp(suffix)]: creates the file and returns its path. *)
Definition mkstemp (suffix : string) : M World string :=
  fun w =>
    let path := mkstemp_path (files w) suffix in
    (set_files (fun fs => {[path]} ∪ fs) w, Ok path).

(** [self.file_collection.resolve()]. *)
Definition resolve : M World unit :=
  fun w =>
    let (fc, r) := FileCollection.resolve (glob (files w)) (git (files w)) (file_collection w) in
    (set_file_collection fc w, r).

(** The name of the program a command starts. *)
Definition program (c : command) : string :=
  match c with
  | Argv (p :: _) => p
  | Argv [] => ""
  | Shell _ => "/bin/sh"
  end.

Definition _popen (c : command) : M World Z :=
  modify (log_popen c) >>
  let* fs := gets files in
  match process c fs with
  | None => raise (FileNotFoundError (program c))
  | Some run =>
      for_each (output run) printer_write >>
      modify (set_files (fun _ => files_after run)) >>
      ret (exit_status run)
  end.

Definition _runValidator (self : t) (profile : string) (files : list string) : M World bool :=
  let* out_file := mkstemp ".xml" in
  let out_file := OUT_FILE in
  let command := validator_command profile files in
  let* result_validator := _popen (Argv command) in
  let* success :=
    (if truthy_int result_validator then
       let* result := _popen (Argv analysis_command) in
       ret (truthy_int result)
     else if negb (debug self) then
       printer_write VALIDATOR_WARNING >> ret false
     else ret false) in
  os_unlink (str_getitem out_file 1) >>
  ret success.

Definition _runExternalCommand (self : t) (command : string) (files : list string) : M World bool :=
  let* result := _popen (Shell (command +:+ " " +:+ join " " files)) in
  ret (result =? 0).

(** One turn of the loop of [execute]. *)
Definition execute_step (self : t) (step_name : string) (overall_success : bool) : M World flow :=
  let* step := steps_getitem self step_name in
  printer_write (String ESC "[1;37m+++ " +:+ step_name +:+ String ESC "[0m") >>
  let* files := step_files step in
  if (length files =? 0)%nat then
    printer_write "Nothing to check, skipping" >>
    ret (Return (PyBool true))
  else
    match step_profile step, step_script step with
    | Some profile, _ =>
        let* r := _runValidator self profile files in
        ret (Next (overall_success && r))
    | None, Some script =>
        let* r := _runExternalCommand self script files in
        ret (Next (overall_success && r))
    | None, None => ret (Next overall_success)
    end.

(** [for step_name in step_names: ...]. *)
Fixpoint execute_steps (self : t) (step_names : list string) (overall_success : bool) : M World flow :=
  match step_names with
  | [] => ret (Next overall_success)
  | step_name :: rest =>
      let* f := execute_step self step_name overall_success in
      match f with
      | Next overall_success' => execute_steps self rest overall_success'
      | Return v => ret (Return v)
      end
  end.

(** [execute] up to the end of its loop: the environment, the resolution
    and the steps. *)
Definition execute_loop (self : t) (step_names : list string) : M World flow :=
  setenv "debug" (if debug self then "1" else "0") >>
  let* changed_only := gets (fun w => FileCollection.changed_only (file_collection w)) in
  setenv "changed_only" (if (changed_only : bool) then "1" else "0") >>
  resolve >>
  execute_steps self step_names true.

Definition SUMMARY (overall_success : bool) : string :=
  if overall_success then "All checks finished succesfully"
  else "Not all checks finished successfully".

(** [execute]: after the loop the summary is written and the function
    ends without a [return]. *)
Definition execute (self : t) (step_names : list string) : M World py_value :=
  let* f := execute_loop self step_names in
  match f with
  | Return v => ret v
  | Next overall_success =>
      printer_write (SUMMARY overall_success) >>
      ret PyNone
  end.

(** The batch mode of the script: [if not result: sys.exit(1)]. *)
Definition exit_code (r : py_value) : Z := if negb (truthy r) then 1 else 0.

(** [_executeAndReport] of the menu: the status sent over the socket. *)
Definition report_status (r : py_value) : string :=
  if truthy r then "success" else "failure".

End Run.

End StepExecutor.

(** ** QAServer *)

Module QAServer.

(** The name of the checkbox that [_handleGet] writes for a step,
    [f"step_{step}"]. *)
Definition checkbox_name (step : string) : string := "step_" +:+ step.

(** The HTML that [_handleGet] builds for the steps: a checkbox and a
    label for each. *)
Fixpoint task_html (steps : list string) : string :=
  match steps with
  | [] => ""
  | step :: rest =>
      ("<input type='checkbox' name='" +:+ checkbox_name step +:+ "'/>") +:+
      ("<label for='" +:+ checkbox_name step +:+ "'>" +:+ step +:+ "</label><br />") +:+
      task_html rest
  end.

(** [key.startswith("step_")]. *)
Definition startswith_step (key : string) : bool := String.prefix "step_" key.

(** Whether five characters are [step_]. *)
Definition is_step_ (c0 c1 c2 c3 c4 : ascii) : bool :=
  Ascii.eqb c0 "s" && Ascii.eqb c1 "t" && Ascii.eqb c2 "e" &&
  Ascii.eqb c3 "p" && Ascii.eqb c4 "_".

(** [key.replace("step_", "")]: every occurrence is removed, from the
    left, without overlap. *)
Fixpoint remove_step_ (s : string) : string :=
  match s with
  | String c0 (String c1 (String c2 (String c3 (String c4 rest))) as s') =>
      if is_step_ c0 c1 c2 c3 c4
      then remove_step_ rest
      else String c0 (remove_step_ s')
  | String c0 s' => String c0 (remove_step_ s')
  | EmptyString => EmptyString
  end.

(** The steps that [_handlePost] reads from the fields of the form, a
    mapping from field name to value in the order of the form:
    [for key in content: if key.startswith("step_"): steps.append(...)]. *)
Fixpoint posted_steps (content : dict string) : list string :=
  match content with
  | [] => []
  | (key, _) :: rest =>
      if startswith_step key
      then remove_step_ key :: posted_steps rest
      else posted_steps rest
  end.

(** [key in content]. *)
Definition has_field (content : dict string) (key : string) : bool :=
  match dict_get content key with
  | Some _ => true
  | None => false
  end.

(** [_handlePost] up to the start of the run: the policy, the debugging
    flag and the socket are set; the result is the list of steps that the
    run is started with. *)
Definition _handlePost (content : dict string) (ws : Printer.Socket)
    (st : StepExecutor.t * StepExecutor.World)
    : (StepExecutor.t * StepExecutor.World) * list string :=
  let (executor, w) := st in
  let w1 :=
    match dict_get content "check_what" with
    | Some v =>
        StepExecutor.set_file_collection
          (FileCollection.setChangedOnly (String.eqb v "changed")
             (StepExecutor.file_collection w)) w
    | None => w
    end in
  let steps := posted_steps content in
  let executor' := StepExecutor.setDebugging (has_field content "debug") executor in
  let w2 := StepExecutor.set_printer (Printer.setSocket ws) w1 in
  ((executor', w2), steps).

End QAServer.

(** ** Vocabulary of the properties *)

Module Spec.

(** The text after the reset code a string starts with, if any. *)
Definition reset_head (s : string) : option string :=
  match s with
  | String c0 (String c1 (String c2 (String c3 rest))) =>
      if Printer.is_reset_code c0 c1 c2 c3 then Some rest else None
  | _ => None
  end.

(** A string without escape character. *)
Fixpoint plain (s : string) : bool :=
  match s with
  | EmptyString => true
  | String c s' => negb (Ascii.eqb c ESC) && plain s'
  end.



(** A string that is one character. *)
Definition is_char (ch : string) : Prop := utf8_head ch = Some (ch, "").

(** The newline, as a string. *)
Definition NEWLINE : string := String NL "".

(** The escape sequence [ESC[b;3cm] for a character [ch] of any number of
    bytes. *)
Definition color_code_of (b : ascii) (ch : string) : string :=
  String ESC (String "[" (String b (String ";" (String "3" (ch +:+ "m"))))).

(** The hue digits of the palette, as strings. *)
Definition hue_digits : list string := ["0"; "1"; "2"; "3"; "4"; "5"; "6"; "7"].

(** Whether a byte can end a control sequence: the bytes from [@] to [~],
    among them the letters. *)
Definition is_final (c : ascii) : bool :=
  ((64 <=? N_of_ascii c) && (N_of_ascii c <=? 126))%N.

(** The control sequence [ESC[...x] with the parameters [params] and the
    final byte [final]; [ESC[...m] sets colours and styles. *)
Definition csi (params : string) (final : ascii) : string :=
  String ESC (String "[" (params +:+ String final "")).

(** A text that starts with a code [ESC[b;3cm], [b] being 0 or 1 and [c]
    a character other than a newline: what the first pattern describes. *)
Definition color_form (s : string) : Prop :=
  exists (b : ascii) (ch rest : string),
    (b = "0"%char \/ b = "1"%char) /\ is_char ch /\ ch <> NEWLINE /\
    s = color_code_of b ch +:+ rest.

Definition RED_CODE : string := String ESC "[1;31m".
Definition RESET_CODE : string := String ESC "[0m".
Definition CODE_1_99 : string := String ESC "[1;99m".

(** The euro sign, U+20AC: a character of three bytes. *)
Definition EURO : string :=
  String "226"%char (String "130"%char (String "172"%char "")).
Definition RED_TAG : string := "</span><span style='color: red'>".
Definition SPAN_OPEN : string := "<span style='color: lightgrey;'>".
Definition SPAN_CLOSE : string := "</span>".

(** A text that starts with the reset code [ESC[0m]: what the second
    pattern describes. *)
Definition reset_form (s : string) : Prop :=
  exists rest : string, s = RESET_CODE +:+ rest.


(** Total correctness: from a state in [P] the computation returns, with
    a value and a state in [Q]. *)
Definition hoare {S A : Type} (P : S -> Prop) (c : M S A) (Q : A -> S -> Prop) : Prop :=
  forall s, P s -> exists s' a, c s = (s', Ok a) /\ Q a s'.

(** [I] holds of the state a computation reaches, whether it returns or
    raises. *)
Definition preserves {S A : Type} (I : S -> Prop) (c : M S A) : Prop :=
  forall s, I s -> I (fst (c s)).

(** Every declared pattern name is a key of the collection, as
    [__init__] leaves it. *)
Definition keyed (s : FileCollection.t) : Prop :=
  forall name, name ∈ dict_keys (FileCollection.patterns s) ->
    is_Some (FileCollection.items s !! name).

(** [file_name] is among the files one of the patterns of the group
    [pattern_name] expands to. *)
Definition matched (glob : string -> list string) (patterns : dict str_or_list)
    (pattern_name file_name : string) : Prop :=
  exists v pattern,
    dict_get patterns pattern_name = Some v /\
    pattern ∈ as_list v /\
    file_name ∈ glob pattern.

(** The pairs of pattern name and file that the loops of [resolve] go
    through for one group, in order. *)
Definition group_visits (glob : string -> list string) (patterns : dict str_or_list)
    (pattern_name : string) : list (string * string) :=
  match dict_get patterns pattern_name with
  | Some v => flat_map (fun pattern => map (pair pattern_name) (glob pattern)) (as_list v)
  | None => []
  end.

(** The same for all groups. *)
Definition visits (glob : string -> list string) (patterns : dict str_or_list)
    : list (string * string) :=
  flat_map (group_visits glob patterns) (dict_keys patterns).

(** One visit of the full scan, on the file lists and the files seen. *)
Definition claim (st : gmap string (list string) * list string) (v : string * string)
    : gmap string (list string) * list string :=
  let '(m, seen) := st in
  let '(pattern_name, file_name) := v in
  if str_in file_name seen then (m, seen)
  else (<[pattern_name := default [] (m !! pattern_name) ++ [file_name]]> m,
        seen ++ [file_name]).

(** The full scan as a fold over the visits. *)
Definition full_scan (m0 : gmap string (list string)) (vs : list (string * string))
    : gmap string (list string) * list string :=
  fold_left claim vs (m0, []).

(** What the full scan maintains: every list is free of duplicates and
    within the files seen, and no file is in the lists of two names. *)
Definition separated (st : gmap string (list string) * list string) : Prop :=
  (forall k l, st.1 !! k = Some l -> NoDup l /\ forall f, f ∈ l -> f ∈ st.2) /\
  (forall k1 k2 l1 l2 f, k1 <> k2 -> st.1 !! k1 = Some l1 -> st.1 !! k2 = Some l2 ->
     f ∈ l1 -> f ∉ l2).


(** The frames of a full scan that has gone through the visits [vs],
    starting from the lists [m0]. *)
Definition scanning (pats : dict str_or_list) (m0 : gmap string (list string))
    (vs : list (string * string)) (fr : FileCollection.frame) : Prop :=
  FileCollection.changed_only (FileCollection.self fr) = false /\
  FileCollection.patterns (FileCollection.self fr) = pats /\
  keyed (FileCollection.self fr) /\
  exists seen,
    FileCollection.combined fr = Some seen /\
    (FileCollection.items (FileCollection.self fr), seen) = full_scan m0 vs.

(** The frames of a resolution of the changed files in which the list of
    changed files has been assigned. *)
Definition listing (pats : dict str_or_list) (fr : FileCollection.frame) : Prop :=
  FileCollection.changed_only (FileCollection.self fr) = true /\
  FileCollection.patterns (FileCollection.self fr) = pats /\
  keyed (FileCollection.self fr) /\
  is_Some (FileCollection.changed_files fr).


(** The printer after the lines of a process have been written. *)
Definition write_lines (lines : list string) (p : Printer.t) : Printer.t :=
  fold_left (fun p line => Printer.write line p) lines p.

(** The file at [path] exists. *)
Definition keeps (path : string) (w : StepExecutor.World) : Prop :=
  path ∈ StepExecutor.files w.

(** The frames whose collection is [r] once its lists are emptied. *)
Definition resets_to (r : FileCollection.t) (fr : FileCollection.frame) : Prop :=
  FileCollection.reset (FileCollection.self fr) = r.


(** Whether a reset code [ESC[0m] occurs in a string. *)
Fixpoint has_reset (s : string) : bool :=
  match s with
  | EmptyString => false
  | String c s' =>
      match reset_head s with
      | Some _ => true
      | None => has_reset s'
      end
  end.

(** One visit of the resolution of the changed files, on the file lists
    and the changed files left. *)
Definition take (st : gmap string (list string) * list string) (v : string * string)
    : gmap string (list string) * list string :=
  let '(m, changed) := st in
  let '(pattern_name, file_name) := v in
  if str_in file_name changed
  then (<[pattern_name := default [] (m !! pattern_name) ++ [file_name]]> m,
        list_remove file_name changed)
  else (m, changed).

(** The resolution of the changed files as a fold over the visits. *)
Definition changed_scan (m0 : gmap string (list string)) (changed : list string)
    (vs : list (string * string)) : gmap string (list string) * list string :=
  fold_left take vs (m0, changed).

(** The frames of a resolution of the changed files that has gone through
    the visits [vs], starting from the lists [m0] and the changed files
    [changed0]. *)
Definition taking (pats : dict str_or_list) (m0 : gmap string (list string))
    (changed0 : list string) (vs : list (string * string))
    (fr : FileCollection.frame) : Prop :=
  FileCollection.changed_only (FileCollection.self fr) = true /\
  FileCollection.patterns (FileCollection.self fr) = pats /\
  keyed (FileCollection.self fr) /\
  exists changed,
    FileCollection.changed_files fr = Some changed /\
    (FileCollection.items (FileCollection.self fr), changed) = changed_scan m0 changed0 vs.

(** The lines of the output of the two git commands, as [resolve] puts
    them together. *)
Definition git_lines (committed uncommitted : CompletedProcess) : list string :=
  split_lines (stdout committed) ++ split_lines (stdout uncommitted).

(** How many times a string occurs in a list. *)
Fixpoint occurrences (x : string) (l : list string) : nat :=
  match l with
  | [] => 0%nat
  | y :: l' => ((if String.eqb y x then 1 else 0) + occurrences x l')%nat
  end.

(** What the resolution of the changed files maintains for a file that
    git names at most once: it is left among the changed files at most
    once, and then in no list; it is in at most one list, at most once. *)
Definition once (f : string) (st : gmap string (list string) * list string) : Prop :=
  (occurrences f st.2 <= 1)%nat /\
  (f ∈ st.2 -> forall k l, st.1 !! k = Some l -> f ∉ l) /\
  (forall k l, st.1 !! k = Some l -> (occurrences f l <= 1)%nat) /\
  (forall k1 k2 l1 l2, k1 <> k2 -> st.1 !! k1 = Some l1 -> st.1 !! k2 = Some l2 ->
     f ∈ l1 -> f ∉ l2).

(** The text after the [step_] a string starts with, if any. *)
Definition step_head (s : string) : option string :=
  match s with
  | String c0 (String c1 (String c2 (String c3 (String c4 rest)))) =>
      if QAServer.is_step_ c0 c1 c2 c3 c4 then Some rest else None
  | _ => None
  end.

(** Whether [step_] occurs in a string. *)
Fixpoint has_step_ (s : string) : bool :=
  match s with
  | EmptyString => false
  | String c s' =>
      match step_head s with
      | Some _ => true
      | None => has_step_ s'
      end
  end.

(** A field of the posted form: the checkbox of a step, checked and sent
    with a value, or a field of another kind. *)
Inductive field : Type :=
| Checked (step value : string)
| Other (key value : string).

(** The fields as the request carries them, in the order of the form:
    the checkbox of a step under the name [_handleGet] gave it. *)
Definition posted (form : list field) : dict string :=
  map (fun f =>
         match f with
         | Checked step value => (QAServer.checkbox_name step, value)
         | Other key value => (key, value)
         end) form.

(** The steps checked in a form, in the order of the form. *)
Fixpoint checked (form : list field) : list string :=
  match form with
  | [] => []
  | Checked step _ :: rest => step :: checked rest
  | Other _ _ :: rest => checked rest
  end.

(** The commands of a list are all argument vectors, none a shell line. *)
Definition all_argv (cs : list StepExecutor.command) : Prop :=
  forall c, c ∈ cs -> exists args, c = StepExecutor.Argv args.

End Spec.

(** ** Concrete inputs *)

Module Scenario.

(** A printer whose web socket is open and has sent nothing yet. *)
Definition live_printer : Printer.t :=
  {| Printer.stdout := []; Printer.socket := Some {| Printer.closed := false; Printer.sent := [] |} |}.


(** Two groups with overlapping patterns. *)
Definition config : Config :=
  {| cfg_patterns := Some [ ("python", StrList ["src/*.py"; "**/*.py"]);
                            ("all", Str "**/*");
                            ("xml", Str "**/*.xml") ];
     cfg_steps := Some [ ("lint", {| step_patterns := Some (StrList ["python"]);
                                     step_profile := None;
                                     step_script := Some "pylint" |});
                         ("docs", {| step_patterns := Some (Str "all");
                                     step_profile := None;
                                     step_script := Some "check-docs" |});
                         ("validate", {| step_patterns := Some (Str "python");
                                         step_profile := Some "qa-profile";
                                         step_script := None |});
                         ("conformance", {| step_patterns := Some (Str "xml");
                                            step_profile := Some "qa-profile";
                                            step_script := None |}) ] |}.

(** What [glob.glob] gives, with [recursive = True], in a directory that
    holds the files [README] and [b.py] and the directory [src] with the
    file [a.py], and no XML file: the entries of the directory itself come
    before those of [src], and [**/*] lists [src] too. *)
Definition glob (pattern : string) : list string :=
  if String.eqb pattern "src/*.py" then ["src/a.py"]
  else if String.eqb pattern "**/*.py" then ["b.py"; "src/a.py"]
  else if String.eqb pattern "**/*" then ["README"; "b.py"; "src"; "src/a.py"]
  else [].

(** Git run in a subdirectory of the working tree: the diff names the
    changed file [src/a.py] from the top of the tree, the listing of
    untracked files names another [src/a.py] from the subdirectory. *)
Definition git_twice (args : list string) : option CompletedProcess :=
  Some {| returncode := 0; stdout := "src/a.py" +:+ String NL "" |}.

(** Git run outside a working tree: both commands exit with status 128
    and print nothing on standard output. *)
Definition git_failing (args : list string) : option CompletedProcess :=
  Some {| returncode := 128; stdout := "" |}.

(** Git reporting no change. *)
Definition git_clean (args : list string) : option CompletedProcess :=
  Some {| returncode := 0; stdout := "" |}.

(** Git with one changed file, [src/a.py], and one untracked file,
    [b.py]. *)
Definition git_changed (args : list string) : option CompletedProcess :=
  match args with
  | _ :: command :: _ =>
      if String.eqb command "diff"
      then Some {| returncode := 0; stdout := "src/a.py" +:+ String NL "" |}
      else Some {| returncode := 0; stdout := "b.py" +:+ String NL "" |}
  | _ => None
  end.

Definition collection (changed_only : bool) : FileCollection.t :=
  FileCollection.__init__ config changed_only.


(** The same collaborators for the executor, whatever the files on disk. *)
Definition glob_at (fs : gset string) : string -> list string := glob.

Definition git_at (fs : gset string) : list string -> option CompletedProcess := git_clean.

Definition is_validator (c : StepExecutor.command) : bool :=
  match c with
  | StepExecutor.Argv (p :: _) => String.eqb p "java"
  | _ => false
  end.

(** Programs that all print one line and exit with status [n]; the
    validator writes the file it is given as output (the file [u]). *)
Definition process_exit (n : Z) (c : StepExecutor.command) (fs : gset string)
    : option StepExecutor.ProcessRun :=
  Some {| StepExecutor.output := ["checking" +:+ String NL ""];
          StepExecutor.exit_status := n;
          StepExecutor.files_after := if is_validator c then {["u"]} ∪ fs else fs |}.

Definition mkstemp_path (fs : gset string) (suffix : string) : string :=
  "/tmp/tmpk3x9w2ab" +:+ suffix.

Definition executor : StepExecutor.t := StepExecutor.__init__ config.

(** The world before a full-scan run in batch mode. *)
Definition world : StepExecutor.World :=
  {| StepExecutor.printer := Printer.__init__;
     StepExecutor.file_collection := collection false;
     StepExecutor.environ := ∅;
     StepExecutor.files := {[ "src/a.py"; "b.py"; "README" ]};
     StepExecutor.popen_log := [] |}.

(** A run of the scenario in which every program exits with status [n]. *)
Definition run (n : Z) (step_names : list string)
    : StepExecutor.World * result py_value :=
  StepExecutor.execute glob_at git_at (process_exit n) mkstemp_path executor step_names world.

(** No program can be started. *)
Definition process_missing (c : StepExecutor.command) (fs : gset string)
    : option StepExecutor.ProcessRun := None.

(** Programs that print one line, exit with status [n] and write no
    file. *)
Definition process_silent (n : Z) (c : StepExecutor.command) (fs : gset string)
    : option StepExecutor.ProcessRun :=
  Some {| StepExecutor.output := ["checking" +:+ String NL ""];
          StepExecutor.exit_status := n;
          StepExecutor.files_after := fs |}.

(** An executor with three more steps: one that names a pattern that is
    not declared, one without action, and one with both a profile and a
    script. *)
Definition executor2 : StepExecutor.t :=
  {| StepExecutor.steps :=
       StepExecutor.StepsDict
         [ ("lint", {| step_patterns := Some (StrList ["python"]);
                       step_profile := None;
                       step_script := Some "pylint" |});
           ("broken", {| step_patterns := Some (StrList ["python"; "missing"]);
                         step_profile := None;
                         step_script := Some "pylint" |});
           ("idle", {| step_patterns := Some (Str "python");
                       step_profile := None;
                       step_script := None |});
           ("both", {| step_patterns := Some (Str "python");
                       step_profile := Some "qa-profile";
                       step_script := Some "pylint" |}) ];
     StepExecutor.debug := false |}.

(** The world once the files are resolved. *)
Definition resolved_world : StepExecutor.World :=
  (StepExecutor.resolve glob_at git_at world).1.

(** The world with a web socket set and open. *)
Definition live_world : StepExecutor.World :=
  StepExecutor.set_printer (fun _ => live_printer) world.

(** The executor of the configuration without its [steps] section. *)
Definition executor_without_steps : StepExecutor.t :=
  StepExecutor.__init__ {| cfg_patterns := cfg_patterns config; cfg_steps := None |}.

End Scenario.

(* ===================================================================== *)
(** * Part II: lemmas and theorems                                        *)
(* ===================================================================== *)

(** ** The rules of the two judgements *)

Module ProgFacts.
Import Spec.

Section Rules.
Context {S : Type}.

Lemma bind_unfold {A B : Type} (c : M S A) (k : A -> M S B) (s : S) :
  bind c k s =
  match c s with
  | (s', Ok a) => k a s'
  | (s', Raise e) => (s', Raise e)
  end.
Proof. reflexivity. Qed.

Lemma hoare_ret {A : Type} (P : S -> Prop) (a : A) (Q : A -> S -> Prop) :
  (forall s, P s -> Q a s) -> hoare P (ret a) Q.
Proof. intros H s Hs. exists s, a. split; [reflexivity | by apply H]. Qed.

Lemma hoare_gets {A : Type} (P : S -> Prop) (f : S -> A) (Q : A -> S -> Prop) :
  (forall s, P s -> Q (f s) s) -> hoare P (gets f) Q.
Proof. intros H s Hs. exists s, (f s). split; [reflexivity | by apply H]. Qed.

Lemma hoare_modify (P : S -> Prop) (f : S -> S) (Q : unit -> S -> Prop) :
  (forall s, P s -> Q tt (f s)) -> hoare P (modify f) Q.
Proof. intros H s Hs. exists (f s), tt. split; [reflexivity | by apply H]. Qed.

Lemma hoare_bind {A B : Type} (P : S -> Prop) (R : A -> S -> Prop)
    (Q : B -> S -> Prop) (c : M S A) (k : A -> M S B) :
  hoare P c R -> (forall a, hoare (R a) (k a) Q) -> hoare P (bind c k) Q.
Proof.
  intros Hc Hk s Hs. destruct (Hc s Hs) as (s1 & a & Hrun & Ha).
  destruct (Hk a s1 Ha) as (s2 & b & Hrun2 & Hb).
  exists s2, b. split; [|done]. unfold bind. by rewrite Hrun.
Qed.

Lemma hoare_conseq {A : Type} (P P' : S -> Prop) (Q Q' : A -> S -> Prop) (c : M S A) :
  hoare P' c Q' -> (forall s, P s -> P' s) -> (forall a s, Q' a s -> Q a s) ->
  hoare P c Q.
Proof.
  intros Hc HP HQ s Hs. destruct (Hc s (HP s Hs)) as (s' & a & Hrun & Ha).
  exists s', a. split; [done | by apply HQ].
Qed.

(** The loop rule: the invariant is indexed by the elements gone
    through. *)
Lemma hoare_for_each {A : Type} (I : list A -> S -> Prop) (l : list A)
    (body : A -> M S unit) :
  (forall done x rest, l = done ++ x :: rest ->
     hoare (I done) (body x) (fun _ => I (done ++ [x]))) ->
  hoare (I []) (for_each l body) (fun _ => I l).
Proof.
  intros Hbody.
  assert (forall todo done, l = done ++ todo ->
            hoare (I done) (for_each todo body) (fun _ => I l)) as Hgen.
  { induction todo as [|x todo IH]; intros done Hl.
    - rewrite app_nil_r in Hl. rewrite Hl. by apply hoare_ret.
    - simpl. eapply hoare_bind; [by eapply Hbody|].
      intros ?. apply IH. by rewrite <- app_assoc. }
  by apply (Hgen l []).
Qed.

Lemma preserves_ret {A : Type} (I : S -> Prop) (a : A) : preserves I (ret a).
Proof. by intros s Hs. Qed.

Lemma preserves_raise {A : Type} (I : S -> Prop) (e : exn) : preserves I (@raise S A e).
Proof. by intros s Hs. Qed.

Lemma preserves_gets {A : Type} (I : S -> Prop) (f : S -> A) : preserves I (gets f).
Proof. by intros s Hs. Qed.

Lemma preserves_modify (I : S -> Prop) (f : S -> S) :
  (forall s, I s -> I (f s)) -> preserves I (modify f).
Proof. intros H s Hs. by apply H. Qed.

Lemma preserves_bind {A B : Type} (I : S -> Prop) (c : M S A) (k : A -> M S B) :
  preserves I c -> (forall a, preserves I (k a)) -> preserves I (bind c k).
Proof.
  intros Hc Hk s Hs. unfold bind. specialize (Hc s Hs).
  destruct (c s) as [s1 [a|e]]; simpl in *; [by apply Hk | done].
Qed.

Lemma preserves_for_each {A : Type} (I : S -> Prop) (l : list A) (body : A -> M S unit) :
  (forall x, preserves I (body x)) -> preserves I (for_each l body).
Proof.
  intros Hbody. induction l as [|x l IH]; simpl.
  - apply preserves_ret.
  - apply preserves_bind; [apply Hbody | intros _; apply IH].
Qed.

End Rules.

End ProgFacts.

(** ** Printer: the translation of escape codes *)

Module PrinterFacts.
Import Spec.

Lemma plain_app (a b : string) :
  plain a = true -> plain b = true -> plain (a +:+ b) = true.
Proof.
  induction a as [|c a IH]; simpl; [done|].
  intros [Hc Ha]%andb_prop Hb. by rewrite Hc, IH.
Qed.

Lemma append_assoc (a b c : string) : (a +:+ b) +:+ c = a +:+ (b +:+ c).
Proof. induction a as [|x a IH]; simpl; [reflexivity | by rewrite IH]. Qed.

Lemma append_nil_r (a : string) : a +:+ "" = a.
Proof. induction a as [|x a IH]; simpl; [reflexivity | by rewrite IH]. Qed.

Lemma length_append (a b : string) :
  String.length (a +:+ b) = (String.length a + String.length b)%nat.
Proof. induction a as [|x a IH]; simpl; [reflexivity | by rewrite IH]. Qed.

(** *** Characters *)

Lemma continuation_split (n : nat) (s cs r : string) :
  continuation n s = Some (cs, r) ->
  s = cs +:+ r /\ continuation n cs = Some (cs, "").
Proof.
  revert s cs r. induction n as [|n IH]; intros s cs r; simpl.
  - by intros [= <- <-].
  - destruct s as [|c s']; [discriminate|].
    destruct (is_continuation c) eqn:Hc; [|discriminate].
    destruct (continuation n s') as [[cs' r']|] eqn:Hn; [|discriminate].
    intros [= <- <-]. destruct (IH _ _ _ Hn) as [-> Hcs].
    split; [reflexivity|]. simpl. by rewrite Hc, Hcs.
Qed.

Lemma continuation_app (n : nat) (s cs r x : string) :
  continuation n s = Some (cs, r) ->
  continuation n (s +:+ x) = Some (cs, r +:+ x).
Proof.
  revert s cs r. induction n as [|n IH]; intros s cs r; simpl.
  - by intros [= <- <-].
  - destruct s as [|c s']; [discriminate|]. simpl.
    destruct (is_continuation c); [|discriminate].
    destruct (continuation n s') as [[cs' r']|] eqn:Hn; [|discriminate].
    intros [= <- <-]. by rewrite (IH _ _ _ Hn).
Qed.

(** A character does not reach into a text that starts with a byte that
    continues none. *)
Lemma continuation_stops (n : nat) (s : string) (c : ascii) (z : string) :
  is_continuation c = false ->
  continuation n (s +:+ String c z) =
  match continuation n s with
  | Some (cs, r) => Some (cs, r +:+ String c z)
  | None => None
  end.
Proof.
  intros Hc. revert s. induction n as [|n IH]; intros s; [reflexivity|].
  destruct s as [|a s']; simpl.
  - by rewrite Hc.
  - destruct (is_continuation a); [|reflexivity].
    rewrite IH. by destruct (continuation n s') as [[cs r]|].
Qed.

Lemma utf8_head_stops (c0 : ascii) (q : string) (c : ascii) (z : string) :
  is_continuation c = false ->
  utf8_head (String c0 q +:+ String c z) =
  match utf8_head (String c0 q) with
  | Some (ch, r) => Some (ch, r +:+ String c z)
  | None => None
  end.
Proof.
  intros Hc. simpl. destruct (utf8_length c0) as [|k]; [reflexivity|].
  rewrite continuation_stops by done.
  by destruct (continuation k q) as [[cs r]|].
Qed.

Lemma utf8_head_split (s ch r : string) :
  utf8_head s = Some (ch, r) -> s = ch +:+ r /\ is_char ch.
Proof.
  destruct s as [|c s']; [discriminate|]. unfold is_char. simpl.
  destruct (utf8_length c) as [|k] eqn:Hk; [discriminate|].
  destruct (continuation k s') as [[cs r']|] eqn:Hn; [|discriminate].
  intros [= <- <-]. destruct (continuation_split _ _ _ _ Hn) as [-> Hcs].
  split; [reflexivity|]. simpl. by rewrite Hk, Hcs.
Qed.

Lemma utf8_head_app (ch x : string) :
  is_char ch -> utf8_head (ch +:+ x) = Some (ch, x).
Proof.
  unfold is_char. destruct ch as [|c q]; [discriminate|]. simpl.
  destruct (utf8_length c) as [|k]; [discriminate|].
  destruct (continuation k q) as [[cs r]|] eqn:Hn; [|discriminate].
  intros [= -> ->]. by rewrite (continuation_app _ _ _ _ x Hn).
Qed.

(** *** The first substitution *)

Lemma is_color_prefix_true (c0 c1 c2 c3 c4 : ascii) :
  Printer.is_color_prefix c0 c1 c2 c3 c4 = true ->
  c0 = ESC /\ c1 = "["%char /\ (c2 = "0"%char \/ c2 = "1"%char) /\
  c3 = ";"%char /\ c4 = "3"%char.
Proof.
  unfold Printer.is_color_prefix.
  intros [[[[H0 H1]%andb_prop H2]%andb_prop H3]%andb_prop H4]%andb_prop.
  apply Ascii.eqb_eq in H0, H1, H3, H4.
  apply orb_prop in H2 as [H2|H2]; apply Ascii.eqb_eq in H2; auto.
Qed.

(** What the code matches is a colour code, as the pattern describes it. *)
Lemma color_match_sound (s group1 group2 rest : string) :
  Printer.color_match s = Some (group1, group2, rest) ->
  exists b : ascii,
    (b = "0"%char \/ b = "1"%char) /\ group1 = String b "" /\
    is_char group2 /\ group2 <> NEWLINE /\
    s = color_code_of b group2 +:+ rest.
Proof.
  destruct s as [|c0 [|c1 [|c2 [|c3 [|c4 s5]]]]]; try discriminate.
  unfold Printer.color_match.
  destruct (Printer.is_color_prefix c0 c1 c2 c3 c4) eqn:Hp; [|discriminate].
  apply is_color_prefix_true in Hp as (-> & -> & Hb & -> & ->).
  destruct (utf8_head s5) as [[ch [|c6 r]]|] eqn:Hh; try discriminate.
  destruct (negb (String.eqb ch (String NL "")) && Ascii.eqb c6 "m") eqn:Ht;
    [|discriminate].
  apply andb_prop in Ht as [Hnl Hm].
  apply negb_true_iff, String.eqb_neq in Hnl. apply Ascii.eqb_eq in Hm as ->.
  intros [= <- <- <-]. apply utf8_head_split in Hh as [-> Hch].
  exists c2. split; [done|]. split; [done|]. split; [done|]. split; [done|].
  unfold color_code_of. simpl. by rewrite append_assoc.
Qed.

(** Every colour code the pattern describes is matched. *)
Lemma color_match_complete (b : ascii) (ch rest : string) :
  b = "0"%char \/ b = "1"%char -> is_char ch -> ch <> NEWLINE ->
  Printer.color_match (color_code_of b ch +:+ rest) = Some (String b "", ch, rest).
Proof.
  intros Hb Hch Hnl. unfold color_code_of. simpl. rewrite append_assoc.
  assert (Printer.is_color_prefix ESC "[" b ";" "3" = true) as ->
    by by destruct Hb as [-> | ->].
  rewrite utf8_head_app by done. simpl.
  apply String.eqb_neq in Hnl. unfold NEWLINE in Hnl. by rewrite Hnl.
Qed.

Lemma color_match_length (s group1 group2 rest : string) :
  Printer.color_match s = Some (group1, group2, rest) ->
  String.length s = (6 + String.length group2 + String.length rest)%nat.
Proof.
  intros (b & _ & _ & _ & _ & ->)%color_match_sound.
  unfold color_code_of. simpl. rewrite !length_append. simpl. lia.
Qed.

Lemma sub_color_from_skip (m rest : string) :
  Printer.sub_color_from (String.length m) (m +:+ rest) = Printer.sub_color rest.
Proof.
  induction m as [|c m IH]; [reflexivity|]. simpl. apply IH.
Qed.

Lemma sub_color_unfold (s : string) :
  Printer.sub_color s =
  match Printer.color_match s with
  | Some (group1, group2, rest) =>
      Printer._ansiToHTML group1 group2 +:+ Printer.sub_color rest
  | None =>
      match s with
      | String c s' => String c (Printer.sub_color s')
      | EmptyString => EmptyString
      end
  end.
Proof.
  destruct s as [|c s']; [reflexivity|].
  unfold Printer.sub_color at 1. cbn [Printer.sub_color_from].
  destruct (Printer.color_match (String c s')) as [[[group1 group2] rest]|] eqn:Hm;
    [|reflexivity].
  f_equal. apply color_match_sound in Hm as (b & _ & _ & _ & _ & Hs).
  unfold color_code_of in Hs. simpl in Hs. injection Hs as -> ->.
  rewrite append_assoc.
  change (String "[" (String b (String ";" (String "3" (group2 +:+ "m" +:+ rest)))))
    with (String "[" (String b (String ";" "3")) +:+ (group2 +:+ "m" +:+ rest)).
  rewrite <- !append_assoc.
  replace (5 + String.length group2)%nat
    with (String.length ((String "[" (String b (String ";" "3")) +:+ group2) +:+ "m")).
  - apply sub_color_from_skip.
  - rewrite !length_append. simpl. lia.
Qed.

Lemma sub_reset_unfold (s : string) :
  Printer.sub_reset s =
  match reset_head s with
  | Some rest => Printer.RESET_TAG +:+ Printer.sub_reset rest
  | None =>
      match s with
      | String c s' => String c (Printer.sub_reset s')
      | EmptyString => EmptyString
      end
  end.
Proof.
  destruct s as [|c0 [|c1 [|c2 [|c3 rest]]]]; try reflexivity.
  simpl. destruct (Printer.is_reset_code c0 c1 c2 c3); reflexivity.
Qed.

#[local] Arguments Printer.sub_color : simpl never.
#[local] Arguments Printer.sub_reset : simpl never.
#[local] Arguments Printer.color_match : simpl never.
#[local] Arguments utf8_head : simpl never.

(** Splits on every comparison of a character variable with a constant. *)
Ltac split_tests :=
  repeat match goal with
  | |- context [Ascii.eqb ?c ?k] => is_var c; destruct (Ascii.eqb c k)
  end.

(** A colour code that starts in a text does not reach into an escape
    sequence [ESC[...] that follows the text. *)
Lemma color_match_app (c : ascii) (p y : string) :
  Printer.color_match (String c p +:+ String ESC (String "[" y)) =
  match Printer.color_match (String c p) with
  | Some (group1, group2, rest) =>
      Some (group1, group2, rest +:+ String ESC (String "[" y))
  | None => None
  end.
Proof.
  destruct p as [|c1 [|c2 [|c3 [|c4 q]]]].
  - destruct y as [|y0 [|y1 y]]; try reflexivity.
    unfold Printer.color_match, Printer.is_color_prefix. simpl.
    split_tests; reflexivity.
  - destruct y as [|y0 y]; try reflexivity.
    unfold Printer.color_match, Printer.is_color_prefix. simpl.
    split_tests; reflexivity.
  - unfold Printer.color_match, Printer.is_color_prefix. simpl.
    split_tests; reflexivity.
  - unfold Printer.color_match, Printer.is_color_prefix. simpl.
    split_tests; reflexivity.
  - unfold Printer.color_match.
    change (String c (String c1 (String c2 (String c3 (String c4 q))))
            +:+ String ESC (String "[" y))
      with (String c (String c1 (String c2 (String c3 (String c4
              (q +:+ String ESC (String "[" y))))))).
    cbv beta iota.
    destruct (Printer.is_color_prefix c c1 c2 c3 c4); [|reflexivity].
    destruct q as [|c5 q].
    + reflexivity.
    + rewrite utf8_head_stops by reflexivity.
      destruct (utf8_head (String c5 q)) as [[ch [|c6 r]]|]; try reflexivity.
      * simpl. by rewrite andb_false_r.
      * simpl. by destruct (negb (String.eqb ch (String NL "")) && Ascii.eqb c6 "m").
Qed.

(** The first substitution works on both sides of an escape sequence
    independently. *)
Lemma sub_color_app (pre y : string) :
  Printer.sub_color (pre +:+ String ESC (String "[" y)) =
  Printer.sub_color pre +:+ Printer.sub_color (String ESC (String "[" y)).
Proof.
  remember (String.length pre) as n eqn:Hn.
  revert pre Hn. induction n as [n IH] using lt_wf_ind. intros pre Hn.
  destruct pre as [|c p]; [reflexivity|].
  rewrite (sub_color_unfold (String c p +:+ _)), (sub_color_unfold (String c p)).
  rewrite color_match_app.
  destruct (Printer.color_match (String c p)) as [[[group1 group2] rest]|] eqn:Hh.
  - apply color_match_length in Hh.
    rewrite (IH (String.length rest)); [|lia|reflexivity].
    by rewrite append_assoc.
  - simpl. f_equal. apply (IH (String.length p)); [simpl in Hn; lia | reflexivity].
Qed.

Lemma color_match_not_esc (c : ascii) (s : string) :
  Ascii.eqb c ESC = false -> Printer.color_match (String c s) = None.
Proof.
  intros Hc.
  destruct s as [|c1 [|c2 [|c3 [|c4 s5]]]]; try reflexivity.
  unfold Printer.color_match, Printer.is_color_prefix. by rewrite Hc.
Qed.

Lemma sub_color_not_esc (c : ascii) (s : string) :
  Ascii.eqb c ESC = false ->
  Printer.sub_color (String c s) = String c (Printer.sub_color s).
Proof. intros Hc. by rewrite sub_color_unfold, color_match_not_esc. Qed.

Lemma sub_color_plain_app (t z : string) :
  plain t = true -> Printer.sub_color (t +:+ z) = t +:+ Printer.sub_color z.
Proof.
  induction t as [|c t IH]; simpl; [reflexivity|].
  intros [Hc Ht]%andb_prop. apply negb_true_iff in Hc.
  by rewrite sub_color_not_esc, IH.
Qed.

(** A matched code is replaced by what [_ansiToHTML] gives for its flag
    and its hue character. *)
Lemma sub_color_code_of (b : ascii) (ch post : string) :
  b = "0"%char \/ b = "1"%char -> is_char ch -> ch <> NEWLINE ->
  Printer.sub_color (color_code_of b ch +:+ post) =
  Printer._ansiToHTML (String b "") ch +:+ Printer.sub_color post.
Proof.
  intros Hb Hch Hnl. by rewrite sub_color_unfold, color_match_complete.
Qed.



Lemma sub_color_red (post : string) :
  Printer.sub_color (RED_CODE +:+ post) = RED_TAG +:+ Printer.sub_color post.
Proof.
  apply (sub_color_code_of "1" "1" post); [by right | reflexivity | discriminate].
Qed.

Lemma is_final_not_esc (final : ascii) :
  is_final final = true -> Ascii.eqb final ESC = false.
Proof. intros H. by destruct (Ascii.eqb_spec final ESC) as [->|]. Qed.

Lemma is_final_not_zero (final : ascii) :
  is_final final = true -> Ascii.eqb final "0" = false.
Proof. intros H. by destruct (Ascii.eqb_spec final "0") as [->|]. Qed.

Lemma plain_csi_body (params : string) (final : ascii) :
  plain params = true -> is_final final = true ->
  plain (String "[" (params +:+ String final "")) = true.
Proof.
  intros Hplain Hfinal. simpl.
  apply (plain_app params (String final "")); [done|].
  simpl. by rewrite is_final_not_esc.
Qed.

(** A control sequence [ESC[...x] that is no colour code, with what
    follows it, is left as it is by the first substitution. *)
Lemma sub_color_csi (params : string) (final : ascii) (post : string) :
  plain params = true -> is_final final = true ->
  ~ color_form (csi params final +:+ post) ->
  Printer.sub_color (csi params final +:+ post) =
  csi params final +:+ Printer.sub_color post.
Proof.
  intros Hplain Hfinal Hform. rewrite sub_color_unfold.
  destruct (Printer.color_match (csi params final +:+ post))
    as [[[group1 group2] rest]|] eqn:Hm.
  - exfalso. apply Hform.
    apply color_match_sound in Hm as (b & Hb & _ & Hch & Hnl & Hs).
    by exists b, group2, rest.
  - unfold csi. simpl. f_equal.
    change (String "[" ((params +:+ String final "") +:+ post))
      with ((String "[" (params +:+ String final "")) +:+ post).
    apply sub_color_plain_app. by apply plain_csi_body.
Qed.

Lemma sub_color_reset (post : string) :
  Printer.sub_color (RESET_CODE +:+ post) = RESET_CODE +:+ Printer.sub_color post.
Proof.
  apply (sub_color_csi "0" "m" post); [reflexivity | reflexivity |].
  intros (b & ch & rest & Hb & _ & _ & Heq).
  unfold csi, color_code_of in Heq. simpl in Heq.
  injection Heq as <- _. by destruct Hb.
Qed.

Lemma sub_color_1_99 (post : string) :
  Printer.sub_color (CODE_1_99 +:+ post) = CODE_1_99 +:+ Printer.sub_color post.
Proof.
  apply (sub_color_csi "1;99" "m" post); [reflexivity | reflexivity |].
  intros (b & ch & rest & _ & _ & _ & Heq). discriminate Heq.
Qed.

(** A reset code that starts in a text does not reach into what follows
    when that starts with a character the code does not end with. *)
Lemma reset_head_app (c0 c : ascii) (p z : string) :
  Ascii.eqb c "[" = false -> Ascii.eqb c "0" = false -> Ascii.eqb c "m" = false ->
  reset_head (String c0 p +:+ String c z) =
  match reset_head (String c0 p) with
  | Some rest => Some (rest +:+ String c z)
  | None => None
  end.
Proof.
  intros H1 H2 H3.
  destruct p as [|c1 [|c2 [|c3 rest]]]; simpl.
  - destruct z as [|z0 [|z1 z]]; try reflexivity.
    unfold Printer.is_reset_code. rewrite H1. split_tests; reflexivity.
  - destruct z as [|z0 z]; try reflexivity.
    unfold Printer.is_reset_code. rewrite H2. split_tests; reflexivity.
  - unfold Printer.is_reset_code. rewrite H3. split_tests; reflexivity.
  - destruct (Printer.is_reset_code c0 c1 c2 c3); reflexivity.
Qed.

Lemma reset_head_length (s rest : string) :
  reset_head s = Some rest -> (String.length rest < String.length s)%nat.
Proof.
  destruct s as [|c0 [|c1 [|c2 [|c3 r]]]]; simpl; try discriminate.
  destruct (Printer.is_reset_code _ _ _ _); [|discriminate].
  intros [= <-]. lia.
Qed.

(** The second substitution works on both sides of such a character
    independently. *)
Lemma sub_reset_app (pre : string) (c : ascii) (z : string) :
  Ascii.eqb c "[" = false -> Ascii.eqb c "0" = false -> Ascii.eqb c "m" = false ->
  Printer.sub_reset (pre +:+ String c z) =
  Printer.sub_reset pre +:+ Printer.sub_reset (String c z).
Proof.
  intros H1 H2 H3.
  remember (String.length pre) as n eqn:Hn.
  revert pre Hn. induction n as [n IH] using lt_wf_ind. intros pre Hn.
  destruct pre as [|c0 p]; [reflexivity|].
  rewrite (sub_reset_unfold (String c0 p +:+ _)), (sub_reset_unfold (String c0 p)).
  rewrite reset_head_app by done.
  destruct (reset_head (String c0 p)) as [rest|] eqn:Hh.
  - apply reset_head_length in Hh.
    rewrite (IH (String.length rest)); [|lia|reflexivity].
    by rewrite append_assoc.
  - simpl. f_equal. apply (IH (String.length p)); [simpl in Hn; lia | reflexivity].
Qed.

Lemma reset_head_not_esc (c : ascii) (s : string) :
  Ascii.eqb c ESC = false -> reset_head (String c s) = None.
Proof.
  intros Hc. destruct s as [|c1 [|c2 [|c3 rest]]]; try reflexivity.
  simpl. unfold Printer.is_reset_code. by rewrite Hc.
Qed.

Lemma sub_reset_not_esc (c : ascii) (s : string) :
  Ascii.eqb c ESC = false ->
  Printer.sub_reset (String c s) = String c (Printer.sub_reset s).
Proof. intros Hc. by rewrite sub_reset_unfold, reset_head_not_esc. Qed.

Lemma sub_reset_plain_app (t z : string) :
  plain t = true -> Printer.sub_reset (t +:+ z) = t +:+ Printer.sub_reset z.
Proof.
  induction t as [|c t IH]; simpl; [reflexivity|].
  intros [Hc Ht]%andb_prop. apply negb_true_iff in Hc.
  by rewrite sub_reset_not_esc, IH.
Qed.

Lemma sub_reset_code (z : string) :
  Printer.sub_reset (RESET_CODE +:+ z) = Printer.RESET_TAG +:+ Printer.sub_reset z.
Proof. reflexivity. Qed.

Lemma sub_reset_1_99 (z : string) :
  Printer.sub_reset (CODE_1_99 +:+ z) = CODE_1_99 +:+ Printer.sub_reset z.
Proof.
  unfold CODE_1_99. rewrite sub_reset_unfold. simpl.
  by rewrite !sub_reset_not_esc.
Qed.

(** Text without escape character goes through both substitutions
    unchanged. *)
Lemma translate_plain (t : string) : plain t = true -> Printer.translate t = t.
Proof.
  intros Ht. unfold Printer.translate.
  rewrite <- (append_nil_r t) at 1.
  rewrite sub_color_plain_app by done.
  rewrite sub_reset_plain_app by done.
  change (t +:+ "" = t). apply append_nil_r.
Qed.

Lemma translate_red (pre post : string) :
  Printer.translate (pre +:+ RED_CODE +:+ post) =
  Printer.translate pre +:+ RED_TAG +:+ Printer.translate post.
Proof.
  unfold Printer.translate.
  change (RED_CODE +:+ post) with (String ESC (String "[" ("1;31m" +:+ post))).
  rewrite sub_color_app.
  change (String ESC (String "[" ("1;31m" +:+ post))) with (RED_CODE +:+ post).
  rewrite sub_color_red.
  change (RED_TAG +:+ Printer.sub_color post)
    with (String "<" ("/span><span style='color: red'>" +:+ Printer.sub_color post)).
  rewrite sub_reset_app by reflexivity. f_equal.
  change (String "<" ("/span><span style='color: red'>" +:+ Printer.sub_color post))
    with (RED_TAG +:+ Printer.sub_color post).
  by rewrite sub_reset_plain_app.
Qed.

Lemma translate_reset (pre post : string) :
  Printer.translate (pre +:+ RESET_CODE +:+ post) =
  Printer.translate pre +:+ Printer.RESET_TAG +:+ Printer.translate post.
Proof.
  unfold Printer.translate.
  change (RESET_CODE +:+ post) with (String ESC (String "[" ("0m" +:+ post))).
  rewrite sub_color_app.
  change (String ESC (String "[" ("0m" +:+ post))) with (RESET_CODE +:+ post).
  rewrite sub_color_reset.
  change (RESET_CODE +:+ Printer.sub_color post)
    with (String ESC ("[0m" +:+ Printer.sub_color post)).
  rewrite sub_reset_app by reflexivity. f_equal.
Qed.

Lemma dict_get_here {V : Type} (k : string) (v : V) (d : dict V) :
  dict_get ((k, v) :: d) k = Some v.
Proof. simpl. by rewrite String.eqb_refl. Qed.

Lemma dict_get_skip {V : Type} (k c : string) (v : V) (d : dict V) :
  k <> c -> dict_get ((k, v) :: d) c = dict_get d c.
Proof. intros H%String.eqb_neq. simpl. by rewrite H. Qed.

(** [_ansiToHTML] gives the empty string for a hue character that is no
    hue digit: the [KeyError] branch. *)
Lemma ansiToHTML_unknown (b : ascii) (ch : string) :
  b = "0"%char \/ b = "1"%char -> ch ∉ hue_digits ->
  Printer._ansiToHTML (String b "") ch = "".
Proof.
  intros Hb Hc.
  assert (forall k, k ∈ hue_digits -> k <> ch) as Hk.
  { intros k Hin ->. by apply Hc. }
  unfold Printer._ansiToHTML, Printer.ANSI_TO_HTML.
  destruct Hb as [-> | ->].
  - rewrite dict_get_here.
    rewrite !dict_get_skip by (apply Hk; unfold hue_digits; set_solver). reflexivity.
  - rewrite dict_get_skip by discriminate. rewrite dict_get_here.
    rewrite !dict_get_skip by (apply Hk; unfold hue_digits; set_solver). reflexivity.
Qed.

Lemma sub_color_dropped (b : ascii) (ch pre post : string) :
  b = "0"%char \/ b = "1"%char -> is_char ch -> ch <> NEWLINE -> ch ∉ hue_digits ->
  Printer.sub_color (pre +:+ color_code_of b ch +:+ post) =
  Printer.sub_color pre +:+ Printer.sub_color post.
Proof.
  intros Hb Hch Hnl Hc.
  change (color_code_of b ch +:+ post)
    with (String ESC (String "[" (String b (String ";" (String "3" ((ch +:+ "m") +:+ post)))))).
  rewrite sub_color_app. f_equal.
  change (String ESC (String "[" (String b (String ";" (String "3" ((ch +:+ "m") +:+ post))))))
    with (color_code_of b ch +:+ post).
  rewrite sub_color_code_of by done.
  by rewrite ansiToHTML_unknown.
Qed.

(** No reset code starts at a control sequence [ESC[...x] other than the
    reset code itself, whatever follows the sequence. *)
Lemma reset_head_csi (params : string) (final : ascii) (post z : string) :
  is_final final = true ->
  ~ reset_form (csi params final +:+ post) ->
  reset_head (csi params final +:+ z) = None.
Proof.
  intros Hfinal%is_final_not_zero Hform.
  destruct (reset_head (csi params final +:+ z)) as [r|] eqn:Hr; [|reflexivity].
  exfalso. apply Hform. unfold csi in *.
  destruct params as [|p0 [|p1 ps]]; simpl in Hr.
  - destruct z as [|z0 z]; [discriminate|].
    unfold Printer.is_reset_code in Hr. rewrite Hfinal in Hr. discriminate.
  - unfold Printer.is_reset_code in Hr. simpl in Hr.
    destruct (Ascii.eqb_spec p0 "0") as [->|]; [|discriminate].
    destruct (Ascii.eqb_spec final "m") as [->|]; [|discriminate].
    by exists post.
  - unfold Printer.is_reset_code in Hr. simpl in Hr.
    destruct (Ascii.eqb_spec p0 "0") as [->|]; [|discriminate].
    destruct (Ascii.eqb_spec p1 "m") as [->|]; [|discriminate].
    by exists ((ps +:+ String final "") +:+ post).
Qed.

(** A control sequence [ESC[...x] at which neither pattern matches goes
    through both substitutions unchanged, whatever the text around it. *)
Lemma translate_csi (params : string) (final : ascii) (pre post : string) :
  plain params = true -> is_final final = true ->
  ~ color_form (csi params final +:+ post) ->
  ~ reset_form (csi params final +:+ post) ->
  Printer.translate (pre +:+ csi params final +:+ post) =
  Printer.translate pre +:+ csi params final +:+ Printer.translate post.
Proof.
  intros Hplain Hfinal Hcolor Hreset. unfold Printer.translate.
  change (csi params final +:+ post)
    with (String ESC (String "[" ((params +:+ String final "") +:+ post))).
  rewrite sub_color_app.
  change (String ESC (String "[" ((params +:+ String final "") +:+ post)))
    with (csi params final +:+ post).
  rewrite sub_color_csi by done.
  change (csi params final +:+ Printer.sub_color post)
    with (String ESC (String "[" (params +:+ String final "") +:+ Printer.sub_color post)).
  rewrite sub_reset_app by reflexivity. f_equal.
  change (String ESC (String "[" (params +:+ String final "") +:+ Printer.sub_color post))
    with (csi params final +:+ Printer.sub_color post).
  rewrite sub_reset_unfold, (reset_head_csi params final post) by done.
  unfold csi. simpl. f_equal.
  change (String "[" ((params +:+ String final "") +:+ Printer.sub_color post))
    with ((String "[" (params +:+ String final "")) +:+ Printer.sub_color post).
  apply sub_reset_plain_app. by apply plain_csi_body.
Qed.

Lemma translate_1_99 (pre post : string) :
  Printer.translate (pre +:+ CODE_1_99 +:+ post) =
  Printer.translate pre +:+ CODE_1_99 +:+ Printer.translate post.
Proof.
  unfold Printer.translate.
  change (CODE_1_99 +:+ post) with (String ESC (String "[" ("1;99m" +:+ post))).
  rewrite sub_color_app.
  change (String ESC (String "[" ("1;99m" +:+ post))) with (CODE_1_99 +:+ post).
  rewrite sub_color_1_99.
  change (CODE_1_99 +:+ Printer.sub_color post)
    with (String ESC ("[1;99m" +:+ Printer.sub_color post)).
  rewrite sub_reset_app by reflexivity. f_equal.
  apply sub_reset_1_99.
Qed.

Lemma sub_color_plain (t : string) : plain t = true -> Printer.sub_color t = t.
Proof.
  intros Ht. rewrite <- (append_nil_r t) at 1.
  rewrite sub_color_plain_app by done. apply append_nil_r.
Qed.

Lemma sub_reset_plain (t : string) : plain t = true -> Printer.sub_reset t = t.
Proof.
  intros Ht. rewrite <- (append_nil_r t) at 1.
  rewrite sub_reset_plain_app by done. apply append_nil_r.
Qed.

Lemma write_sends (p : Printer.t) (s : Printer.Socket) (message : string) :
  Printer.socket p = Some s -> Printer.closed s = false ->
  Printer.socket (Printer.write message p) =
  Some (Printer.send_json (Printer.OutputMsg (Printer.html_msg message)) s).
Proof. intros Hs Hc. unfold Printer.write. by rewrite Hs, Hc. Qed.

(** C7, as the code has it. With a web socket set and open, [write]
    sends the translated line between an opening and a closing span, and
    for every text before and after the code:
    - [ESC[1;31m] becomes the tag that closes the span and opens a red one;
    - [ESC[0m] becomes the tag that closes the span and opens a lightgrey one;
    - a code [ESC[b;3cm] with [b] 0 or 1 and [c] a character, of any
      number of bytes, that is neither a hue digit 0 to 7 nor a newline is
      replaced by the empty string by the first substitution, so that
      plain text around it is sent as it is;
    - a control sequence [ESC[...x], with any final byte [x] from [@] to
      [~] and no escape character before it, that with the text after it
      starts with neither such a code (whatever its character [c]) nor
      the reset code is matched by neither pattern: it is sent unchanged,
      with no tag; [ESC[1;99m] is one. *)
Theorem write_translates_escape_codes
    (p : Printer.t) (s : Printer.Socket) (pre post : string) :
  Printer.socket p = Some s -> Printer.closed s = false ->
  (forall message,
     Printer.socket (Printer.write message p) =
     Some (Printer.send_json (Printer.OutputMsg (Printer.html_msg message)) s)) /\
  Printer.html_msg (pre +:+ RED_CODE +:+ post) =
    SPAN_OPEN +:+ (Printer.translate pre +:+ RED_TAG +:+ Printer.translate post)
    +:+ SPAN_CLOSE /\
  Printer.html_msg (pre +:+ RESET_CODE +:+ post) =
    SPAN_OPEN +:+ (Printer.translate pre +:+ Printer.RESET_TAG +:+ Printer.translate post)
    +:+ SPAN_CLOSE /\
  (forall (b : ascii) (ch : string),
     b = "0"%char \/ b = "1"%char -> is_char ch -> ch <> NEWLINE -> ch ∉ hue_digits ->
     Printer.html_msg (pre +:+ color_code_of b ch +:+ post) =
       SPAN_OPEN +:+ Printer.sub_reset (Printer.sub_color pre +:+ Printer.sub_color post)
       +:+ SPAN_CLOSE /\
     (plain pre = true -> plain post = true ->
      Printer.html_msg (pre +:+ color_code_of b ch +:+ post) =
        SPAN_OPEN +:+ (pre +:+ post) +:+ SPAN_CLOSE)) /\
  (forall (params : string) (final : ascii),
     plain params = true -> is_final final = true ->
     ~ color_form (csi params final +:+ post) ->
     ~ reset_form (csi params final +:+ post) ->
     Printer.html_msg (pre +:+ csi params final +:+ post) =
       SPAN_OPEN
       +:+ (Printer.translate pre +:+ csi params final +:+ Printer.translate post)
       +:+ SPAN_CLOSE) /\
  Printer.html_msg (pre +:+ CODE_1_99 +:+ post) =
    SPAN_OPEN +:+ (Printer.translate pre +:+ CODE_1_99 +:+ Printer.translate post)
    +:+ SPAN_CLOSE.
Proof.
  intros Hs Hc. split; [|split; [|split; [|split; [|split]]]].
  - intros message. by apply write_sends.
  - unfold Printer.html_msg. by rewrite translate_red.
  - unfold Printer.html_msg. by rewrite translate_reset.
  - intros b ch Hb Hch Hnl Hhue.
    assert (Printer.translate (pre +:+ color_code_of b ch +:+ post) =
            Printer.sub_reset (Printer.sub_color pre +:+ Printer.sub_color post)) as Ht.
    { unfold Printer.translate. by rewrite sub_color_dropped. }
    unfold Printer.html_msg. rewrite Ht. split; [reflexivity|].
    intros Hpre Hpost.
    rewrite !sub_color_plain by done.
    by rewrite sub_reset_plain by by apply plain_app.
  - intros params final Hplain Hfinal Hcolor Hreset.
    unfold Printer.html_msg. by rewrite translate_csi.
  - unfold Printer.html_msg. by rewrite translate_1_99.
Qed.

(** The theorem on an open socket, at two lines: in [a ESC[1;3€m b],
    whose hue character has three bytes, the code is dropped and [ab] is
    sent; in [a ESC[2;31m b], whose flag is neither 0 nor 1, the code is
    sent as it is. *)
Lemma write_translates_escape_codes_witness :
  Printer.html_msg ("a" +:+ color_code_of "1" EURO +:+ "b") =
    SPAN_OPEN +:+ ("a" +:+ "b") +:+ SPAN_CLOSE /\
  Printer.html_msg ("a" +:+ csi "2;31" "m" +:+ "b") =
    SPAN_OPEN +:+ ("a" +:+ csi "2;31" "m" +:+ "b") +:+ SPAN_CLOSE.
Proof.
  pose proof (write_translates_escape_codes Scenario.live_printer
    {| Printer.closed := false; Printer.sent := [] |} "a" "b"
    eq_refl eq_refl) as (_ & _ & _ & Hdropped & Hkept & _).
  split.
  - refine (proj2 (Hdropped "1"%char EURO _ _ _ _) _ _).
    + right. reflexivity.
    + reflexivity.
    + discriminate.
    + unfold hue_digits. intros H.
      by repeat (apply elem_of_cons in H as [H|H]; [discriminate H|]);
        apply elem_of_nil in H.
    + reflexivity.
    + reflexivity.
  - apply (Hkept "2;31" "m"%char).
    + reflexivity.
    + reflexivity.
    + intros (b & ch & rest & Hb & _ & _ & Heq).
      injection Heq as <- _. by destruct Hb.
    + intros (rest & Heq). discriminate Heq.
Defined.

(** C7 as stated fails at the line [a ESC[1;99m b]: the code is not
    replaced by the empty string; what is sent is not the markup of [ab]
    but the line with the escape sequence still in it. *)
Lemma code_1_99_is_not_dropped :
  Printer.socket (Printer.write ("a" +:+ CODE_1_99 +:+ "b") Scenario.live_printer) =
    Some {| Printer.closed := false;
            Printer.sent := [Printer.OutputMsg
                               (SPAN_OPEN +:+ ("a" +:+ CODE_1_99 +:+ "b") +:+ SPAN_CLOSE)] |} /\
  Printer.socket (Printer.write ("a" +:+ CODE_1_99 +:+ "b") Scenario.live_printer) <>
    Some {| Printer.closed := false;
            Printer.sent := [Printer.OutputMsg (SPAN_OPEN +:+ ("a" +:+ "b") +:+ SPAN_CLOSE)] |}.
Proof. split; [reflexivity | vm_compute; discriminate]. Qed.

(** At the line [a ESC[2;31m b], whose code has a flag other than 0 and
    1, nothing is translated. *)
Lemma code_2_31_is_kept :
  Printer.html_msg ("a" +:+ String ESC "[2;31m" +:+ "b") =
  SPAN_OPEN +:+ ("a" +:+ String ESC "[2;31m" +:+ "b") +:+ SPAN_CLOSE.
Proof. reflexivity. Qed.

(** A code [ESC[1;3m], bold and italic, before a word that starts with
    [m] is read as a colour code with the hue character [m], and the
    letter is lost with it. *)
Lemma code_1_3_takes_the_next_m :
  Printer.html_msg (String ESC "[1;3m" +:+ "message") =
  SPAN_OPEN +:+ "essage" +:+ SPAN_CLOSE.
Proof. reflexivity. Qed.

(** At the line [a ESC[1;3€m b] the code is dropped, as every code
    [ESC[1;3cm] whose character [c] is no hue digit. *)
Lemma code_with_euro_is_dropped :
  is_char EURO /\
  Printer.html_msg ("a" +:+ String ESC "[1;3" +:+ EURO +:+ "m" +:+ "b") =
  SPAN_OPEN +:+ "ab" +:+ SPAN_CLOSE.
Proof. split; reflexivity. Qed.

End PrinterFacts.

(** ** FileCollection: the resolution of the patterns *)

Module FileCollectionFacts.
Import Spec ProgFacts.

Lemma str_in_spec (x : string) (l : list string) : str_in x l = true <-> x ∈ l.
Proof.
  induction l as [|y l IH]; simpl.
  - split; [discriminate | by intros ?%elem_of_nil].
  - rewrite orb_true_iff, IH, elem_of_cons, String.eqb_eq.
    split; (intros [H|H]; [left; by symmetry | by right]).
Qed.

Lemma str_in_false (x : string) (l : list string) : str_in x l = false <-> x ∉ l.
Proof. rewrite <- str_in_spec. by destruct (str_in x l). Qed.

Lemma dict_get_is_Some {V : Type} (d : dict V) (k : string) :
  k ∈ dict_keys d -> is_Some (dict_get d k).
Proof.
  induction d as [|[k' v] d IH]; simpl.
  - by intros ?%elem_of_nil.
  - intros [->|Hin]%elem_of_cons.
    + rewrite String.eqb_refl. by eexists.
    + destruct (String.eqb k' k); [by eexists | by apply IH].
Qed.

Lemma full_scan_snoc (m0 : gmap string (list string)) (vs : list (string * string))
    (v : string * string) :
  full_scan m0 (vs ++ [v]) = claim (full_scan m0 vs) v.
Proof. unfold full_scan. by rewrite fold_left_app. Qed.

(** One turn of the innermost loop is one visit of the fold. *)
Lemma visit_scanning (pats : dict str_or_list) (m0 : gmap string (list string))
    (vs : list (string * string)) (name f : string) :
  name ∈ dict_keys pats ->
  hoare (scanning pats m0 vs) (FileCollection.visit name f)
        (fun _ => scanning pats m0 (vs ++ [(name, f)])).
Proof.
  intros Hname fr (Hco & Hp & Hk & seen & Hseen & Hfold).
  unfold FileCollection.visit, bind, gets, FileCollection.local.
  rewrite Hco, Hseen. simpl.
  destruct (str_in f seen) eqn:Hin; simpl.
  - exists fr, tt. split; [reflexivity|].
    repeat split; try done. exists seen. split; [done|].
    rewrite full_scan_snoc, <- Hfold. simpl. by rewrite Hin.
  - destruct (Hk name) as [l Hl]; [by rewrite Hp|].
    unfold FileCollection.append. rewrite Hl. simpl.
    eexists _, tt. split; [reflexivity|].
    repeat split; try done.
    + intros k Hkin. simpl. destruct (decide (name = k)) as [->|Hne].
      * rewrite lookup_insert_eq. by eexists.
      * rewrite lookup_insert_ne by done. by apply Hk.
    + exists (seen ++ [f]). split; [reflexivity|].
      rewrite full_scan_snoc, <- Hfold. simpl. by rewrite Hin, Hl.
Qed.

Lemma default_lookup_elem (m : gmap string (list string)) (g x : string) :
  x ∈ default [] (m !! g) -> exists l, m !! g = Some l /\ x ∈ l.
Proof.
  destruct (m !! g) as [l|]; simpl; [by exists l | by intros ?%elem_of_nil].
Qed.

(** A visit keeps the lists free of duplicates and apart from each other. *)
Lemma claim_separated (st : gmap string (list string) * list string)
    (v : string * string) :
  separated st -> separated (claim st v).
Proof.
  destruct st as [m seen], v as [g f]. intros [Hlists Hapart]. simpl in *.
  destruct (str_in f seen) eqn:Hseen; [done|].
  apply str_in_false in Hseen.
  assert (forall x, x ∈ default [] (m !! g) -> x ∈ seen) as Hsub.
  { intros x (l & Hl & Hx)%default_lookup_elem. by apply (Hlists g l). }
  assert (NoDup (default [] (m !! g))) as Hnodup.
  { destruct (m !! g) as [l|] eqn:Hl; simpl; [by apply (Hlists g l) | constructor]. }
  split; simpl.
  - intros k l. destruct (decide (g = k)) as [->|Hne].
    + rewrite lookup_insert_eq. intros [= <-]. split.
      * apply NoDup_app. split; [done|]. split; [|apply NoDup_singleton].
        intros x Hx ->%list_elem_of_singleton. by apply Hseen, Hsub.
      * intros x [Hx| ->%list_elem_of_singleton]%elem_of_app; apply elem_of_app;
          [left; by apply Hsub | right; apply list_elem_of_singleton; done].
    + rewrite lookup_insert_ne by done. intros Hl.
      destruct (Hlists k l Hl) as [Hnd Hin]. split; [done|].
      intros x Hx. apply elem_of_app. left. by apply Hin.
  - intros k1 k2 l1 l2 x Hne.
    destruct (decide (g = k1)) as [->|Hne1]; [|destruct (decide (g = k2)) as [->|Hne2]].
    + rewrite lookup_insert_eq, lookup_insert_ne by done.
      intros [= <-] Hl2 [Hx| ->%list_elem_of_singleton]%elem_of_app Hx2.
      * apply default_lookup_elem in Hx as (l1 & Hl1 & Hx).
        by apply (Hapart k1 k2 l1 l2 x).
      * by apply Hseen, (Hlists k2 l2).
    + rewrite lookup_insert_eq, lookup_insert_ne by done.
      intros Hl1 [= <-] Hx1 [Hx| ->%list_elem_of_singleton]%elem_of_app.
      * apply default_lookup_elem in Hx as (l2 & Hl2 & Hx).
        by apply (Hapart k1 k2 l1 l2 x).
      * by apply Hseen, (Hlists k1 l1).
    + rewrite !lookup_insert_ne by done. by apply Hapart.
Qed.

Lemma fold_claim_separated (vs : list (string * string))
    (st : gmap string (list string) * list string) :
  separated st -> separated (fold_left claim vs st).
Proof.
  revert st. induction vs as [|v vs IH]; intros st Hst; simpl; [done|].
  by apply IH, claim_separated.
Qed.

Lemma empty_lists_separated (m : gmap string (list string)) :
  separated ((fun _ => []) <$> m, []).
Proof.
  split; simpl.
  - intros k l. rewrite lookup_fmap. destruct (m !! k); simpl; [|done].
    intros [= <-]. split; [constructor | by intros f ?%elem_of_nil].
  - intros k1 k2 l1 l2 f _. rewrite !lookup_fmap.
    destruct (m !! k1); simpl; [|done]. by intros [= <-] _ ?%elem_of_nil.
Qed.

(** A file stays in the list it was added to. *)
Lemma claim_mono (st : gmap string (list string) * list string)
    (v : string * string) (g f : string) :
  f ∈ default [] (st.1 !! g) -> f ∈ default [] ((claim st v).1 !! g).
Proof.
  destruct st as [m seen], v as [g' f']. simpl.
  destruct (str_in f' seen); [done|]. simpl. intros Hf.
  destruct (decide (g' = g)) as [->|Hne].
  - rewrite lookup_insert_eq. simpl. apply elem_of_app. by left.
  - by rewrite lookup_insert_ne.
Qed.

Lemma fold_claim_mono (vs : list (string * string))
    (st : gmap string (list string) * list string) (g f : string) :
  f ∈ default [] (st.1 !! g) -> f ∈ default [] ((fold_left claim vs st).1 !! g).
Proof.
  revert st. induction vs as [|v vs IH]; intros st Hf; simpl; [done|].
  by apply IH, claim_mono.
Qed.

(** A file not seen yet ends in the list of the first name it is visited
    for. *)
Lemma fold_claim_first (v1 v2 : list (string * string)) (g f : string)
    (st : gmap string (list string) * list string) :
  f ∉ st.2 ->
  (forall g', (g', f) ∈ v1 -> g' = g) ->
  f ∈ default [] ((fold_left claim (v1 ++ (g, f) :: v2) st).1 !! g).
Proof.
  revert st. induction v1 as [|[g1 f1] v1 IH]; intros [m seen] Hnew Hfirst; simpl in *.
  - apply fold_claim_mono. apply str_in_false in Hnew. rewrite Hnew. simpl.
    rewrite lookup_insert_eq. simpl. apply elem_of_app. right. by apply list_elem_of_singleton.
  - destruct (str_in f1 seen) eqn:Hseen.
    + apply IH; [done|]. intros g' Hg'. apply Hfirst. by apply elem_of_cons; right.
    + destruct (decide (f1 = f)) as [->|Hne].
      * assert (g1 = g) as -> by (apply Hfirst, elem_of_cons; by left).
        apply fold_claim_mono. simpl. rewrite lookup_insert_eq. simpl.
        apply elem_of_app. right. by apply list_elem_of_singleton.
      * apply IH.
        -- simpl. intros [?| ->%list_elem_of_singleton]%elem_of_app; [by apply Hnew | done].
        -- intros g' Hg'. apply Hfirst. by apply elem_of_cons; right.
Qed.

Section Resolve.
Variable glob : string -> list string.
Variable git : list string -> option CompletedProcess.

(** The loops of a full scan compute the fold over all visits. *)
Lemma resolve_loop_scanning (pats : dict str_or_list) (m0 : gmap string (list string)) :
  hoare (scanning pats m0 []) (FileCollection.resolve_loop glob)
        (fun _ => scanning pats m0 (visits glob pats)).
Proof.
  unfold FileCollection.resolve_loop.
  eapply hoare_bind.
  { apply (hoare_gets _ _ (fun names fr => names = dict_keys pats /\ scanning pats m0 [] fr)).
    intros fr Hfr. split; [|done]. by destruct Hfr as (_ & -> & _). }
  intros names.
  eapply hoare_conseq with
    (P' := fun fr => names = dict_keys pats /\
                     scanning pats m0 (flat_map (group_visits glob pats) []) fr)
    (Q' := fun _ fr => scanning pats m0 (flat_map (group_visits glob pats) (dict_keys pats)) fr);
    [|done|done].
  intros fr [Hnames Hfr]. subst names. revert fr Hfr.
  apply (hoare_for_each
           (fun done => scanning pats m0 (flat_map (group_visits glob pats) done))).
  intros done name rest Hsplit.
  assert (name ∈ dict_keys pats) as Hname by (rewrite Hsplit; set_solver).
  destruct (dict_get_is_Some pats name Hname) as [v Hv].
  eapply hoare_bind.
  { instantiate (1 := fun a fr =>
      a = v /\ scanning pats m0 (flat_map (group_visits glob pats) done) fr).
    intros fr Hfr. exists fr, v. split; [|done].
    unfold FileCollection.patterns_getitem.
    destruct Hfr as (_ & -> & _). by rewrite Hv. }
  intros a.
  eapply hoare_conseq with
    (P' := fun fr => a = v /\
       scanning pats m0 (flat_map (group_visits glob pats) done ++
         flat_map (fun pattern => map (pair name) (glob pattern)) []) fr)
    (Q' := fun _ fr =>
       scanning pats m0 (flat_map (group_visits glob pats) done ++
         flat_map (fun pattern => map (pair name) (glob pattern)) (as_list v)) fr).
  2:{ intros fr [-> Hfr]. split; [done|]. simpl. by rewrite app_nil_r. }
  2:{ intros _ fr Hfr. rewrite flat_map_app. simpl. rewrite app_nil_r.
      unfold group_visits at 2. by rewrite Hv. }
  intros fr [-> Hfr]. revert fr Hfr.
  apply (hoare_for_each
           (fun ps => scanning pats m0 (flat_map (group_visits glob pats) done ++
              flat_map (fun pattern => map (pair name) (glob pattern)) ps))).
  intros ps pattern prest _.
  eapply hoare_conseq with
    (P' := scanning pats m0 ((flat_map (group_visits glob pats) done ++
              flat_map (fun pattern => map (pair name) (glob pattern)) ps) ++
              map (pair name) []))
    (Q' := fun _ => scanning pats m0 ((flat_map (group_visits glob pats) done ++
              flat_map (fun pattern => map (pair name) (glob pattern)) ps) ++
              map (pair name) (glob pattern))).
  2:{ intros fr Hfr. simpl. by rewrite app_nil_r. }
  2:{ intros _ fr Hfr. rewrite flat_map_app. simpl.
      by rewrite app_nil_r, app_assoc. }
  apply (hoare_for_each
           (fun fs => scanning pats m0 ((flat_map (group_visits glob pats) done ++
              flat_map (fun pattern => map (pair name) (glob pattern)) ps) ++
              map (pair name) fs))).
  intros fs f frest _.
  eapply hoare_conseq;
    [eapply (visit_scanning pats m0 _ name f), Hname | intros fr Hfr; exact Hfr |].
  intros ? fr Hfr. simpl in Hfr. by rewrite map_app, app_assoc.
Qed.

Lemma reset_keyed (s : FileCollection.t) : keyed s -> keyed (FileCollection.reset s).
Proof.
  intros Hk name Hname. simpl in *. rewrite lookup_fmap.
  destruct (Hk name Hname) as [l ->]. by eexists.
Qed.

(** A full scan returns, and its lists are those of the fold. *)
Lemma resolve_full_scan (s : FileCollection.t) :
  FileCollection.changed_only s = false -> keyed s ->
  exists s' seen,
    FileCollection.resolve glob git s = (s', Ok tt) /\
    (FileCollection.items s', seen) =
      full_scan ((fun _ => []) <$> FileCollection.items s)
                (visits glob (FileCollection.patterns s)).
Proof.
  intros Hco Hk.
  pose (fr1 := {| FileCollection.self := FileCollection.reset s;
                  FileCollection.changed_files := None;
                  FileCollection.combined := Some [] |}).
  destruct (resolve_loop_scanning (FileCollection.patterns s)
              ((fun _ => []) <$> FileCollection.items s) fr1)
    as (fr2 & [] & Hrun & Hfr2).
  { repeat split; try done; [by apply reset_keyed|]. by exists []. }
  destruct Hfr2 as (_ & _ & _ & seen & _ & Hfold).
  exists (FileCollection.self fr2), seen. split; [|done].
  assert (FileCollection.resolve_init git
            {| FileCollection.self := s; FileCollection.changed_files := None;
               FileCollection.combined := None |} = (fr1, Ok tt)) as Hinit.
  { unfold FileCollection.resolve_init, bind, modify, gets. simpl. by rewrite Hco. }
  unfold FileCollection.resolve, FileCollection.resolve_frame, bind.
  by rewrite Hinit, Hrun.
Qed.

Lemma elem_of_group_visits (pats : dict str_or_list) (g g' f : string) :
  (g', f) ∈ group_visits glob pats g <-> g' = g /\ matched glob pats g f.
Proof.
  unfold group_visits, matched. rewrite list_elem_of_In.
  destruct (dict_get pats g) as [v|].
  - rewrite in_flat_map. split.
    + intros (pattern & Hp & Hf). apply in_map_iff in Hf as (x & [= <- <-] & Hx).
      split; [done|]. exists v, pattern.
      split; [done|]. split; by apply list_elem_of_In.
    + intros [-> (v' & pattern & [= <-] & Hp & Hf)]. exists pattern.
      split; [by apply list_elem_of_In|].
      apply in_map_iff. exists f. split; [done | by apply list_elem_of_In].
  - split; [by intros [] | by intros [_ (v & pattern & [=] & _)]].
Qed.

(** C5. A full scan returns; afterwards no file is in the lists of two
    pattern names, and a file that the patterns of a name expand to, and
    that the patterns of no name declared before it expand to, is in the
    list of that name. *)
Theorem full_scan_groups_disjoint (s : FileCollection.t) :
  FileCollection.changed_only s = false -> keyed s ->
  let s' := (FileCollection.resolve glob git s).1 in
  (FileCollection.resolve glob git s).2 = Ok tt /\
  (forall G1 G2 l1 l2 f,
     G1 <> G2 ->
     FileCollection.items s' !! G1 = Some l1 ->
     FileCollection.items s' !! G2 = Some l2 ->
     f ∈ l1 -> f ∉ l2) /\
  (forall before g after f,
     dict_keys (FileCollection.patterns s) = before ++ g :: after ->
     matched glob (FileCollection.patterns s) g f ->
     (forall g', g' ∈ before -> ~ matched glob (FileCollection.patterns s) g' f) ->
     exists l, FileCollection.items s' !! g = Some l /\ f ∈ l).
Proof.
  intros Hco Hk. destruct (resolve_full_scan s Hco Hk) as (s' & seen & -> & Hfold).
  simpl. split; [done|]. split.
  - intros G1 G2 l1 l2 f Hne Hl1 Hl2.
    pose proof (fold_claim_separated (visits glob (FileCollection.patterns s)) _
                  (empty_lists_separated (FileCollection.items s))) as [_ Hapart].
    fold (full_scan ((fun _ => []) <$> FileCollection.items s)
            (visits glob (FileCollection.patterns s))) in Hapart.
    rewrite <- Hfold in Hapart. by apply (Hapart G1 G2).
  - intros before g after f Hkeys Hg Hbefore.
    assert ((g, f) ∈ group_visits glob (FileCollection.patterns s) g) as Hin
      by by apply elem_of_group_visits.
    apply list_elem_of_split in Hin as (a & b & Hab).
    assert (visits glob (FileCollection.patterns s) =
            (flat_map (group_visits glob (FileCollection.patterns s)) before ++ a)
            ++ (g, f) :: b ++
            flat_map (group_visits glob (FileCollection.patterns s)) after) as Hvs.
    { unfold visits. rewrite Hkeys, flat_map_app. simpl. rewrite Hab.
      by rewrite <- !app_assoc. }
    pose proof (fold_claim_first
                  (flat_map (group_visits glob (FileCollection.patterns s)) before ++ a)
                  (b ++ flat_map (group_visits glob (FileCollection.patterns s)) after)
                  g f ((fun _ => []) <$> FileCollection.items s, [])) as Hfirst.
    rewrite <- Hvs in Hfirst.
    fold (full_scan ((fun _ => []) <$> FileCollection.items s)
            (visits glob (FileCollection.patterns s))) in Hfirst.
    rewrite <- Hfold in Hfirst. simpl in Hfirst.
    apply default_lookup_elem, Hfirst; [by intros ?%elem_of_nil|].
    intros g' [Hin|Hin]%elem_of_app.
    + apply list_elem_of_In, in_flat_map in Hin as (g0 & Hg0 & Hin).
      apply list_elem_of_In, elem_of_group_visits in Hin as [-> Hm].
      by destruct (Hbefore g0); [apply list_elem_of_In|].
    + assert ((g', f) ∈ group_visits glob (FileCollection.patterns s) g) as Hin'.
      { rewrite Hab. apply elem_of_app. by left. }
      by apply elem_of_group_visits in Hin' as [-> _].
Qed.

(** After a full scan no list holds a file twice. *)
Lemma full_scan_lists_nodup (s : FileCollection.t) (G : string) (l : list string) :
  FileCollection.changed_only s = false -> keyed s ->
  FileCollection.items (FileCollection.resolve glob git s).1 !! G = Some l ->
  NoDup l.
Proof.
  intros Hco Hk. destruct (resolve_full_scan s Hco Hk) as (s' & seen & -> & Hfold).
  simpl. intros Hl.
  pose proof (fold_claim_separated (visits glob (FileCollection.patterns s)) _
                (empty_lists_separated (FileCollection.items s))) as [Hlists _].
  fold (full_scan ((fun _ => []) <$> FileCollection.items s)
          (visits glob (FileCollection.patterns s))) in Hlists.
  rewrite <- Hfold in Hlists. by apply (Hlists G l).
Qed.

(** *** Resolving again *)

Lemma reset_reset (s : FileCollection.t) :
  FileCollection.reset (FileCollection.reset s) = FileCollection.reset s.
Proof.
  unfold FileCollection.reset, FileCollection.set_items. simpl. f_equal.
  by rewrite <- map_fmap_compose.
Qed.

Lemma reset_append (s : FileCollection.t) (k : string) (l l' : list string) :
  FileCollection.items s !! k = Some l ->
  FileCollection.reset (FileCollection.set_items <[k := l']> s) = FileCollection.reset s.
Proof.
  intros Hl. unfold FileCollection.reset, FileCollection.set_items. simpl. f_equal.
  rewrite fmap_insert. apply insert_id. by rewrite lookup_fmap, Hl.
Qed.

Lemma set_changed_files_resets_to (r : FileCollection.t) (l : list string) :
  preserves (resets_to r) (modify (FileCollection.set_changed_files l)).
Proof. by apply preserves_modify. Qed.

Lemma set_combined_resets_to (r : FileCollection.t) (l : list string) :
  preserves (resets_to r) (modify (FileCollection.set_combined l)).
Proof. by apply preserves_modify. Qed.

Lemma append_resets_to (r : FileCollection.t) (name f : string) :
  preserves (resets_to r) (FileCollection.append name f).
Proof.
  intros fr Hfr. unfold FileCollection.append.
  destruct (FileCollection.items (FileCollection.self fr) !! name) as [l|] eqn:Hl;
    simpl; [|done].
  unfold resets_to in *. simpl. by rewrite (reset_append _ _ l).
Qed.

Lemma local_preserves (I : FileCollection.frame -> Prop) (name : string)
    (v : FileCollection.frame -> option (list string)) :
  preserves I (FileCollection.local name v).
Proof. intros fr Hfr. unfold FileCollection.local. by destruct (v fr). Qed.

Lemma visit_resets_to (r : FileCollection.t) (name f : string) :
  preserves (resets_to r) (FileCollection.visit name f).
Proof.
  unfold FileCollection.visit.
  apply preserves_bind; [apply preserves_gets|]. intros [].
  - apply preserves_bind; [apply local_preserves|]. intros changed.
    destruct (str_in f changed); [|apply preserves_ret].
    apply preserves_bind; [apply append_resets_to|]. intros _.
    apply set_changed_files_resets_to.
  - apply preserves_bind; [apply local_preserves|]. intros seen.
    destruct (negb (str_in f seen)); [|apply preserves_ret].
    apply preserves_bind; [apply append_resets_to|]. intros _.
    apply set_combined_resets_to.
Qed.

Lemma resolve_frame_resets_to (s : FileCollection.t) :
  preserves (resets_to (FileCollection.reset s)) (FileCollection.resolve_frame glob git).
Proof.
  unfold FileCollection.resolve_frame, FileCollection.resolve_init,
    FileCollection.resolve_loop.
  apply preserves_bind.
  { apply preserves_bind.
    - apply preserves_modify. intros fr Hfr. unfold resets_to in *. simpl.
      by rewrite reset_reset.
    - intros _. apply preserves_bind; [apply preserves_gets|]. intros [].
      + unfold FileCollection.subprocess_run.
        apply preserves_bind.
        { destruct (git _); [apply preserves_ret | apply preserves_raise]. }
        intros committed. apply preserves_bind.
        { destruct (git _); [apply preserves_ret | apply preserves_raise]. }
        intros uncommitted.
        destruct (_ && _); [apply set_changed_files_resets_to | apply preserves_ret].
      + apply set_combined_resets_to. }
  intros _. apply preserves_bind; [apply preserves_gets|]. intros names.
  apply preserves_for_each. intros name.
  apply preserves_bind.
  { intros fr Hfr. unfold FileCollection.patterns_getitem. by destruct (dict_get _ _). }
  intros v. apply preserves_for_each. intros pattern.
  apply preserves_for_each. intros f. apply visit_resets_to.
Qed.

(** [resolve] starts by emptying the lists: what it does depends on the
    collection with its lists emptied only. *)
Lemma resolve_from_reset (s1 s2 : FileCollection.t) :
  FileCollection.reset s1 = FileCollection.reset s2 ->
  FileCollection.resolve glob git s1 = FileCollection.resolve glob git s2.
Proof.
  intros Heq.
  unfold FileCollection.resolve, FileCollection.resolve_frame,
    FileCollection.resolve_init.
  cbv [bind modify FileCollection.set_self FileCollection.self
       FileCollection.changed_files FileCollection.combined].
  by rewrite Heq.
Qed.

(** C9. With the file system and git fixed, a second [resolve] ends as
    the first one did and leaves the collection as the first one left it:
    the same lists in the same order. *)
Theorem resolve_twice_same (s : FileCollection.t) :
  FileCollection.resolve glob git (FileCollection.resolve glob git s).1 =
  FileCollection.resolve glob git s.
Proof.
  apply resolve_from_reset.
  pose proof (resolve_frame_resets_to s
                {| FileCollection.self := s; FileCollection.changed_files := None;
                   FileCollection.combined := None |} eq_refl) as H.
  unfold FileCollection.resolve.
  by destruct (FileCollection.resolve_frame glob git _) as [fr r].
Qed.

(** [resolve] keeps every declared pattern name a key of the collection,
    however it ends. *)
Lemma resolve_keyed (s : FileCollection.t) :
  keyed s -> keyed (FileCollection.resolve glob git s).1.
Proof.
  intros Hk.
  assert (preserves (fun fr => keyed (FileCollection.self fr))
            (FileCollection.resolve_frame glob git)) as Hpres.
  { assert (forall name f, preserves (fun fr => keyed (FileCollection.self fr))
                             (FileCollection.append name f)) as Happend.
    { intros name f fr Hfr. unfold FileCollection.append.
      destruct (FileCollection.items (FileCollection.self fr) !! name) as [l|] eqn:Hl;
        simpl; [|done].
      intros k Hkin. simpl. destruct (decide (name = k)) as [->|Hne].
      - rewrite lookup_insert_eq. by eexists.
      - rewrite lookup_insert_ne by done. by apply Hfr. }
    unfold FileCollection.resolve_frame, FileCollection.resolve_init,
      FileCollection.resolve_loop.
    apply preserves_bind.
    { apply preserves_bind.
      - apply preserves_modify. intros fr Hfr. by apply reset_keyed.
      - intros _. apply preserves_bind; [apply preserves_gets|]. intros [].
        + unfold FileCollection.subprocess_run.
          apply preserves_bind.
          { destruct (git _); [apply preserves_ret | apply preserves_raise]. }
          intros committed. apply preserves_bind.
          { destruct (git _); [apply preserves_ret | apply preserves_raise]. }
          intros uncommitted.
          destruct (_ && _); [by apply preserves_modify | apply preserves_ret].
        + by apply preserves_modify. }
    intros _. apply preserves_bind; [apply preserves_gets|]. intros names.
    apply preserves_for_each. intros name.
    apply preserves_bind.
    { intros fr Hfr. unfold FileCollection.patterns_getitem. by destruct (dict_get _ _). }
    intros v. apply preserves_for_each. intros pattern.
    apply preserves_for_each. intros f.
    unfold FileCollection.visit.
    apply preserves_bind; [apply preserves_gets|]. intros [].
    - apply preserves_bind; [apply local_preserves|]. intros changed.
      destruct (str_in f changed); [|apply preserves_ret].
      apply preserves_bind; [apply Happend|]. intros _. by apply preserves_modify.
    - apply preserves_bind; [apply local_preserves|]. intros seen.
      destruct (negb (str_in f seen)); [|apply preserves_ret].
      apply preserves_bind; [apply Happend|]. intros _. by apply preserves_modify. }
  specialize (Hpres {| FileCollection.self := s; FileCollection.changed_files := None;
                       FileCollection.combined := None |} Hk).
  unfold FileCollection.resolve.
  by destruct (FileCollection.resolve_frame glob git _) as [fr r].
Qed.

(** *** The changed files *)

Lemma visit_listing (pats : dict str_or_list) (name f : string) :
  name ∈ dict_keys pats ->
  hoare (listing pats) (FileCollection.visit name f) (fun _ => listing pats).
Proof.
  intros Hname fr (Hco & Hp & Hk & changed & Hchanged).
  unfold FileCollection.visit, bind, gets, FileCollection.local.
  rewrite Hco, Hchanged. simpl.
  destruct (str_in f changed); simpl.
  - destruct (Hk name) as [l Hl]; [by rewrite Hp|].
    unfold FileCollection.append. rewrite Hl. simpl.
    eexists _, tt. split; [reflexivity|].
    split; [done|]. split; [done|]. split; [|by eexists].
    intros k Hkin. simpl. destruct (decide (name = k)) as [->|Hne].
    + rewrite lookup_insert_eq. by eexists.
    + rewrite lookup_insert_ne by done. by apply Hk.
  - exists fr, tt. split; [reflexivity|].
    split; [done|]. split; [done|]. split; [done | by eexists].
Qed.

Lemma resolve_loop_listing (pats : dict str_or_list) :
  hoare (listing pats) (FileCollection.resolve_loop glob) (fun _ => listing pats).
Proof.
  unfold FileCollection.resolve_loop.
  eapply hoare_bind.
  { apply (hoare_gets _ _ (fun names fr => names = dict_keys pats /\ listing pats fr)).
    intros fr Hfr. split; [|done]. by destruct Hfr as (_ & -> & _). }
  intros names. intros fr [-> Hfr]. revert fr Hfr.
  apply (hoare_for_each (fun _ => listing pats)).
  intros done name rest Hsplit.
  assert (name ∈ dict_keys pats) as Hname by (rewrite Hsplit; set_solver).
  destruct (dict_get_is_Some pats name Hname) as [v Hv].
  eapply hoare_bind.
  { instantiate (1 := fun _ => listing pats).
    intros fr Hfr. exists fr, v. split; [|done].
    unfold FileCollection.patterns_getitem.
    destruct Hfr as (_ & -> & _). by rewrite Hv. }
  intros a. apply (hoare_for_each (fun _ => listing pats)).
  intros ps pattern prest _.
  apply (hoare_for_each (fun _ => listing pats)).
  intros fs f frest _. by apply visit_listing.
Qed.

(** C4, what the code does. When both git commands can be started,
    [resolve] returns normally whatever their exit statuses are: it never
    looks at [returncode], and the test [committed and uncommitted] holds
    of every pair of results. *)
Theorem changed_only_ignores_git_exit_status
    (s : FileCollection.t) (committed uncommitted : CompletedProcess) :
  FileCollection.changed_only s = true -> keyed s ->
  git FileCollection.GIT_DIFF = Some committed ->
  git FileCollection.GIT_LS_FILES = Some uncommitted ->
  (FileCollection.resolve glob git s).2 = Ok tt.
Proof.
  intros Hco Hk Hdiff Hls.
  pose (fr1 := {| FileCollection.self := FileCollection.reset s;
                  FileCollection.changed_files :=
                    Some (split_lines (stdout committed) ++ split_lines (stdout uncommitted));
                  FileCollection.combined := None |}).
  destruct (resolve_loop_listing (FileCollection.patterns s) fr1)
    as (fr2 & [] & Hrun & _).
  { split; [done|]. split; [done|]. split; [by apply reset_keyed | by eexists]. }
  assert (FileCollection.resolve_init git
            {| FileCollection.self := s; FileCollection.changed_files := None;
               FileCollection.combined := None |} = (fr1, Ok tt)) as Hinit.
  { unfold FileCollection.resolve_init, FileCollection.subprocess_run,
      bind, modify, gets. simpl. by rewrite Hco, Hdiff, Hls. }
  unfold FileCollection.resolve, FileCollection.resolve_frame, bind.
  by rewrite Hinit, Hrun.
Qed.

(** When git cannot be started, [resolve] does stop: it raises, with the
    lists emptied. *)
Lemma changed_only_raises_without_git (s : FileCollection.t) :
  FileCollection.changed_only s = true ->
  git FileCollection.GIT_DIFF = None ->
  FileCollection.resolve glob git s =
  (FileCollection.reset s, Raise (FileNotFoundError "git")).
Proof.
  intros Hco Hdiff.
  unfold FileCollection.resolve, FileCollection.resolve_frame,
    FileCollection.resolve_init, FileCollection.subprocess_run, bind, modify, gets, raise.
  simpl. by rewrite Hco, Hdiff.
Qed.

End Resolve.

Lemma init_keyed (config : Config) (changed_only : bool) :
  keyed (FileCollection.__init__ config changed_only).
Proof.
  unfold keyed, FileCollection.__init__. simpl.
  generalize (dict_keys match cfg_patterns config with Some p => p | None => [] end).
  intros keys.
  assert (forall (m : gmap string (list string)) name,
            name ∈ keys \/ is_Some (m !! name) ->
            is_Some (foldl (fun m k => <[k := []]> m) m keys !! name)) as Hgen.
  { induction keys as [|k keys IH]; intros m name; simpl.
    - by intros [?%elem_of_nil|].
    - intros H. apply IH. destruct (decide (k = name)) as [->|Hne].
      + right. rewrite lookup_insert_eq. by eexists.
      + rewrite lookup_insert_ne by done.
        destruct H as [[->|?]%elem_of_cons|?]; [done | by left | by right]. }
  intros name Hname. apply Hgen. by left.
Qed.

(** The theorem on the scenario: [src/a.py] is matched by both groups and
    goes to [python], declared first, and not to [all]. *)
Lemma full_scan_groups_disjoint_witness :
  (FileCollection.resolve Scenario.glob Scenario.git_clean (Scenario.collection false)).2
    = Ok tt /\
  ("src/a.py" ∉ ["README"; "src"]) /\
  (exists l,
     FileCollection.items
       (FileCollection.resolve Scenario.glob Scenario.git_clean (Scenario.collection false)).1
       !! "python" = Some l /\ "src/a.py" ∈ l).
Proof.
  destruct (full_scan_groups_disjoint Scenario.glob Scenario.git_clean
              (Scenario.collection false) eq_refl (init_keyed _ _))
    as (Hok & Hapart & Hfirst).
  split; [exact Hok|]. split.
  - apply (Hapart "python" "all" ["src/a.py"; "b.py"] ["README"; "src"] "src/a.py").
    + discriminate.
    + reflexivity.
    + reflexivity.
    + apply elem_of_cons. by left.
  - apply (Hfirst [] "python" ["all"; "xml"] "src/a.py").
    + reflexivity.
    + exists (StrList ["src/*.py"; "**/*.py"]), "src/*.py".
      split; [reflexivity|]. split; apply elem_of_cons; by left.
    + by intros g' ?%elem_of_nil.
Defined.

(** The theorem outside a working tree: both commands exit with status
    128, and the resolution returns as if nothing had happened. *)
Lemma changed_only_ignores_git_exit_status_witness :
  (FileCollection.resolve Scenario.glob Scenario.git_failing (Scenario.collection true)).2
  = Ok tt.
Proof.
  apply (changed_only_ignores_git_exit_status Scenario.glob Scenario.git_failing
           (Scenario.collection true)
           {| returncode := 128; stdout := "" |} {| returncode := 128; stdout := "" |}).
  - reflexivity.
  - apply init_keyed.
  - reflexivity.
  - reflexivity.
Defined.

(** What the resolution leaves outside a working tree: every list empty,
    as if no file had changed. *)
Lemma git_failure_gives_empty_lists :
  FileCollection.items
    (FileCollection.resolve Scenario.glob Scenario.git_failing (Scenario.collection true)).1
  = {[ "python" := []; "all" := []; "xml" := [] ]}.
Proof. vm_compute. reflexivity. Qed.

(** C8 fails on the changed files: with the path [src/a.py] in the output
    of both git commands and among the files of both patterns of the group
    [python], the path is put twice in the list of that group. *)
Theorem changed_only_lists_file_twice :
  FileCollection.resolve Scenario.glob Scenario.git_twice (Scenario.collection true) =
    ({| FileCollection.items := {[ "python" := ["src/a.py"; "src/a.py"]; "all" := []; "xml" := [] ]};
        FileCollection.patterns := FileCollection.patterns (Scenario.collection true);
        FileCollection.changed_only := true |}, Ok tt) /\
  ~ NoDup ["src/a.py"; "src/a.py"].
Proof.
  split; [vm_compute; reflexivity|].
  intros [Hnotin _]%NoDup_cons. apply Hnotin, elem_of_cons. by left.
Qed.

End FileCollectionFacts.

(** ** StepExecutor: the run of the steps *)

Module StepExecutorFacts.
Import Spec ProgFacts.

Section Run.
Variable glob : gset string -> string -> list string.
Variable git : gset string -> list string -> option CompletedProcess.
Variable process : StepExecutor.command -> gset string -> option StepExecutor.ProcessRun.
Variable mkstemp_path : gset string -> string -> string.

#[local] Abbreviation execute_step := (StepExecutor.execute_step process mkstemp_path).
#[local] Abbreviation execute_steps := (StepExecutor.execute_steps process mkstemp_path).
#[local] Abbreviation execute_loop := (StepExecutor.execute_loop glob git process mkstemp_path).
#[local] Abbreviation execute := (StepExecutor.execute glob git process mkstemp_path).
#[local] Abbreviation _runValidator := (StepExecutor._runValidator process mkstemp_path).
#[local] Abbreviation _popen := (StepExecutor._popen process).

(** The header [execute] writes for a step. *)
#[local] Abbreviation header step_name :=
  (String ESC "[1;37m+++ " +:+ step_name +:+ String ESC "[0m").

(** *** The loop over the step names *)

(** The loop over [before ++ after] is the loop over [before], and, when
    that comes to its end, the loop over [after]. *)
Lemma execute_steps_app (self : StepExecutor.t) (before after : list string)
    (overall_success : bool) (w : StepExecutor.World) :
  execute_steps self (before ++ after) overall_success w =
  match execute_steps self before overall_success w with
  | (w1, Ok (StepExecutor.Next b)) => execute_steps self after b w1
  | (w1, Ok (StepExecutor.Return v)) => (w1, Ok (StepExecutor.Return v))
  | (w1, Raise e) => (w1, Raise e)
  end.
Proof.
  revert overall_success w. induction before as [|name before IH]; intros b w.
  - reflexivity.
  - simpl. unfold bind.
    destruct (execute_step self name b w) as [w1 [[b1|v]|e]]; [apply IH | done | done].
Qed.

Lemma execute_loop_app (self : StepExecutor.t) (before after : list string)
    (w : StepExecutor.World) :
  execute_loop self (before ++ after) w =
  match execute_loop self before w with
  | (w1, Ok (StepExecutor.Next b)) => execute_steps self after b w1
  | (w1, Ok (StepExecutor.Return v)) => (w1, Ok (StepExecutor.Return v))
  | (w1, Raise e) => (w1, Raise e)
  end.
Proof.
  unfold StepExecutor.execute_loop, bind.
  destruct (StepExecutor.setenv "debug" _ w) as [w1 [[]|e]]; [|done].
  destruct (gets _ w1) as [w2 [co|e]]; [|done].
  destruct (StepExecutor.setenv "changed_only" _ w2) as [w3 [[]|e]]; [|done].
  destruct (StepExecutor.resolve glob git w3) as [w4 [[]|e]]; [|done].
  apply execute_steps_app.
Qed.

(** Gathering the files of a step reads the file collection and changes
    nothing. *)
Lemma gather_reads (f : Printer.t -> Printer.t) (patterns acc : list string)
    (w : StepExecutor.World) :
  exists r,
    StepExecutor.gather patterns acc w = (w, r) /\
    StepExecutor.gather patterns acc (StepExecutor.set_printer f w) =
      (StepExecutor.set_printer f w, r).
Proof.
  revert acc. induction patterns as [|p patterns IH]; intros acc; simpl.
  - by eexists.
  - unfold bind, StepExecutor.file_collection_getitem. simpl.
    destruct (FileCollection.items (StepExecutor.file_collection w) !! p) as [l|].
    + apply IH.
    + by eexists.
Qed.

Lemma step_files_reads (f : Printer.t -> Printer.t) (step : Step)
    (w : StepExecutor.World) :
  exists r,
    StepExecutor.step_files step w = (w, r) /\
    StepExecutor.step_files step (StepExecutor.set_printer f w) =
      (StepExecutor.set_printer f w, r).
Proof.
  unfold StepExecutor.step_files. destruct (step_patterns step) as [v|].
  - apply gather_reads.
  - by eexists.
Qed.

Lemma stdout_write (message : string) (p : Printer.t) :
  Printer.stdout (Printer.write message p) = Printer.stdout p ++ [message].
Proof.
  unfold Printer.write. destruct (Printer.socket p) as [s|]; [|done].
  by destruct (negb (Printer.closed s)).
Qed.

(** C3. When the steps before it have been executed (whatever their
    results) and a declared step has no file, [execute] returns [True]
    after it has written the header of the step and then
    [Nothing to check, skipping]: these two lines are what the terminal
    gains, and what an open web socket is sent as markup; no subprocess is
    started for the step and the steps after it leave no trace. *)
Theorem empty_step_returns_true
    (self : StepExecutor.t) (d : dict Step) (before after : list string)
    (step_name : string) (step : Step) (b : bool) (w w1 : StepExecutor.World) :
  execute_loop self before w = (w1, Ok (StepExecutor.Next b)) ->
  StepExecutor.steps self = StepExecutor.StepsDict d ->
  dict_get d step_name = Some step ->
  (StepExecutor.step_files step w1).2 = Ok [] ->
  let w2 := StepExecutor.set_printer
              (fun p => Printer.write "Nothing to check, skipping"
                          (Printer.write (header step_name) p)) w1 in
  execute self (before ++ step_name :: after) w = (w2, Ok (PyBool true)) /\
  Printer.stdout (StepExecutor.printer w2) =
    Printer.stdout (StepExecutor.printer w1)
    ++ [header step_name; "Nothing to check, skipping"] /\
  (forall s : Printer.Socket,
     Printer.socket (StepExecutor.printer w1) = Some s -> Printer.closed s = false ->
     Printer.socket (StepExecutor.printer w2) =
     Some {| Printer.closed := false;
             Printer.sent :=
               Printer.sent s
               ++ [Printer.OutputMsg (Printer.html_msg (header step_name));
                   Printer.OutputMsg (Printer.html_msg "Nothing to check, skipping")] |}) /\
  StepExecutor.popen_log w2 = StepExecutor.popen_log w1 /\
  StepExecutor.files w2 = StepExecutor.files w1.
Proof.
  intros Hbefore Hsteps Hstep Hfiles w2. split; [|split; [|split; [|done]]].
  - unfold StepExecutor.execute, bind.
    rewrite execute_loop_app, Hbefore. simpl.
    unfold bind at 1. unfold StepExecutor.execute_step.
    unfold bind at 1. unfold StepExecutor.steps_getitem. rewrite Hsteps, Hstep.
    unfold ret at 1. unfold bind at 1. unfold StepExecutor.printer_write at 1.
    unfold modify at 1. unfold bind at 1.
    destruct (step_files_reads (Printer.write (header step_name)) step w1)
      as (r & Hr1 & Hr2).
    rewrite Hr1 in Hfiles. simpl in Hfiles. subst r. rewrite Hr2. simpl.
    reflexivity.
  - subst w2. destruct w1 as [p fc env fs log]. cbn [StepExecutor.set_printer StepExecutor.printer].
    rewrite !stdout_write, <- app_assoc. reflexivity.
  - intros s Hs Hc. subst w2. destruct w1 as [p fc env fs log].
    cbn [StepExecutor.set_printer StepExecutor.printer] in *.
    rewrite (PrinterFacts.write_sends _ _ _
               (PrinterFacts.write_sends p s (header step_name) Hs Hc) Hc).
    unfold Printer.send_json. cbn [Printer.closed Printer.sent].
    by rewrite Hc, <- app_assoc.
Qed.

(** C10, as the code has it. When the steps before it have been
    executed, a step name that is not declared makes [execute] raise, in
    the state the steps before have left: nothing is written for the step
    and the steps after it are not run. What is raised depends on the
    configuration: with a [steps] mapping, of which the name is no key,
    [KeyError] with that name; without one, the declared steps being the
    empty list, [TypeError]. *)
Theorem undeclared_step_raises
    (self : StepExecutor.t) (before after : list string)
    (step_name : string) (b : bool) (w w1 : StepExecutor.World) :
  execute_loop self before w = (w1, Ok (StepExecutor.Next b)) ->
  (forall d : dict Step,
     StepExecutor.steps self = StepExecutor.StepsDict d ->
     dict_get d step_name = None ->
     execute self (before ++ step_name :: after) w = (w1, Raise (KeyError step_name))) /\
  (StepExecutor.steps self = StepExecutor.StepsEmptyList ->
   execute self (before ++ step_name :: after) w =
   (w1, Raise (TypeError "list indices must be integers or slices, not str"))).
Proof.
  intros Hbefore. split.
  - intros d Hsteps Hstep.
    unfold StepExecutor.execute, bind.
    rewrite execute_loop_app, Hbefore. simpl.
    unfold bind at 1. unfold StepExecutor.execute_step.
    unfold bind at 1. unfold StepExecutor.steps_getitem. by rewrite Hsteps, Hstep.
  - intros Hsteps.
    unfold StepExecutor.execute, bind.
    rewrite execute_loop_app, Hbefore. simpl.
    unfold bind at 1. unfold StepExecutor.execute_step.
    unfold bind at 1. unfold StepExecutor.steps_getitem. by rewrite Hsteps.
Qed.

(** Without a [steps] key in the configuration the declared steps are a
    list, and the first step name raises [TypeError]. *)
Lemma no_steps_raises_TypeError (config : Config) (step_name : string)
    (after : list string) (w w1 : StepExecutor.World) :
  cfg_steps config = None ->
  execute_loop (StepExecutor.__init__ config) [] w = (w1, Ok (StepExecutor.Next true)) ->
  execute (StepExecutor.__init__ config) (step_name :: after) w =
  (w1, Raise (TypeError "list indices must be integers or slices, not str")).
Proof.
  intros Hcfg Hloop.
  unfold StepExecutor.execute, bind.
  rewrite (execute_loop_app _ [] (step_name :: after)), Hloop. simpl.
  unfold bind at 1. unfold StepExecutor.execute_step.
  unfold bind at 1. unfold StepExecutor.steps_getitem, StepExecutor.__init__. simpl.
  by rewrite Hcfg.
Qed.

(** C1, what the code does. A run that comes to the end of its loop with
    the aggregate [b] writes the summary for [b] and returns [None], not
    [b]. *)
Theorem execute_returns_None
    (self : StepExecutor.t) (step_names : list string) (b : bool)
    (w w1 : StepExecutor.World) :
  execute_loop self step_names w = (w1, Ok (StepExecutor.Next b)) ->
  execute self step_names w =
  (StepExecutor.set_printer (Printer.write (StepExecutor.SUMMARY b)) w1, Ok PyNone).
Proof.
  intros Hloop. unfold StepExecutor.execute, bind. by rewrite Hloop.
Qed.

(** *** The validator *)

Lemma write_lines_run (lines : list string) (w : StepExecutor.World) :
  for_each lines StepExecutor.printer_write w =
  (StepExecutor.set_printer (write_lines lines) w, Ok tt).
Proof.
  revert w. induction lines as [|line lines IH]; intros w.
  - by destruct w.
  - simpl. unfold bind. unfold StepExecutor.printer_write at 1. unfold modify at 1.
    rewrite IH. by destruct w.
Qed.

(** What [_popen] does: the command is logged; if the program starts, its
    lines are written, its files are left and its exit status is returned;
    if not, [FileNotFoundError] is raised. *)
Lemma popen_run (c : StepExecutor.command) (w : StepExecutor.World) :
  _popen c w =
  match process c (StepExecutor.files w) with
  | Some run =>
      (StepExecutor.set_files (fun _ => StepExecutor.files_after run)
         (StepExecutor.set_printer (write_lines (StepExecutor.output run))
            (StepExecutor.log_popen c w)),
       Ok (StepExecutor.exit_status run))
  | None => (StepExecutor.log_popen c w, Raise (FileNotFoundError (StepExecutor.program c)))
  end.
Proof.
  unfold StepExecutor._popen, bind, modify, gets. simpl.
  destruct (process c (StepExecutor.files w)) as [run|]; [|done].
  by rewrite write_lines_run.
Qed.

(** The run of [_runValidator] when the validator exits with status 0. *)
Lemma validator_success_run
    (self : StepExecutor.t) (profile : string) (files : list string)
    (w : StepExecutor.World) (run : StepExecutor.ProcessRun) :
  process (StepExecutor.Argv (StepExecutor.validator_command profile files))
          ({[mkstemp_path (StepExecutor.files w) ".xml"]} ∪ StepExecutor.files w)
    = Some run ->
  StepExecutor.exit_status run = 0 ->
  "u" ∈ StepExecutor.files_after run ->
  _runValidator self profile files w =
  (StepExecutor.set_files (fun fs => fs ∖ {["u"]})
     (StepExecutor.set_printer
        (fun p => if StepExecutor.debug self then p
                  else Printer.write StepExecutor.VALIDATOR_WARNING p)
        (StepExecutor.set_files (fun _ => StepExecutor.files_after run)
           (StepExecutor.set_printer (write_lines (StepExecutor.output run))
              (StepExecutor.log_popen
                 (StepExecutor.Argv (StepExecutor.validator_command profile files))
                 (StepExecutor.set_files
                    (fun fs => {[mkstemp_path (StepExecutor.files w) ".xml"]} ∪ fs) w))))),
   Ok false).
Proof.
  intros Hrun Hexit Hout.
  unfold StepExecutor._runValidator, StepExecutor.mkstemp.
  unfold bind at 1. rewrite (bind_unfold (_popen _)), popen_run. simpl.
  rewrite Hrun, Hexit. simpl.
  destruct (StepExecutor.debug self); simpl;
    unfold bind, StepExecutor.printer_write, modify, ret, StepExecutor.os_unlink; simpl;
    rewrite bool_decide_eq_true_2 by done; reflexivity.
Qed.

(** C2, what the code does. When the validator starts and exits with
    status 0, that is successfully, [_runValidator] does not start the
    analysis and returns [False]; unless debugging is on, the last line
    it writes is the warning that there was an error running the
    validator. *)
Theorem validator_success_gives_False
    (self : StepExecutor.t) (profile : string) (files : list string)
    (w : StepExecutor.World) (run : StepExecutor.ProcessRun) :
  process (StepExecutor.Argv (StepExecutor.validator_command profile files))
          ({[mkstemp_path (StepExecutor.files w) ".xml"]} ∪ StepExecutor.files w)
    = Some run ->
  StepExecutor.exit_status run = 0 ->
  "u" ∈ StepExecutor.files_after run ->
  let w' := (_runValidator self profile files w).1 in
  (_runValidator self profile files w).2 = Ok false /\
  StepExecutor.popen_log w' =
    StepExecutor.popen_log w ++
    [StepExecutor.Argv (StepExecutor.validator_command profile files)] /\
  (StepExecutor.debug self = false ->
   last (Printer.stdout (StepExecutor.printer w')) = Some StepExecutor.VALIDATOR_WARNING).
Proof.
  intros Hrun Hexit Hout.
  rewrite (validator_success_run self profile files w run Hrun Hexit Hout). simpl.
  split; [done|]. split; [done|].
  intros ->. by rewrite stdout_write, last_snoc.
Qed.

Lemma printer_write_keeps (path message : string) :
  preserves (keeps path) (StepExecutor.printer_write message).
Proof. by apply preserves_modify. Qed.

Lemma os_unlink_keeps (path other : string) :
  path <> other -> preserves (keeps path) (StepExecutor.os_unlink other).
Proof.
  intros Hne w Hw. unfold StepExecutor.os_unlink.
  destruct (bool_decide _); simpl; [|done].
  unfold keeps in *. simpl. set_solver.
Qed.

Lemma popen_keeps (path : string) (c : StepExecutor.command) :
  (forall c fs run, process c fs = Some run -> path ∈ fs ->
                    path ∈ StepExecutor.files_after run) ->
  preserves (keeps path) (_popen c).
Proof.
  intros Hprocess w Hw. rewrite popen_run.
  destruct (process c (StepExecutor.files w)) as [run|] eqn:Hrun; simpl; [|done].
  by apply (Hprocess c (StepExecutor.files w)).
Qed.

(** C6, what the code does. The file that [mkstemp] creates is still
    there when [_runValidator] is over, however it ends, as long as the
    two programs leave it alone: the path removed at the end is [u], the
    second character of [output.xml]. *)
Theorem mkstemp_file_is_never_removed
    (self : StepExecutor.t) (profile : string) (files : list string)
    (w : StepExecutor.World) :
  let tmp := mkstemp_path (StepExecutor.files w) ".xml" in
  tmp <> "u" ->
  (forall c fs run, process c fs = Some run -> tmp ∈ fs ->
                    tmp ∈ StepExecutor.files_after run) ->
  tmp ∈ StepExecutor.files (_runValidator self profile files w).1.
Proof.
  intros tmp Hne Hprocess.
  unfold StepExecutor._runValidator. rewrite bind_unfold.
  unfold StepExecutor.mkstemp at 1. cbv beta iota zeta. fold tmp.
  lazymatch goal with
  | |- _ ∈ StepExecutor.files (bind ?c ?k ?w0).1 =>
      cut (preserves (keeps tmp) (bind c k));
        [intros Hk; apply (Hk w0); unfold keeps; simpl; set_solver|]
  end.
  apply preserves_bind; [by apply popen_keeps|]. intros result_validator.
  apply preserves_bind.
  - destruct (truthy_int result_validator).
    + apply preserves_bind; [by apply popen_keeps | intros ?; apply preserves_ret].
    + destruct (negb (StepExecutor.debug self)); [|apply preserves_ret].
      apply preserves_bind; [apply printer_write_keeps | intros ?; apply preserves_ret].
  - intros success. apply preserves_bind; [|intros ?; apply preserves_ret].
    by apply os_unlink_keeps.
Qed.

(** What is removed is the file [u]: when [_runValidator] returns, that
    file is not there. *)
Lemma file_u_is_unlinked
    (self : StepExecutor.t) (profile : string) (files : list string)
    (w w' : StepExecutor.World) (success : bool) :
  _runValidator self profile files w = (w', Ok success) ->
  "u" ∉ StepExecutor.files w'.
Proof.
  unfold StepExecutor._runValidator. rewrite bind_unfold.
  unfold StepExecutor.mkstemp at 1. cbv beta iota zeta.
  rewrite bind_unfold, popen_run.
  destruct (process _ _) as [run|]; [|discriminate].
  rewrite bind_unfold.
  assert (forall w1 b,
            bind (StepExecutor.os_unlink (str_getitem StepExecutor.OUT_FILE 1))
                 (fun _ => ret b) w1 = (w', Ok success) ->
            "u" ∉ StepExecutor.files w') as Hend.
  { intros w1 b. unfold bind, StepExecutor.os_unlink, ret.
    destruct (bool_decide _); [|discriminate].
    intros [= <- _]. simpl.
    intros [_ Hn]%elem_of_difference. by apply Hn, elem_of_singleton. }
  destruct (truthy_int (StepExecutor.exit_status run)).
  - rewrite bind_unfold, popen_run.
    destruct (process _ _) as [run2|]; [|discriminate]. apply Hend.
  - destruct (negb (StepExecutor.debug self)); apply Hend.
Qed.

End Run.

(** *** The scenario *)

#[local] Abbreviation scenario_loop n :=
  (StepExecutor.execute_loop Scenario.glob_at Scenario.git_at (Scenario.process_exit n)
     Scenario.mkstemp_path Scenario.executor).

#[local] Abbreviation scenario_validator n :=
  (StepExecutor._runValidator (Scenario.process_exit n) Scenario.mkstemp_path
     Scenario.executor "qa-profile" ["src/a.py"; "b.py"] Scenario.world).

(** The theorem on the scenario: [lint] fails, [conformance] has no file,
    and the run returns [True] without running [docs]; the last line on
    the terminal is [Nothing to check, skipping]. *)
Lemma empty_step_returns_true_witness :
  (Scenario.run 1 ["lint"; "conformance"; "docs"]).2 = Ok (PyBool true) /\
  last (Printer.stdout (StepExecutor.printer
          (Scenario.run 1 ["lint"; "conformance"; "docs"]).1)) =
  Some "Nothing to check, skipping".
Proof.
  destruct (empty_step_returns_true Scenario.glob_at Scenario.git_at
              (Scenario.process_exit 1) Scenario.mkstemp_path Scenario.executor
              match cfg_steps Scenario.config with Some d => d | None => [] end
              ["lint"] ["docs"] "conformance"
              {| step_patterns := Some (Str "xml"); step_profile := Some "qa-profile";
                 step_script := None |}
              false Scenario.world (scenario_loop 1 ["lint"] Scenario.world).1)
    as (Hrun & Hout & _).
  - vm_compute. reflexivity.
  - reflexivity.
  - reflexivity.
  - vm_compute. reflexivity.
  - unfold Scenario.run.
    change ["lint"; "conformance"; "docs"] with (["lint"] ++ "conformance" :: ["docs"]).
    rewrite Hrun. split; [reflexivity|].
    cbn [fst]. rewrite Hout.
    change (?l ++ [?x; ?y]) with (l ++ [x] ++ [y]).
    by rewrite app_assoc, last_snoc.
Defined.

(** The theorem on the scenario: [nope] is not declared in the steps
    mapping and raises [KeyError] once [lint] has run; without the steps
    section the first name raises [TypeError]. *)
Lemma undeclared_step_raises_witness :
  (Scenario.run 0 ["lint"; "nope"; "docs"]).2 = Raise (KeyError "nope") /\
  (StepExecutor.execute Scenario.glob_at Scenario.git_at (Scenario.process_exit 0)
     Scenario.mkstemp_path Scenario.executor_without_steps
     ["nope"; "docs"] Scenario.world).2 =
  Raise (TypeError "list indices must be integers or slices, not str").
Proof.
  split.
  - destruct (undeclared_step_raises Scenario.glob_at Scenario.git_at
                (Scenario.process_exit 0) Scenario.mkstemp_path Scenario.executor
                ["lint"] ["docs"] "nope" true Scenario.world
                (scenario_loop 0 ["lint"] Scenario.world).1) as [Hkey _].
    + vm_compute. reflexivity.
    + unfold Scenario.run.
      change ["lint"; "nope"; "docs"] with (["lint"] ++ "nope" :: ["docs"]).
      rewrite (Hkey match cfg_steps Scenario.config with Some d => d | None => [] end).
      * reflexivity.
      * reflexivity.
      * reflexivity.
  - destruct (undeclared_step_raises Scenario.glob_at Scenario.git_at
                (Scenario.process_exit 0) Scenario.mkstemp_path
                Scenario.executor_without_steps
                [] ["docs"] "nope" true Scenario.world
                (StepExecutor.execute_loop Scenario.glob_at Scenario.git_at
                   (Scenario.process_exit 0) Scenario.mkstemp_path
                   Scenario.executor_without_steps [] Scenario.world).1) as [_ Htype].
    + vm_compute. reflexivity.
    + change ["nope"; "docs"] with ([] ++ "nope" :: ["docs"]).
      rewrite Htype; reflexivity.
Defined.

(** C10 as stated fails on the configuration without its steps section:
    the requested step [lint] is not among the declared steps, of which
    there are none, and what [execute] raises is [TypeError], not
    [KeyError]. *)
Lemma undeclared_step_without_steps_section :
  StepExecutor.steps Scenario.executor_without_steps = StepExecutor.StepsEmptyList /\
  (StepExecutor.execute Scenario.glob_at Scenario.git_at (Scenario.process_exit 0)
     Scenario.mkstemp_path Scenario.executor_without_steps
     ["lint"] Scenario.world).2 =
  Raise (TypeError "list indices must be integers or slices, not str") /\
  (StepExecutor.execute Scenario.glob_at Scenario.git_at (Scenario.process_exit 0)
     Scenario.mkstemp_path Scenario.executor_without_steps
     ["lint"] Scenario.world).2 <>
  Raise (KeyError "lint").
Proof.
  split; [reflexivity|]. split; [vm_compute; reflexivity | vm_compute; discriminate].
Qed.

(** The theorem on the scenario: the only step, [lint], succeeds, and the
    run returns [None]. *)
Lemma execute_returns_None_witness :
  (Scenario.run 0 ["lint"]).2 = Ok PyNone.
Proof.
  unfold Scenario.run.
  rewrite (execute_returns_None Scenario.glob_at Scenario.git_at
             (Scenario.process_exit 0) Scenario.mkstemp_path Scenario.executor
             ["lint"] true Scenario.world (scenario_loop 0 ["lint"] Scenario.world).1).
  - reflexivity.
  - vm_compute. reflexivity.
Defined.

(** The run in which every step succeeds: the summary says so, the value
    returned is [None], the batch mode exits with status 1 and the menu
    reports a failure. *)
Lemma passing_run_is_reported_as_failure :
  last (Printer.stdout (StepExecutor.printer (Scenario.run 0 ["lint"; "docs"]).1)) =
    Some "All checks finished succesfully" /\
  (Scenario.run 0 ["lint"; "docs"]).2 = Ok PyNone /\
  StepExecutor.exit_code PyNone = 1 /\
  StepExecutor.report_status PyNone = "failure".
Proof. vm_compute. by repeat split. Qed.

(** The theorem on the scenario: the validator exits with status 0. *)
Lemma validator_success_gives_False_witness :
  (scenario_validator 0).2 = Ok false.
Proof.
  refine (proj1 (validator_success_gives_False (Scenario.process_exit 0)
                   Scenario.mkstemp_path Scenario.executor "qa-profile"
                   ["src/a.py"; "b.py"] Scenario.world
                   {| StepExecutor.output := ["checking" +:+ String NL ""];
                      StepExecutor.exit_status := 0;
                      StepExecutor.files_after :=
                        {["u"]} ∪ ({["/tmp/tmpk3x9w2ab.xml"]} ∪
                                   StepExecutor.files Scenario.world) |} _ _ _)).
  - reflexivity.
  - reflexivity.
  - apply elem_of_union_l, elem_of_singleton. reflexivity.
Defined.

(** With both the validator and the analysis exiting with status 1, that
    is unsuccessfully, [_runValidator] returns [True]. *)
Lemma validator_failure_gives_True :
  (scenario_validator 1).2 = Ok true.
Proof. vm_compute. reflexivity. Qed.

(** The theorem on the scenario. *)
Lemma mkstemp_file_is_never_removed_witness :
  "/tmp/tmpk3x9w2ab.xml" ∈ StepExecutor.files (scenario_validator 0).1.
Proof.
  apply (mkstemp_file_is_never_removed (Scenario.process_exit 0) Scenario.mkstemp_path
           Scenario.executor "qa-profile" ["src/a.py"; "b.py"] Scenario.world).
  - discriminate.
  - intros c fs run [= <-] Hin. simpl.
    destruct (Scenario.is_validator c); [apply elem_of_union_r|]; exact Hin.
Defined.

(** The files after the validator step of the scenario: the file [u] is
    gone, the temporary file is not. *)
Lemma files_after_validator :
  StepExecutor.files (scenario_validator 0).1 =
  {[ "/tmp/tmpk3x9w2ab.xml"; "src/a.py"; "b.py"; "README" ]}.
Proof. vm_compute. reflexivity. Qed.

End StepExecutorFacts.

(** ** FileCollection: more on the resolution *)

Module FileCollectionMore.
Import Spec ProgFacts FileCollectionFacts.

(** *** What [__init__] leaves *)


(** *** Lists *)

Lemma elem_of_list_remove (x y : string) (l : list string) :
  y ∈ list_remove x l -> y ∈ l.
Proof.
  induction l as [|z l IH]; simpl; [done|].
  destruct (String.eqb z x).
  - intros H. apply elem_of_cons. by right.
  - intros [->|H]%elem_of_cons; apply elem_of_cons; [by left | right; by apply IH].
Qed.

Lemma elem_of_list_remove_ne (x y : string) (l : list string) :
  y <> x -> y ∈ l -> y ∈ list_remove x l.
Proof.
  intros Hne. induction l as [|z l IH]; simpl; [done|].
  intros [->|H]%elem_of_cons.
  - destruct (String.eqb_spec z x) as [->|_]; [done|]. apply elem_of_cons. by left.
  - destruct (String.eqb z x); [done|]. apply elem_of_cons. right. by apply IH.
Qed.

Lemma occurrences_zero (x : string) (l : list string) :
  occurrences x l = 0%nat <-> x ∉ l.
Proof.
  induction l as [|y l IH]; simpl.
  - split; [by intros _ ?%elem_of_nil | done].
  - rewrite not_elem_of_cons. destruct (String.eqb_spec y x) as [->|Hne].
    + split; [discriminate | by intros [? _]].
    + simpl. rewrite IH. split; [by split; [congruence|] | by intros [_ ?]].
Qed.

Lemma occurrences_app (x : string) (l1 l2 : list string) :
  occurrences x (l1 ++ l2) = (occurrences x l1 + occurrences x l2)%nat.
Proof. induction l1 as [|y l1 IH]; simpl; [done|]. rewrite IH. lia. Qed.

Lemma occurrences_remove_other (f x : string) (l : list string) :
  (occurrences f (list_remove x l) <= occurrences f l)%nat.
Proof.
  induction l as [|y l IH]; simpl; [done|].
  destruct (String.eqb y x); simpl; lia.
Qed.

Lemma occurrences_remove (x : string) (l : list string) :
  x ∈ l -> occurrences x l = S (occurrences x (list_remove x l)).
Proof.
  induction l as [|y l IH]; simpl; [by intros ?%elem_of_nil|].
  destruct (String.eqb y x) eqn:E; [done|]. simpl. rewrite E. simpl.
  intros [->|H]%elem_of_cons; [by rewrite String.eqb_refl in E | by apply IH].
Qed.

Lemma dict_get_Some_key {V : Type} (d : dict V) (k : string) (v : V) :
  dict_get d k = Some v -> k ∈ dict_keys d.
Proof.
  induction d as [|[k' v'] d IH]; simpl; [done|].
  destruct (String.eqb_spec k' k) as [->|_].
  - intros _. apply elem_of_cons. by left.
  - intros H. apply elem_of_cons. right. by apply IH.
Qed.

(** *** The two folds *)

Lemma changed_scan_snoc (m0 : gmap string (list string)) (changed0 : list string)
    (vs : list (string * string)) (v : string * string) :
  changed_scan m0 changed0 (vs ++ [v]) = take (changed_scan m0 changed0 vs) v.
Proof. unfold changed_scan. by rewrite fold_left_app. Qed.

(** What is in a list after the full scan was there before or was
    visited for that name. *)
Lemma fold_claim_sound (vs : list (string * string))
    (st : gmap string (list string) * list string) (k f : string) :
  f ∈ default [] ((fold_left claim vs st).1 !! k) ->
  f ∈ default [] (st.1 !! k) \/ (k, f) ∈ vs.
Proof.
  revert st. induction vs as [|[g x] vs IH]; intros [m seen]; simpl; [by left|].
  intros [Hin|Hin]%IH; [|right; apply elem_of_cons; by right].
  destruct (str_in x seen); [by left|]. simpl in Hin.
  destruct (decide (g = k)) as [->|Hne].
  - rewrite lookup_insert_eq in Hin. simpl in Hin.
    apply elem_of_app in Hin as [Hin| ->%list_elem_of_singleton]; [by left|].
    right. apply elem_of_cons. by left.
  - rewrite lookup_insert_ne in Hin by done. by left.
Qed.

(** Every file seen is in some list, if that was so at the start. *)
Lemma fold_claim_covers (vs : list (string * string))
    (st : gmap string (list string) * list string) (g f : string) :
  (forall x, x ∈ st.2 -> exists k, x ∈ default [] (st.1 !! k)) ->
  (g, f) ∈ vs ->
  exists k, f ∈ default [] ((fold_left claim vs st).1 !! k).
Proof.
  revert st. induction vs as [|[g1 f1] vs IH]; intros [m seen] Hcov;
    [by intros ?%elem_of_nil|].
  assert (forall x, x ∈ (claim (m, seen) (g1, f1)).2 ->
            exists k, x ∈ default [] ((claim (m, seen) (g1, f1)).1 !! k)) as Hcov'.
  { intros x. pose proof (claim_mono (m, seen) (g1, f1)) as Hmono. simpl in *.
    destruct (str_in f1 seen) eqn:Hseen; [apply Hcov|]. simpl in *.
    intros [Hx| ->%list_elem_of_singleton]%elem_of_app.
    - destruct (Hcov x Hx) as [k Hk]. exists k. by apply Hmono.
    - exists g1. rewrite lookup_insert_eq. simpl. apply elem_of_app. right.
      by apply list_elem_of_singleton. }
  intros [[= -> ->]|Hin]%elem_of_cons; simpl; [|by apply IH].
  assert (f1 ∈ (claim (m, seen) (g1, f1)).2) as Hseen'.
  { simpl. destruct (str_in f1 seen) eqn:Hseen; simpl.
    - by apply str_in_spec.
    - apply elem_of_app. right. by apply list_elem_of_singleton. }
  destruct (Hcov' f1 Hseen') as [k Hk]. exists k. by apply fold_claim_mono.
Qed.

Lemma take_mono (st : gmap string (list string) * list string)
    (v : string * string) (g f : string) :
  f ∈ default [] (st.1 !! g) -> f ∈ default [] ((take st v).1 !! g).
Proof.
  destruct st as [m changed], v as [g' f']. simpl.
  destruct (str_in f' changed); [|done]. simpl. intros Hf.
  destruct (decide (g' = g)) as [->|Hne].
  - rewrite lookup_insert_eq. simpl. apply elem_of_app. by left.
  - by rewrite lookup_insert_ne.
Qed.

Lemma fold_take_mono (vs : list (string * string))
    (st : gmap string (list string) * list string) (g f : string) :
  f ∈ default [] (st.1 !! g) -> f ∈ default [] ((fold_left take vs st).1 !! g).
Proof.
  revert st. induction vs as [|v vs IH]; intros st Hf; simpl; [done|].
  by apply IH, take_mono.
Qed.

(** What is in a list after the resolution of the changed files was
    there before, or was visited for that name and among the changed
    files. *)
Lemma fold_take_sound (vs : list (string * string))
    (st : gmap string (list string) * list string) (k f : string) :
  f ∈ default [] ((fold_left take vs st).1 !! k) ->
  f ∈ default [] (st.1 !! k) \/ ((k, f) ∈ vs /\ f ∈ st.2).
Proof.
  revert st. induction vs as [|[g x] vs IH]; intros [m changed]; simpl; [by left|].
  intros [Hin|[Hin Hch]]%IH.
  - destruct (str_in x changed) eqn:Hx; [|by left]. simpl in Hin.
    destruct (decide (g = k)) as [->|Hne].
    + rewrite lookup_insert_eq in Hin. simpl in Hin.
      apply elem_of_app in Hin as [Hin| ->%list_elem_of_singleton]; [by left|].
      right. split; [apply elem_of_cons; by left | by apply str_in_spec].
    + rewrite lookup_insert_ne in Hin by done. by left.
  - right. split; [apply elem_of_cons; by right|].
    destruct (str_in x changed); [|done]. simpl in Hch.
    by apply elem_of_list_remove in Hch.
Qed.

(** A changed file ends in the list of the first name it is visited
    for. *)
Lemma fold_take_first (v1 v2 : list (string * string)) (g f : string)
    (st : gmap string (list string) * list string) :
  f ∈ st.2 ->
  (forall g', (g', f) ∈ v1 -> g' = g) ->
  f ∈ default [] ((fold_left take (v1 ++ (g, f) :: v2) st).1 !! g).
Proof.
  revert st. induction v1 as [|[g1 f1] v1 IH]; intros [m changed] Hin Hfirst; simpl in *.
  - apply fold_take_mono. apply str_in_spec in Hin. rewrite Hin. simpl.
    rewrite lookup_insert_eq. simpl. apply elem_of_app. right.
    by apply list_elem_of_singleton.
  - destruct (decide (f1 = f)) as [->|Hne].
    + assert (g1 = g) as -> by (apply Hfirst, elem_of_cons; by left).
      apply fold_take_mono. apply str_in_spec in Hin. rewrite Hin. simpl.
      rewrite lookup_insert_eq. simpl. apply elem_of_app. right.
      by apply list_elem_of_singleton.
    + apply IH.
      * destruct (str_in f1 changed); [|done]. simpl.
        by apply elem_of_list_remove_ne.
      * intros g' Hg'. apply Hfirst. by apply elem_of_cons; right.
Qed.

(** A visit keeps a file that git names at most once in at most one
    list, at most once. *)
Lemma take_once (f : string) (st : gmap string (list string) * list string)
    (v : string * string) :
  once f st -> once f (take st v).
Proof.
  destruct st as [m changed], v as [g x]. intros (Hocc & Hfree & Hone & Hapart).
  simpl in *. destruct (str_in x changed) eqn:Hx; [|done].
  apply str_in_spec in Hx.
  assert (forall l, m !! g = Some l -> default [] (m !! g) = l) as Hdef
    by (by intros l ->).
  destruct (decide (x = f)) as [->|Hne].
  - assert (f ∉ list_remove f changed) as Hgone.
    { apply occurrences_zero. pose proof (occurrences_remove f changed Hx). lia. }
    assert (f ∉ default [] (m !! g)) as Hnew.
    { destruct (m !! g) as [l|] eqn:Hl; simpl; [by apply (Hfree Hx g) | by intros ?%elem_of_nil]. }
    split; [|split; [done|split]]; simpl.
    + pose proof (occurrences_remove_other f f changed). lia.
    + intros k l. destruct (decide (g = k)) as [->|Hgk].
      * rewrite lookup_insert_eq. intros [= <-]. rewrite occurrences_app. simpl.
        rewrite String.eqb_refl. apply occurrences_zero in Hnew. lia.
      * rewrite lookup_insert_ne by done. apply Hone.
    + intros k1 k2 l1 l2 Hk.
      destruct (decide (g = k1)) as [->|Hg1]; [|destruct (decide (g = k2)) as [->|Hg2]].
      * rewrite lookup_insert_eq, lookup_insert_ne by done.
        intros _ Hl2 _. by apply (Hfree Hx k2).
      * rewrite lookup_insert_eq, lookup_insert_ne by done.
        intros Hl1 _ Hin. by destruct (Hfree Hx k1 l1).
      * rewrite !lookup_insert_ne by done. by apply Hapart.
  - assert (forall l, f ∈ l ++ [x] <-> f ∈ l) as Hsame.
    { intros l. rewrite elem_of_app, list_elem_of_singleton.
      split; [intros [?|?]; [done | congruence] | by left]. }
    split; [|split; [|split]]; simpl.
    + pose proof (occurrences_remove_other f x changed). lia.
    + intros Hin%elem_of_list_remove k l.
      destruct (decide (g = k)) as [->|Hgk].
      * rewrite lookup_insert_eq. intros [= <-]. rewrite Hsame.
        destruct (m !! k) as [l|] eqn:Hl; simpl; [by apply (Hfree Hin k) | by intros ?%elem_of_nil].
      * rewrite lookup_insert_ne by done. by apply Hfree.
    + intros k l. destruct (decide (g = k)) as [->|Hgk].
      * rewrite lookup_insert_eq. intros [= <-]. rewrite occurrences_app. simpl.
        assert (String.eqb x f = false) as -> by by apply String.eqb_neq.
        destruct (m !! k) as [l|] eqn:Hl; simpl; [specialize (Hone k l Hl); lia | lia].
      * rewrite lookup_insert_ne by done. apply Hone.
    + intros k1 k2 l1 l2 Hk.
      destruct (decide (g = k1)) as [->|Hg1]; [|destruct (decide (g = k2)) as [->|Hg2]].
      * rewrite lookup_insert_eq, lookup_insert_ne by done.
        intros [= <-] Hl2. rewrite Hsame.
        destruct (m !! k1) as [l1|] eqn:Hl1; simpl;
          [by apply (Hapart k1 k2 l1 l2) | by intros ?%elem_of_nil].
      * rewrite lookup_insert_eq, lookup_insert_ne by done.
        intros Hl1 [= <-] Hin. rewrite Hsame.
        destruct (m !! k2) as [l2|] eqn:Hl2; simpl;
          [by apply (Hapart k1 k2 l1 l2) | by intros ?%elem_of_nil].
      * rewrite !lookup_insert_ne by done. by apply Hapart.
Qed.

Lemma fold_take_once (f : string) (vs : list (string * string))
    (st : gmap string (list string) * list string) :
  once f st -> once f (fold_left take vs st).
Proof.
  revert st. induction vs as [|v vs IH]; intros st Hst; simpl; [done|].
  by apply IH, take_once.
Qed.

Lemma empty_lists_once (f : string) (m : gmap string (list string)) (changed : list string) :
  (occurrences f changed <= 1)%nat -> once f ((fun _ => []) <$> m, changed).
Proof.
  intros Hocc.
  assert (forall k l, ((fun _ => []) <$> m : gmap string (list string)) !! k = Some l ->
                      l = []) as Hempty.
  { intros k l. rewrite lookup_fmap. destruct (m !! k); simpl; [|done]. by intros [= <-]. }
  split; [done|]. split; [|split]; simpl.
  - intros _ k l ->%Hempty. by intros ?%elem_of_nil.
  - intros k l ->%Hempty. simpl. lia.
  - intros k1 k2 l1 l2 _ ->%Hempty _. by intros ?%elem_of_nil.
Qed.

Section Resolve.
Variable glob : string -> list string.

(** *** The loops as a fold *)

(** The loops go through the visits in order: a property of the visits
    gone through that every turn of the innermost loop carries on holds
    of all visits at the end. *)
Lemma resolve_loop_fold (pats : dict str_or_list)
    (P : list (string * string) -> FileCollection.frame -> Prop) :
  (forall vs fr, P vs fr -> FileCollection.patterns (FileCollection.self fr) = pats) ->
  (forall vs name f, name ∈ dict_keys pats ->
     hoare (P vs) (FileCollection.visit name f) (fun _ => P (vs ++ [(name, f)]))) ->
  hoare (P []) (FileCollection.resolve_loop glob) (fun _ => P (visits glob pats)).
Proof.
  intros Hpats Hvisit.
  unfold FileCollection.resolve_loop.
  eapply hoare_bind.
  { apply (hoare_gets _ _ (fun names fr => names = dict_keys pats /\ P [] fr)).
    intros fr Hfr. split; [|done]. by rewrite (Hpats [] fr). }
  intros names.
  eapply hoare_conseq with
    (P' := fun fr => names = dict_keys pats /\
                     P (flat_map (group_visits glob pats) []) fr)
    (Q' := fun _ fr => P (flat_map (group_visits glob pats) (dict_keys pats)) fr);
    [|done|done].
  intros fr [Hnames Hfr]. subst names. revert fr Hfr.
  apply (hoare_for_each (fun done => P (flat_map (group_visits glob pats) done))).
  intros done name rest Hsplit.
  assert (name ∈ dict_keys pats) as Hname.
  { rewrite Hsplit. apply elem_of_app. right. apply elem_of_cons. by left. }
  destruct (dict_get_is_Some pats name Hname) as [v Hv].
  eapply hoare_bind.
  { instantiate (1 := fun a fr =>
      a = v /\ P (flat_map (group_visits glob pats) done) fr).
    intros fr Hfr. exists fr, v. split; [|done].
    unfold FileCollection.patterns_getitem.
    by rewrite (Hpats _ fr Hfr), Hv. }
  intros a.
  eapply hoare_conseq with
    (P' := fun fr => a = v /\
       P (flat_map (group_visits glob pats) done ++
          flat_map (fun pattern => map (pair name) (glob pattern)) []) fr)
    (Q' := fun _ fr =>
       P (flat_map (group_visits glob pats) done ++
          flat_map (fun pattern => map (pair name) (glob pattern)) (as_list v)) fr).
  2:{ intros fr [-> Hfr]. split; [done|]. simpl. by rewrite app_nil_r. }
  2:{ intros ? fr Hfr. rewrite flat_map_app. simpl. rewrite app_nil_r.
      unfold group_visits at 2. by rewrite Hv. }
  intros fr [-> Hfr]. revert fr Hfr.
  apply (hoare_for_each
           (fun ps => P (flat_map (group_visits glob pats) done ++
              flat_map (fun pattern => map (pair name) (glob pattern)) ps))).
  intros ps pattern prest _.
  eapply hoare_conseq with
    (P' := P ((flat_map (group_visits glob pats) done ++
              flat_map (fun pattern => map (pair name) (glob pattern)) ps) ++
              map (pair name) []))
    (Q' := fun _ => P ((flat_map (group_visits glob pats) done ++
              flat_map (fun pattern => map (pair name) (glob pattern)) ps) ++
              map (pair name) (glob pattern))).
  2:{ intros fr Hfr. simpl. by rewrite app_nil_r. }
  2:{ intros ? fr Hfr. rewrite flat_map_app. simpl.
      by rewrite app_nil_r, app_assoc. }
  apply (hoare_for_each
           (fun fs => P ((flat_map (group_visits glob pats) done ++
              flat_map (fun pattern => map (pair name) (glob pattern)) ps) ++
              map (pair name) fs))).
  intros fs f frest _.
  eapply hoare_conseq;
    [eapply (Hvisit _ name f), Hname | intros fr Hfr; exact Hfr |].
  intros ? fr Hfr. simpl in Hfr. by rewrite map_app, app_assoc.
Qed.

(** One turn of the innermost loop is one visit of the fold. *)
Lemma visit_taking (pats : dict str_or_list) (m0 : gmap string (list string))
    (changed0 : list string) (vs : list (string * string)) (name f : string) :
  name ∈ dict_keys pats ->
  hoare (taking pats m0 changed0 vs) (FileCollection.visit name f)
        (fun _ => taking pats m0 changed0 (vs ++ [(name, f)])).
Proof.
  intros Hname fr (Hco & Hp & Hk & changed & Hchanged & Hfold).
  unfold FileCollection.visit, bind, gets, FileCollection.local.
  rewrite Hco, Hchanged. simpl.
  destruct (str_in f changed) eqn:Hin; simpl.
  - destruct (Hk name) as [l Hl]; [by rewrite Hp|].
    unfold FileCollection.append. rewrite Hl. simpl.
    eexists _, tt. split; [reflexivity|].
    split; [done|]. split; [done|]. split.
    + intros k Hkin. simpl. destruct (decide (name = k)) as [->|Hne].
      * rewrite lookup_insert_eq. by eexists.
      * rewrite lookup_insert_ne by done. by apply Hk.
    + exists (list_remove f changed). split; [reflexivity|].
      rewrite changed_scan_snoc, <- Hfold. simpl. by rewrite Hin, Hl.
  - exists fr, tt. split; [reflexivity|].
    split; [done|]. split; [done|]. split; [done|].
    exists changed. split; [done|].
    rewrite changed_scan_snoc, <- Hfold. simpl. by rewrite Hin.
Qed.

(** When both git commands start, the resolution of the changed files
    returns, and its lists are those of the fold. *)
Lemma resolve_changed_scan (git : list string -> option CompletedProcess)
    (s : FileCollection.t) (committed uncommitted : CompletedProcess) :
  FileCollection.changed_only s = true -> keyed s ->
  git FileCollection.GIT_DIFF = Some committed ->
  git FileCollection.GIT_LS_FILES = Some uncommitted ->
  exists s' left,
    FileCollection.resolve glob git s = (s', Ok tt) /\
    (FileCollection.items s', left) =
      changed_scan ((fun _ => []) <$> FileCollection.items s)
                   (git_lines committed uncommitted)
                   (visits glob (FileCollection.patterns s)).
Proof.
  intros Hco Hk Hdiff Hls.
  pose (fr1 := {| FileCollection.self := FileCollection.reset s;
                  FileCollection.changed_files := Some (git_lines committed uncommitted);
                  FileCollection.combined := None |}).
  destruct (resolve_loop_fold (FileCollection.patterns s)
              (taking (FileCollection.patterns s)
                 ((fun _ => []) <$> FileCollection.items s)
                 (git_lines committed uncommitted))
              ltac:(by intros vs fr (_ & ? & _))
              ltac:(intros; by apply visit_taking) fr1)
    as (fr2 & [] & Hrun & Hfr2).
  { split; [done|]. split; [done|]. split; [by apply reset_keyed|]. by eexists. }
  destruct Hfr2 as (_ & _ & _ & left & _ & Hfold).
  exists (FileCollection.self fr2), left. split; [|done].
  assert (FileCollection.resolve_init git
            {| FileCollection.self := s; FileCollection.changed_files := None;
               FileCollection.combined := None |} = (fr1, Ok tt)) as Hinit.
  { unfold FileCollection.resolve_init, FileCollection.subprocess_run,
      bind, modify, gets. simpl. by rewrite Hco, Hdiff, Hls. }
  unfold FileCollection.resolve, FileCollection.resolve_frame, bind.
  by rewrite Hinit, Hrun.
Qed.

Lemma elem_of_visits (pats : dict str_or_list) (g f : string) :
  (g, f) ∈ visits glob pats <-> matched glob pats g f.
Proof.
  unfold visits. rewrite list_elem_of_In, in_flat_map. split.
  - intros (g0 & _ & Hin). by apply list_elem_of_In, elem_of_group_visits in Hin as [-> ?].
  - intros Hm. exists g. split.
    + destruct Hm as (v & _ & Hv & _). by apply list_elem_of_In, (dict_get_Some_key _ _ v).
    + by apply list_elem_of_In, elem_of_group_visits.
Qed.

Lemma lookup_empty_lists (m : gmap string (list string)) (k f : string) :
  f ∉ default [] (((fun _ => []) <$> m : gmap string (list string)) !! k).
Proof.
  rewrite lookup_fmap. destruct (m !! k); simpl; by intros ?%elem_of_nil.
Qed.

(** The visits split at the first visit of a file for the first name
    that matches it. *)
Lemma visits_split (pats : dict str_or_list) (before after : list string) (g f : string) :
  dict_keys pats = before ++ g :: after ->
  matched glob pats g f ->
  (forall g', g' ∈ before -> ~ matched glob pats g' f) ->
  exists v1 v2,
    visits glob pats = v1 ++ (g, f) :: v2 /\
    forall g', (g', f) ∈ v1 -> g' = g.
Proof.
  intros Hkeys Hg Hbefore.
  assert ((g, f) ∈ group_visits glob pats g) as Hin by by apply elem_of_group_visits.
  apply list_elem_of_split in Hin as (a & b & Hab).
  exists (flat_map (group_visits glob pats) before ++ a),
         (b ++ flat_map (group_visits glob pats) after).
  split.
  - unfold visits. rewrite Hkeys, flat_map_app. simpl. rewrite Hab.
    by rewrite <- !app_assoc.
  - intros g' [Hin|Hin]%elem_of_app.
    + apply list_elem_of_In, in_flat_map in Hin as (g0 & Hg0 & Hin).
      apply list_elem_of_In, elem_of_group_visits in Hin as [-> Hm].
      by destruct (Hbefore g0); [apply list_elem_of_In|].
    + assert ((g', f) ∈ group_visits glob pats g) as Hin'.
      { rewrite Hab. apply elem_of_app. by left. }
      by apply elem_of_group_visits in Hin' as [-> _].
Qed.

(** After a full scan the files in the lists are the files that the
    patterns expand to: a file is in the list of some name exactly if the
    patterns of some name expand to it, and a file in the list of a name
    is one that the patterns of that name expand to. *)
Theorem full_scan_lists_the_matches
    (git : list string -> option CompletedProcess) (s : FileCollection.t) (f : string) :
  FileCollection.changed_only s = false -> keyed s ->
  let s' := (FileCollection.resolve glob git s).1 in
  (forall G l, FileCollection.items s' !! G = Some l -> f ∈ l ->
     matched glob (FileCollection.patterns s) G f) /\
  ((exists G l, FileCollection.items s' !! G = Some l /\ f ∈ l) <->
   (exists G, matched glob (FileCollection.patterns s) G f)).
Proof.
  intros Hco Hk.
  destruct (resolve_full_scan glob git s Hco Hk) as (s' & seen & -> & Hfold). simpl.
  assert (forall G l, FileCollection.items s' !! G = Some l -> f ∈ l ->
            matched glob (FileCollection.patterns s) G f) as Hsound.
  { intros G l Hl Hin.
    destruct (fold_claim_sound (visits glob (FileCollection.patterns s))
                ((fun _ => []) <$> FileCollection.items s, []) G f) as [Hinit|Hv].
    - fold (full_scan ((fun _ => []) <$> FileCollection.items s)
              (visits glob (FileCollection.patterns s))).
      rewrite <- Hfold. simpl. by rewrite Hl.
    - by apply lookup_empty_lists in Hinit.
    - by apply elem_of_visits. }
  split; [done|]. split.
  - intros (G & l & Hl & Hin). exists G. by apply (Hsound G l).
  - intros (G & Hm%elem_of_visits).
    destruct (fold_claim_covers (visits glob (FileCollection.patterns s))
                ((fun _ => []) <$> FileCollection.items s, []) G f) as [k Hk'];
      [by intros x ?%elem_of_nil | done |].
    fold (full_scan ((fun _ => []) <$> FileCollection.items s)
            (visits glob (FileCollection.patterns s))) in Hk'.
    rewrite <- Hfold in Hk'. simpl in Hk'.
    apply default_lookup_elem in Hk' as (l & Hl & Hin). by exists k, l.
Qed.

(** *** The changed files *)

Lemma changed_only_sound
    (git : list string -> option CompletedProcess) (s : FileCollection.t)
    (committed uncommitted : CompletedProcess) (G f : string) (l : list string) :
  FileCollection.changed_only s = true -> keyed s ->
  git FileCollection.GIT_DIFF = Some committed ->
  git FileCollection.GIT_LS_FILES = Some uncommitted ->
  FileCollection.items (FileCollection.resolve glob git s).1 !! G = Some l ->
  f ∈ l ->
  matched glob (FileCollection.patterns s) G f /\ f ∈ git_lines committed uncommitted.
Proof.
  intros Hco Hk Hdiff Hls.
  destruct (resolve_changed_scan git s committed uncommitted Hco Hk Hdiff Hls)
    as (s' & left & -> & Hfold). simpl.
  intros Hl Hin.
  destruct (fold_take_sound (visits glob (FileCollection.patterns s))
              ((fun _ => []) <$> FileCollection.items s,
               git_lines committed uncommitted) G f) as [Hinit|[Hv Hch]].
  - fold (changed_scan ((fun _ => []) <$> FileCollection.items s)
            (git_lines committed uncommitted)
            (visits glob (FileCollection.patterns s))).
    rewrite <- Hfold. simpl. by rewrite Hl.
  - by apply lookup_empty_lists in Hinit.
  - split; [by apply elem_of_visits | done].
Qed.

(** After a resolution of the changed files, a file in the list of a name
    is one that the patterns of that name expand to and a line of the
    output of one of the two git commands. *)
Theorem changed_only_lists_changed_matches
    (git : list string -> option CompletedProcess) (s : FileCollection.t)
    (committed uncommitted : CompletedProcess) (G f : string) (l : list string) :
  FileCollection.changed_only s = true -> keyed s ->
  git FileCollection.GIT_DIFF = Some committed ->
  git FileCollection.GIT_LS_FILES = Some uncommitted ->
  FileCollection.items (FileCollection.resolve glob git s).1 !! G = Some l ->
  f ∈ l ->
  matched glob (FileCollection.patterns s) G f /\ f ∈ git_lines committed uncommitted.
Proof. apply changed_only_sound. Qed.

(** After a resolution of the changed files, a changed file is in the
    list of the first declared name whose patterns expand to it. *)
Theorem changed_only_first_group_takes
    (git : list string -> option CompletedProcess) (s : FileCollection.t)
    (committed uncommitted : CompletedProcess)
    (before after : list string) (g f : string) :
  FileCollection.changed_only s = true -> keyed s ->
  git FileCollection.GIT_DIFF = Some committed ->
  git FileCollection.GIT_LS_FILES = Some uncommitted ->
  f ∈ git_lines committed uncommitted ->
  dict_keys (FileCollection.patterns s) = before ++ g :: after ->
  matched glob (FileCollection.patterns s) g f ->
  (forall g', g' ∈ before -> ~ matched glob (FileCollection.patterns s) g' f) ->
  exists l, FileCollection.items (FileCollection.resolve glob git s).1 !! g = Some l /\
            f ∈ l.
Proof.
  intros Hco Hk Hdiff Hls Hchanged Hkeys Hg Hbefore.
  destruct (resolve_changed_scan git s committed uncommitted Hco Hk Hdiff Hls)
    as (s' & left & -> & Hfold). simpl.
  destruct (visits_split _ before after g f Hkeys Hg Hbefore) as (v1 & v2 & Hvs & Hfirst).
  pose proof (fold_take_first v1 v2 g f
                ((fun _ => []) <$> FileCollection.items s,
                 git_lines committed uncommitted) Hchanged Hfirst) as Hin.
  rewrite <- Hvs in Hin.
  fold (changed_scan ((fun _ => []) <$> FileCollection.items s)
          (git_lines committed uncommitted)
          (visits glob (FileCollection.patterns s))) in Hin.
  rewrite <- Hfold in Hin. simpl in Hin.
  by apply default_lookup_elem.
Qed.

(** After a resolution of the changed files, a path that the two git
    commands print at most once in all is at most once in a list, and in
    the list of at most one name. *)
Theorem changed_only_lists_once
    (git : list string -> option CompletedProcess) (s : FileCollection.t)
    (committed uncommitted : CompletedProcess) (f : string) :
  FileCollection.changed_only s = true -> keyed s ->
  git FileCollection.GIT_DIFF = Some committed ->
  git FileCollection.GIT_LS_FILES = Some uncommitted ->
  (occurrences f (git_lines committed uncommitted) <= 1)%nat ->
  let s' := (FileCollection.resolve glob git s).1 in
  (forall G l, FileCollection.items s' !! G = Some l -> (occurrences f l <= 1)%nat) /\
  (forall G1 G2 l1 l2, G1 <> G2 ->
     FileCollection.items s' !! G1 = Some l1 ->
     FileCollection.items s' !! G2 = Some l2 ->
     f ∈ l1 -> f ∉ l2).
Proof.
  intros Hco Hk Hdiff Hls Hocc.
  destruct (resolve_changed_scan git s committed uncommitted Hco Hk Hdiff Hls)
    as (s' & left & -> & Hfold). simpl.
  pose proof (fold_take_once f (visits glob (FileCollection.patterns s)) _
                (empty_lists_once f (FileCollection.items s) _ Hocc))
    as (_ & _ & Hone & Hapart).
  fold (changed_scan ((fun _ => []) <$> FileCollection.items s)
          (git_lines committed uncommitted)
          (visits glob (FileCollection.patterns s))) in Hone, Hapart.
  rewrite <- Hfold in Hone, Hapart. by split.
Qed.

(** When the two git commands print nothing and no pattern expands to the
    empty path, the resolution of the changed files leaves every list
    empty. *)
Theorem changed_only_nothing_changed
    (git : list string -> option CompletedProcess) (s : FileCollection.t)
    (committed uncommitted : CompletedProcess) (G : string) (l : list string) :
  FileCollection.changed_only s = true -> keyed s ->
  git FileCollection.GIT_DIFF = Some committed ->
  git FileCollection.GIT_LS_FILES = Some uncommitted ->
  stdout committed = "" -> stdout uncommitted = "" ->
  (forall pattern, "" ∉ glob pattern) ->
  FileCollection.items (FileCollection.resolve glob git s).1 !! G = Some l ->
  l = [].
Proof.
  intros Hco Hk Hdiff Hls Hc Hu Hglob Hl.
  destruct l as [|f l]; [done|]. exfalso.
  destruct (changed_only_sound git s committed uncommitted G f (f :: l)
              Hco Hk Hdiff Hls Hl) as [(v & pattern & _ & _ & Hf) Hin];
    [apply elem_of_cons; by left|].
  unfold git_lines in Hin. rewrite Hc, Hu in Hin. simpl in Hin.
  assert (f = "") as ->.
  { by repeat (apply elem_of_cons in Hin as [->|Hin]; [done|]); apply elem_of_nil in Hin. }
  by apply (Hglob pattern).
Qed.

(** *** What [resolve] leaves alone *)

(** The frames with given patterns, policy and keys. *)
#[local] Abbreviation framed pats co keys :=
  (fun fr : FileCollection.frame =>
     FileCollection.patterns (FileCollection.self fr) = pats /\
     FileCollection.changed_only (FileCollection.self fr) = co /\
     dom (FileCollection.items (FileCollection.self fr)) = keys).

Lemma append_framed (pats : dict str_or_list) (co : bool) (keys : gset string)
    (name f : string) :
  preserves (framed pats co keys) (FileCollection.append name f).
Proof.
  intros fr (Hp & Hco & Hdom). unfold FileCollection.append.
  destruct (FileCollection.items (FileCollection.self fr) !! name) as [l|] eqn:Hl;
    simpl; [|done].
  split; [done|]. split; [done|].
  rewrite dom_insert_L, <- Hdom.
  apply subseteq_union_1_L, singleton_subseteq_l, elem_of_dom. by eexists.
Qed.

Lemma visit_framed (pats : dict str_or_list) (co : bool) (keys : gset string)
    (name f : string) :
  preserves (framed pats co keys) (FileCollection.visit name f).
Proof.
  unfold FileCollection.visit.
  apply preserves_bind; [apply preserves_gets|]. intros [].
  - apply preserves_bind; [apply local_preserves|]. intros changed.
    destruct (str_in f changed); [|apply preserves_ret].
    apply preserves_bind; [apply append_framed|]. intros _. by apply preserves_modify.
  - apply preserves_bind; [apply local_preserves|]. intros seen.
    destruct (negb (str_in f seen)); [|apply preserves_ret].
    apply preserves_bind; [apply append_framed|]. intros _. by apply preserves_modify.
Qed.

(** However [resolve] ends, under either policy, the declared patterns,
    the policy and the set of keys of the collection are what they were. *)
Theorem resolve_keeps_declarations
    (git : list string -> option CompletedProcess) (s : FileCollection.t) :
  let s' := (FileCollection.resolve glob git s).1 in
  FileCollection.patterns s' = FileCollection.patterns s /\
  FileCollection.changed_only s' = FileCollection.changed_only s /\
  dom (FileCollection.items s') = dom (FileCollection.items s).
Proof.
  assert (preserves (framed (FileCollection.patterns s) (FileCollection.changed_only s)
                       (dom (FileCollection.items s)))
            (FileCollection.resolve_frame glob git)) as Hpres.
  { unfold FileCollection.resolve_frame, FileCollection.resolve_init,
      FileCollection.resolve_loop.
    apply preserves_bind.
    { apply preserves_bind.
      - apply preserves_modify. intros fr (Hp & Hco & Hdom). simpl.
        split; [done|]. split; [done|]. by rewrite dom_fmap_L.
      - intros _. apply preserves_bind; [apply preserves_gets|]. intros [].
        + unfold FileCollection.subprocess_run.
          apply preserves_bind.
          { destruct (git _); [apply preserves_ret | apply preserves_raise]. }
          intros committed. apply preserves_bind.
          { destruct (git _); [apply preserves_ret | apply preserves_raise]. }
          intros uncommitted.
          destruct (_ && _); [by apply preserves_modify | apply preserves_ret].
        + by apply preserves_modify. }
    intros _. apply preserves_bind; [apply preserves_gets|]. intros names.
    apply preserves_for_each. intros name.
    apply preserves_bind.
    { intros fr Hfr. unfold FileCollection.patterns_getitem. by destruct (dict_get _ _). }
    intros v. apply preserves_for_each. intros pattern.
    apply preserves_for_each. intros f. apply visit_framed. }
  specialize (Hpres {| FileCollection.self := s; FileCollection.changed_files := None;
                       FileCollection.combined := None |}).
  simpl. unfold FileCollection.resolve.
  destruct (FileCollection.resolve_frame glob git _) as [fr r]. simpl in *.
  by apply Hpres.
Qed.

(** *** The full scan *)

(** A full scan does not ask git: whatever git would answer, the outcome
    is the same. *)
Theorem full_scan_does_not_ask_git
    (git1 git2 : list string -> option CompletedProcess) (s : FileCollection.t) :
  FileCollection.changed_only s = false ->
  FileCollection.resolve glob git1 s = FileCollection.resolve glob git2 s.
Proof.
  intros Hco.
  assert (forall git,
            FileCollection.resolve_init git
              {| FileCollection.self := s; FileCollection.changed_files := None;
                 FileCollection.combined := None |} =
            ({| FileCollection.self := FileCollection.reset s;
                FileCollection.changed_files := None;
                FileCollection.combined := Some [] |}, Ok tt)) as Hinit.
  { intros git. unfold FileCollection.resolve_init, bind, modify, gets. simpl.
    by rewrite Hco. }
  unfold FileCollection.resolve, FileCollection.resolve_frame.
  by rewrite !bind_unfold, !Hinit.
Qed.

End Resolve.

Lemma full_scan_does_not_ask_git_witness :
  FileCollection.resolve Scenario.glob Scenario.git_failing (Scenario.collection false) =
  FileCollection.resolve Scenario.glob Scenario.git_twice (Scenario.collection false).
Proof. apply full_scan_does_not_ask_git. reflexivity. Defined.

#[local] Abbreviation resolved git co :=
  (FileCollection.resolve Scenario.glob git (Scenario.collection co)).1.

(** The theorem on the scenario: [b.py] is in a list. *)
Lemma full_scan_lists_the_matches_witness :
  exists G l, FileCollection.items (resolved Scenario.git_clean false) !! G = Some l /\
              "b.py" ∈ l.
Proof.
  apply (full_scan_lists_the_matches Scenario.glob Scenario.git_clean
           (Scenario.collection false) "b.py" eq_refl (init_keyed _ _)).
  exists "python", (StrList ["src/*.py"; "**/*.py"]), "**/*.py".
  split; [reflexivity|]. split.
  - apply elem_of_cons. right. apply elem_of_cons. by left.
  - apply elem_of_cons. by left.
Defined.

(** The theorem on the scenario, for [src/a.py] in the list of [python]. *)
Lemma changed_only_lists_changed_matches_witness :
  matched Scenario.glob (FileCollection.patterns (Scenario.collection true))
    "python" "src/a.py" /\
  "src/a.py" ∈ git_lines {| returncode := 0; stdout := "src/a.py" +:+ String NL "" |}
                         {| returncode := 0; stdout := "b.py" +:+ String NL "" |}.
Proof.
  apply (changed_only_lists_changed_matches Scenario.glob Scenario.git_changed
           (Scenario.collection true) _ _ "python" "src/a.py" ["src/a.py"; "b.py"]).
  - reflexivity.
  - apply init_keyed.
  - reflexivity.
  - reflexivity.
  - vm_compute. reflexivity.
  - apply elem_of_cons. by left.
Defined.

(** The theorem on the scenario: the untracked [b.py] goes to [python]. *)
Lemma changed_only_first_group_takes_witness :
  exists l, FileCollection.items (resolved Scenario.git_changed true) !! "python" = Some l /\
            "b.py" ∈ l.
Proof.
  apply (changed_only_first_group_takes Scenario.glob Scenario.git_changed
           (Scenario.collection true)
           {| returncode := 0; stdout := "src/a.py" +:+ String NL "" |}
           {| returncode := 0; stdout := "b.py" +:+ String NL "" |}
           [] ["all"; "xml"] "python" "b.py").
  - reflexivity.
  - apply init_keyed.
  - reflexivity.
  - reflexivity.
  - change ("b.py" ∈ ["src/a.py"; ""; "b.py"; ""]).
    apply elem_of_cons. right. apply elem_of_cons. right. apply elem_of_cons. by left.
  - reflexivity.
  - exists (StrList ["src/*.py"; "**/*.py"]), "**/*.py".
    split; [reflexivity|]. split.
    + apply elem_of_cons. right. apply elem_of_cons. by left.
    + apply elem_of_cons. by left.
  - by intros g' ?%elem_of_nil.
Defined.

(** The theorem on the scenario, for [b.py]. *)
Lemma changed_only_lists_once_witness :
  (occurrences "b.py" ["src/a.py"; "b.py"] <= 1)%nat.
Proof.
  refine (proj1 (changed_only_lists_once Scenario.glob Scenario.git_changed
                   (Scenario.collection true)
                   {| returncode := 0; stdout := "src/a.py" +:+ String NL "" |}
                   {| returncode := 0; stdout := "b.py" +:+ String NL "" |}
                   "b.py" eq_refl (init_keyed _ _) eq_refl eq_refl _) "python" _ _).
  - vm_compute. lia.
  - vm_compute. reflexivity.
Defined.

(** The theorem on the scenario: git reports no change. *)
Lemma changed_only_nothing_changed_witness :
  FileCollection.items (resolved Scenario.git_clean true) !! "python" = Some [].
Proof.
  destruct (FileCollection.items (resolved Scenario.git_clean true) !! "python")
    as [l|] eqn:Hl; [|vm_compute in Hl; discriminate Hl].
  f_equal.
  apply (changed_only_nothing_changed Scenario.glob Scenario.git_clean
           (Scenario.collection true) {| returncode := 0; stdout := "" |}
           {| returncode := 0; stdout := "" |} "python" l);
    try reflexivity; [apply init_keyed | | exact Hl].
  intros pattern. unfold Scenario.glob.
  repeat (destruct (String.eqb pattern _));
    intros H; repeat (apply elem_of_cons in H as [H|H]; [discriminate H|]);
    by apply elem_of_nil in H.
Defined.

(** The full scan of the scenario: the list of [python]. *)
Lemma full_scan_lists_nodup_witness : NoDup ["src/a.py"; "b.py"].
Proof.
  apply (full_scan_lists_nodup Scenario.glob Scenario.git_clean
           (Scenario.collection false) "python").
  - reflexivity.
  - apply init_keyed.
  - vm_compute. reflexivity.
Defined.

(** The resolution of the changed files without git. *)
Lemma changed_only_raises_without_git_witness :
  (FileCollection.resolve Scenario.glob (fun _ => None) (Scenario.collection true)).2 =
  Raise (FileNotFoundError "git").
Proof.
  rewrite (changed_only_raises_without_git Scenario.glob (fun _ => None)
             (Scenario.collection true)); reflexivity.
Defined.

End FileCollectionMore.

(** ** Printer: more on the translation *)

Module PrinterMore.
Import Spec ProgFacts PrinterFacts.

#[local] Arguments Printer.sub_color : simpl never.
#[local] Arguments Printer.sub_reset : simpl never.




(** A line without escape character is sent as it is, between the
    opening and the closing span. *)
Theorem plain_line_is_sent_unchanged (message : string) :
  plain message = true ->
  Printer.html_msg message = SPAN_OPEN +:+ message +:+ SPAN_CLOSE.
Proof. intros H. unfold Printer.html_msg. by rewrite translate_plain. Qed.

Lemma plain_line_is_sent_unchanged_witness :
  Printer.html_msg "Nothing to check, skipping" =
  SPAN_OPEN +:+ "Nothing to check, skipping" +:+ SPAN_CLOSE.
Proof. apply plain_line_is_sent_unchanged. reflexivity. Defined.

(** *** No reset code is left *)

Lemma has_reset_plain_app (t x : string) :
  plain t = true -> has_reset (t +:+ x) = has_reset x.
Proof.
  induction t as [|c t IH]; [done|]. simpl plain.
  intros [Hc Ht]%andb_prop. apply negb_true_iff in Hc.
  change (String c t +:+ x) with (String c (t +:+ x)).
  cbn [has_reset]. rewrite reset_head_not_esc by done. by apply IH.
Qed.

Lemma has_reset_app_plain (x : string) (c : ascii) (z : string) :
  Ascii.eqb c "[" = false -> Ascii.eqb c "0" = false -> Ascii.eqb c "m" = false ->
  plain (String c z) = true ->
  has_reset (x +:+ String c z) = has_reset x.
Proof.
  intros H1 H2 H3 Hplain. induction x as [|c0 p IH].
  - rewrite <- (append_nil_r (String c z)). change ("" +:+ ?s) with s.
    by rewrite has_reset_plain_app.
  - change ((String c0 p) +:+ String c z) with (String c0 (p +:+ String c z)).
    cbn [has_reset].
    change (String c0 (p +:+ String c z)) with (String c0 p +:+ String c z).
    rewrite reset_head_app by done.
    destruct (reset_head (String c0 p)); [done | apply IH].
Qed.

Lemma reset_head_second (c0 c1 : ascii) (x : string) :
  Ascii.eqb c1 "[" = false -> reset_head (String c0 (String c1 x)) = None.
Proof.
  intros H. destruct x as [|x0 [|x1 x]]; try reflexivity.
  simpl. unfold Printer.is_reset_code. rewrite H. by destruct (Ascii.eqb c0 ESC).
Qed.

Lemma reset_head_third (c0 c1 c2 : ascii) (x : string) :
  Ascii.eqb c2 "0" = false -> reset_head (String c0 (String c1 (String c2 x))) = None.
Proof.
  intros H. destruct x as [|x1 x]; try reflexivity.
  simpl. unfold Printer.is_reset_code. rewrite H.
  by destruct (Ascii.eqb c0 ESC), (Ascii.eqb c1 "[").
Qed.

Lemma reset_head_fourth (c0 c1 c2 c3 : ascii) (x : string) :
  Ascii.eqb c3 "m" = false ->
  reset_head (String c0 (String c1 (String c2 (String c3 x)))) = None.
Proof.
  intros H. simpl. unfold Printer.is_reset_code. rewrite H.
  by destruct (Ascii.eqb c0 ESC), (Ascii.eqb c1 "["), (Ascii.eqb c2 "0").
Qed.

(** How the result of the second substitution starts. *)
Lemma sub_reset_cases (s : string) :
  s = "" /\ Printer.sub_reset s = "" \/
  (exists x, Printer.sub_reset s = String "<" (String "/" (String "s" x))) \/
  (exists c s', s = String c s' /\ reset_head s = None /\
                Printer.sub_reset s = String c (Printer.sub_reset s')).
Proof.
  rewrite sub_reset_unfold. destruct (reset_head s) as [rest|] eqn:Hh.
  - right. left. by eexists.
  - destruct s as [|c s']; [by left|]. right. right. by exists c, s'.
Qed.

(** A character that starts no reset code in the text starts none in the
    result either. *)
Lemma reset_head_sub_reset (c : ascii) (s : string) :
  reset_head (String c s) = None ->
  reset_head (String c (Printer.sub_reset s)) = None.
Proof.
  intros Hnone.
  destruct (sub_reset_cases s) as [[-> ->]|[[x ->]|(c1 & s1 & -> & Hh1 & ->)]];
    [done | by apply reset_head_second |].
  destruct (Ascii.eqb c1 "[") eqn:Hc1; [|by apply reset_head_second].
  destruct (sub_reset_cases s1) as [[-> ->]|[[x ->]|(c2 & s2 & -> & Hh2 & ->)]];
    [done | by apply reset_head_third |].
  destruct (Ascii.eqb c2 "0") eqn:Hc2; [|by apply reset_head_third].
  destruct (sub_reset_cases s2) as [[-> ->]|[[x ->]|(c3 & s3 & -> & Hh3 & ->)]];
    [done | by apply reset_head_fourth |].
  destruct (Ascii.eqb c3 "m") eqn:Hc3; [|by apply reset_head_fourth].
  destruct (Ascii.eqb c ESC) eqn:Hc; [|by apply reset_head_not_esc].
  simpl in Hnone. unfold Printer.is_reset_code in Hnone.
  by rewrite Hc, Hc1, Hc2, Hc3 in Hnone.
Qed.

Lemma sub_reset_has_no_reset (s : string) : has_reset (Printer.sub_reset s) = false.
Proof.
  remember (String.length s) as n eqn:Hn.
  revert s Hn. induction n as [n IH] using lt_wf_ind. intros s Hn.
  rewrite sub_reset_unfold. destruct (reset_head s) as [rest|] eqn:Hh.
  - apply reset_head_length in Hh.
    rewrite has_reset_plain_app by reflexivity.
    apply (IH (String.length rest)); [lia | reflexivity].
  - destruct s as [|c s']; [reflexivity|].
    cbn [has_reset]. rewrite reset_head_sub_reset by done.
    apply (IH (String.length s')); [simpl in Hn; lia | reflexivity].
Qed.

(** Whatever the line, no reset code [ESC[0m] is left in what is sent
    over the socket. *)
Theorem sent_markup_has_no_reset_code (message : string) :
  has_reset (Printer.html_msg message) = false.
Proof.
  unfold Printer.html_msg.
  rewrite has_reset_plain_app by reflexivity.
  change "</span>" with (String "<" "/span>").
  rewrite has_reset_app_plain by reflexivity.
  apply sub_reset_has_no_reset.
Qed.

End PrinterMore.

(** ** QAServer: the names of the steps in the form *)

Module QAServerFacts.
Import Spec ProgFacts PrinterFacts.

Lemma remove_step_unfold (s : string) :
  QAServer.remove_step_ s =
  match step_head s with
  | Some rest => QAServer.remove_step_ rest
  | None =>
      match s with
      | String c s' => String c (QAServer.remove_step_ s')
      | EmptyString => EmptyString
      end
  end.
Proof.
  destruct s as [|c0 [|c1 [|c2 [|c3 [|c4 rest]]]]]; try reflexivity.
  simpl. destruct (QAServer.is_step_ c0 c1 c2 c3 c4); reflexivity.
Qed.

#[local] Arguments QAServer.remove_step_ : simpl never.

Lemma step_head_length (s rest : string) :
  step_head s = Some rest -> String.length s = (5 + String.length rest)%nat.
Proof.
  destruct s as [|c0 [|c1 [|c2 [|c3 [|c4 r]]]]]; simpl; try discriminate.
  destruct (QAServer.is_step_ _ _ _ _ _); [|discriminate]. by intros [= <-].
Qed.

Lemma remove_step_length (s : string) :
  (String.length (QAServer.remove_step_ s) <= String.length s)%nat /\
  (has_step_ s = true ->
   (String.length (QAServer.remove_step_ s) < String.length s)%nat).
Proof.
  remember (String.length s) as n eqn:Hn.
  revert s Hn. induction n as [n IH] using lt_wf_ind. intros s Hn.
  rewrite remove_step_unfold. destruct (step_head s) as [rest|] eqn:Hh.
  - apply step_head_length in Hh.
    destruct (IH (String.length rest) ltac:(lia) rest eq_refl) as [Hle _].
    split; [lia | intros _; lia].
  - destruct s as [|c s']; [split; [simpl; lia | discriminate]|].
    destruct (IH (String.length s') ltac:(simpl in Hn; lia) s' eq_refl) as [Hle Hlt].
    cbn [has_step_]. rewrite Hh. simpl in *. split; [lia|].
    intros Hs. specialize (Hlt Hs). lia.
Qed.

Lemma remove_step_none (s : string) :
  has_step_ s = false -> QAServer.remove_step_ s = s.
Proof.
  induction s as [|c s IH]; [done|].
  cbn [has_step_]. rewrite remove_step_unfold.
  destruct (step_head (String c s)); [discriminate|].
  intros Hs. by rewrite IH.
Qed.

Lemma remove_step_checkbox (step : string) :
  QAServer.remove_step_ (QAServer.checkbox_name step) = QAServer.remove_step_ step.
Proof. by rewrite remove_step_unfold. Qed.

(** The name of a step comes back from the name of its checkbox exactly
    when [step_] does not occur in it. *)
Theorem step_name_round_trip (step : string) :
  QAServer.remove_step_ (QAServer.checkbox_name step) = step <->
  has_step_ step = false.
Proof.
  rewrite remove_step_checkbox.
  split.
  - intros Heq. destruct (has_step_ step) eqn:Hs; [|done].
    destruct (remove_step_length step) as [_ Hlt]. specialize (Hlt Hs).
    rewrite Heq in Hlt. lia.
  - apply remove_step_none.
Qed.

(** The steps of a form, whatever the order of its fields: the fields
    whose name does not start with [step_] are passed over, and the
    checked steps come back in the order of the form when [step_] occurs
    in none of their names. *)
Theorem posted_steps_are_the_checked_steps
    (form : list field) (ws : Printer.Socket)
    (st : StepExecutor.t * StepExecutor.World) :
  (forall key value, Other key value ∈ form -> QAServer.startswith_step key = false) ->
  (forall step value, Checked step value ∈ form -> has_step_ step = false) ->
  (QAServer._handlePost (posted form) ws st).2 = checked form.
Proof.
  intros Hother Hsteps. unfold QAServer._handlePost. destruct st as [executor w].
  cbn [snd]. induction form as [|[step value|key value] form IH]; [done| |].
  - cbn [posted map QAServer.posted_steps checked].
    assert (QAServer.startswith_step (QAServer.checkbox_name step) = true) as ->.
    { unfold QAServer.startswith_step, QAServer.checkbox_name. simpl.
      by destruct step. }
    rewrite remove_step_checkbox, remove_step_none
      by (apply (Hsteps step value), elem_of_cons; by left).
    f_equal. apply IH.
    + intros k v Hkv. apply (Hother k v), elem_of_cons. by right.
    + intros s v Hs. apply (Hsteps s v), elem_of_cons. by right.
  - cbn [posted map QAServer.posted_steps checked].
    rewrite (Hother key value) by (apply elem_of_cons; by left).
    apply IH.
    + intros k v Hkv. apply (Hother k v), elem_of_cons. by right.
    + intros s v Hs. apply (Hsteps s v), elem_of_cons. by right.
Qed.

(** The theorem at a form with a checked step before the other fields
    and another after them. *)
Lemma posted_steps_are_the_checked_steps_witness :
  (QAServer._handlePost
     [("step_lint", "on"); ("debug", "on"); ("check_what", "changed"); ("step_docs", "on")]
     {| Printer.closed := false; Printer.sent := [] |}
     (Scenario.executor, Scenario.world)).2
  = ["lint"; "docs"].
Proof.
  apply (posted_steps_are_the_checked_steps
           [Checked "lint" "on"; Other "debug" "on"; Other "check_what" "changed";
            Checked "docs" "on"]).
  - intros key value H.
    repeat (apply elem_of_cons in H as [H|H]; [by (discriminate H || injection H as -> ->)|]).
    by apply elem_of_nil in H.
  - intros step value H.
    repeat (apply elem_of_cons in H as [H|H]; [by (discriminate H || injection H as -> ->)|]).
    by apply elem_of_nil in H.
Defined.

(** A step whose name holds [step_] comes back from the form under
    another name. *)
Lemma step_name_with_step_is_lost :
  QAServer.posted_steps [(QAServer.checkbox_name "pre_step_check", "on")] = ["pre_check"].
Proof. reflexivity. Qed.

End QAServerFacts.

(** ** StepExecutor: more on the run *)

Module StepExecutorMore.
Import Spec ProgFacts StepExecutorFacts.

(** *** The lines of a process *)

Lemma stdout_write_lines (lines : list string) (p : Printer.t) :
  Printer.stdout (write_lines lines p) = Printer.stdout p ++ lines.
Proof.
  revert p. induction lines as [|line lines IH]; intros p; simpl.
  - by rewrite app_nil_r.
  - unfold write_lines in *. simpl. rewrite IH, stdout_write.
    by rewrite <- app_assoc.
Qed.

Lemma socket_write_lines_open (lines : list string) (p : Printer.t) (s : Printer.Socket) :
  Printer.socket p = Some s -> Printer.closed s = false ->
  Printer.socket (write_lines lines p) =
  Some {| Printer.closed := false;
          Printer.sent := Printer.sent s ++
                          map (fun line => Printer.OutputMsg (Printer.html_msg line)) lines |}.
Proof.
  revert p s. induction lines as [|line lines IH]; intros p s Hs Hc; simpl.
  - rewrite app_nil_r, Hs. destruct s. simpl in Hc. by subst.
  - unfold write_lines in *. simpl.
    rewrite (IH _ (Printer.send_json (Printer.OutputMsg (Printer.html_msg line)) s)).
    + simpl. by rewrite <- app_assoc.
    + unfold Printer.write. by rewrite Hs, Hc.
    + done.
Qed.

Lemma socket_write_lines_quiet (lines : list string) (p : Printer.t) :
  Printer.socket p = None \/
  (exists s, Printer.socket p = Some s /\ Printer.closed s = true) ->
  Printer.socket (write_lines lines p) = Printer.socket p.
Proof.
  revert p. induction lines as [|line lines IH]; intros p Hp; [done|].
  unfold write_lines in *. simpl.
  assert (Printer.socket (Printer.write line p) = Printer.socket p) as Hsame.
  { unfold Printer.write. destruct Hp as [Hn|(s & Hs & Hc)].
    - by rewrite Hn.
    - by rewrite Hs, Hc. }
  rewrite IH; [done|]. by rewrite Hsame.
Qed.

Section Run.
Variable glob : gset string -> string -> list string.
Variable git : gset string -> list string -> option CompletedProcess.
Variable process : StepExecutor.command -> gset string -> option StepExecutor.ProcessRun.
Variable mkstemp_path : gset string -> string -> string.

#[local] Abbreviation execute_step := (StepExecutor.execute_step process mkstemp_path).
#[local] Abbreviation execute_steps := (StepExecutor.execute_steps process mkstemp_path).
#[local] Abbreviation execute_loop := (StepExecutor.execute_loop glob git process mkstemp_path).
#[local] Abbreviation execute := (StepExecutor.execute glob git process mkstemp_path).
#[local] Abbreviation _runValidator := (StepExecutor._runValidator process mkstemp_path).
#[local] Abbreviation _runExternalCommand := (StepExecutor._runExternalCommand process).
#[local] Abbreviation _popen := (StepExecutor._popen process).
#[local] Abbreviation header step_name :=
  (String ESC "[1;37m+++ " +:+ step_name +:+ String ESC "[0m").

(** When the program starts, [_popen] returns its exit status, has
    logged the command, has printed its lines in order, and has sent the
    markup of each line in order over a socket that is set and open; with
    no socket, or a closed one, nothing is sent. *)
Theorem popen_streams_the_lines
    (c : StepExecutor.command) (w : StepExecutor.World) (run : StepExecutor.ProcessRun) :
  process c (StepExecutor.files w) = Some run ->
  let w' := (_popen c w).1 in
  (_popen c w).2 = Ok (StepExecutor.exit_status run) /\
  StepExecutor.popen_log w' = StepExecutor.popen_log w ++ [c] /\
  Printer.stdout (StepExecutor.printer w') =
    Printer.stdout (StepExecutor.printer w) ++ StepExecutor.output run /\
  (forall s, Printer.socket (StepExecutor.printer w) = Some s ->
     Printer.closed s = false ->
     Printer.socket (StepExecutor.printer w') =
     Some {| Printer.closed := false;
             Printer.sent :=
               Printer.sent s ++
               map (fun line => Printer.OutputMsg (Printer.html_msg line))
                   (StepExecutor.output run) |}) /\
  (Printer.socket (StepExecutor.printer w) = None \/
   (exists s, Printer.socket (StepExecutor.printer w) = Some s /\
              Printer.closed s = true) ->
   Printer.socket (StepExecutor.printer w') = Printer.socket (StepExecutor.printer w)).
Proof.
  intros Hrun. rewrite popen_run, Hrun. simpl.
  split; [done|]. split; [done|]. split; [apply stdout_write_lines|]. split.
  - intros s Hs Hc. by apply socket_write_lines_open.
  - apply socket_write_lines_quiet.
Qed.

(** *** One turn of the loop *)

(** One turn of the loop, step by step. *)
Lemma execute_step_run (self : StepExecutor.t) (step_name : string) (b : bool)
    (w : StepExecutor.World) :
  execute_step self step_name b w =
  match StepExecutor.steps_getitem self step_name w with
  | (_, Raise e) => (w, Raise e)
  | (_, Ok step) =>
      let w1 := StepExecutor.set_printer (Printer.write (header step_name)) w in
      match (StepExecutor.step_files step w).2 with
      | Raise e => (w1, Raise e)
      | Ok files =>
          if (length files =? 0)%nat
          then (StepExecutor.set_printer (Printer.write "Nothing to check, skipping") w1,
                Ok (StepExecutor.Return (PyBool true)))
          else
            match step_profile step, step_script step with
            | Some profile, _ =>
                match _runValidator self profile files w1 with
                | (w2, Ok r) => (w2, Ok (StepExecutor.Next (b && r)))
                | (w2, Raise e) => (w2, Raise e)
                end
            | None, Some script =>
                match _runExternalCommand self script files w1 with
                | (w2, Ok r) => (w2, Ok (StepExecutor.Next (b && r)))
                | (w2, Raise e) => (w2, Raise e)
                end
            | None, None => (w1, Ok (StepExecutor.Next b))
            end
      end
  end.
Proof.
  unfold StepExecutor.execute_step. rewrite bind_unfold.
  unfold StepExecutor.steps_getitem.
  destruct (StepExecutor.steps self) as [d|]; [|done].
  destruct (dict_get d step_name) as [step|]; [|done].
  unfold ret. cbv beta iota. rewrite bind_unfold.
  unfold StepExecutor.printer_write at 1, modify at 1. rewrite bind_unfold.
  destruct (step_files_reads (Printer.write (header step_name)) step w)
    as (r & Hr1 & Hr2).
  rewrite Hr1, Hr2. simpl. destruct r as [files|e]; [|done].
  destruct (length files =? 0)%nat; [done|].
  destruct (step_profile step) as [profile|].
  - rewrite bind_unfold. by destruct (_runValidator self profile files _) as [w2 [r|e]].
  - destruct (step_script step) as [script|]; [|done].
    rewrite bind_unfold.
    by destruct (_runExternalCommand self script files _) as [w2 [r|e]].
Qed.

(** [execute] up to the end of its loop: the environment is set, the
    files are resolved, and the loop is run if the resolution returns. *)
Lemma execute_loop_run (self : StepExecutor.t) (step_names : list string)
    (w : StepExecutor.World) :
  execute_loop self step_names w =
  let w_env :=
    StepExecutor.set_environ
      <["changed_only" :=
          if FileCollection.changed_only (StepExecutor.file_collection w)
          then "1" else "0"]>
      (StepExecutor.set_environ
         <["debug" := if StepExecutor.debug self then "1" else "0"]> w) in
  match StepExecutor.resolve glob git w_env with
  | (w3, Ok _) => execute_steps self step_names true w3
  | (w3, Raise e) => (w3, Raise e)
  end.
Proof. reflexivity. Qed.

(** *** What [execute] returns *)

Lemma execute_step_return (self : StepExecutor.t) (step_name : string) (b : bool)
    (w w' : StepExecutor.World) (v : py_value) :
  execute_step self step_name b w = (w', Ok (StepExecutor.Return v)) ->
  v = PyBool true /\
  last (Printer.stdout (StepExecutor.printer w')) = Some "Nothing to check, skipping".
Proof.
  rewrite execute_step_run.
  destruct (StepExecutor.steps_getitem self step_name w) as [w0 [step|e]]; [|done].
  cbv zeta. destruct (StepExecutor.step_files step w).2 as [files|e]; [|done].
  destruct (length files =? 0)%nat.
  - intros [= <- <-]. split; [done|]. simpl. by rewrite stdout_write, last_snoc.
  - destruct (step_profile step) as [profile|].
    + by destruct (_runValidator self profile files _) as [w2 [r|e]].
    + destruct (step_script step) as [script|]; [|done].
      by destruct (_runExternalCommand self script files _) as [w2 [r|e]].
Qed.

Lemma execute_steps_return (self : StepExecutor.t) (step_names : list string) (b : bool)
    (w w' : StepExecutor.World) (v : py_value) :
  execute_steps self step_names b w = (w', Ok (StepExecutor.Return v)) ->
  v = PyBool true /\
  last (Printer.stdout (StepExecutor.printer w')) = Some "Nothing to check, skipping".
Proof.
  revert b w. induction step_names as [|name rest IH]; intros b w; simpl; [done|].
  rewrite bind_unfold.
  destruct (execute_step self name b w) as [w1 [[b1|v1]|e]] eqn:Hstep; [apply IH | | done].
  intros [= <- <-]. by apply (execute_step_return self name b w).
Qed.

(** When [execute] returns, it returns [None], and the last line printed
    is one of the two summaries, or it returns [True], and the last line
    printed is [Nothing to check, skipping]: it never returns [False]. *)
Theorem execute_never_returns_False
    (self : StepExecutor.t) (step_names : list string)
    (w w' : StepExecutor.World) (v : py_value) :
  execute self step_names w = (w', Ok v) ->
  (v = PyNone /\
   exists b, last (Printer.stdout (StepExecutor.printer w')) =
             Some (StepExecutor.SUMMARY b)) \/
  (v = PyBool true /\
   last (Printer.stdout (StepExecutor.printer w')) = Some "Nothing to check, skipping").
Proof.
  unfold StepExecutor.execute. rewrite bind_unfold.
  destruct (execute_loop self step_names w) as [w1 [[b|v1]|e]] eqn:Hloop; [| |done].
  - intros [= <- <-]. left. split; [done|]. exists b. simpl.
    by rewrite stdout_write, last_snoc.
  - intros [= <- <-]. right.
    rewrite execute_loop_run in Hloop. cbv zeta in Hloop.
    destruct (StepExecutor.resolve glob git _) as [w3 [[]|e]]; [|done].
    by apply (execute_steps_return self step_names true w3).
Qed.

(** *** The aggregate *)

(** The aggregate enters a turn of the loop as a conjunct only: what the
    turn does is what it does from [True]. *)
Lemma execute_step_aggregate (self : StepExecutor.t) (step_name : string) (b : bool)
    (w : StepExecutor.World) :
  execute_step self step_name b w =
  match execute_step self step_name true w with
  | (w', Ok (StepExecutor.Next r)) => (w', Ok (StepExecutor.Next (b && r)))
  | other => other
  end.
Proof.
  rewrite !execute_step_run.
  destruct (StepExecutor.steps_getitem self step_name w) as [w0 [step|e]]; [|done].
  cbv zeta. destruct (StepExecutor.step_files step w).2 as [files|e]; [|done].
  destruct (length files =? 0)%nat; [done|].
  destruct (step_profile step) as [profile|].
  - by destruct (_runValidator self profile files _) as [w2 [r|e]].
  - destruct (step_script step) as [script|]; [|by rewrite andb_true_r].
    by destruct (_runExternalCommand self script files _) as [w2 [r|e]].
Qed.

Lemma execute_steps_aggregate (self : StepExecutor.t) (step_names : list string)
    (b : bool) (w : StepExecutor.World) :
  execute_steps self step_names b w =
  match execute_steps self step_names true w with
  | (w', Ok (StepExecutor.Next r)) => (w', Ok (StepExecutor.Next (b && r)))
  | other => other
  end.
Proof.
  revert b w. induction step_names as [|name rest IH]; intros b w; simpl.
  - unfold ret. by rewrite andb_true_r.
  - rewrite !bind_unfold, (execute_step_aggregate self name b).
    destruct (execute_step self name true w) as [w1 [[r1|v1]|e]]; [|done|done].
    rewrite (IH (b && r1)), (IH r1).
    destruct (execute_steps self rest true w1) as [w2 [[r2|v2]|e]]; [|done|done].
    by rewrite andb_assoc.
Qed.

(** The aggregate of a run over [before ++ after] is the conjunction of
    the aggregate of the run over [before] and of that of the run over
    [after] from where the first run ends. *)
Theorem aggregate_is_the_conjunction
    (self : StepExecutor.t) (before after : list string) (r1 r2 : bool)
    (w w1 w2 : StepExecutor.World) :
  execute_steps self before true w = (w1, Ok (StepExecutor.Next r1)) ->
  execute_steps self after true w1 = (w2, Ok (StepExecutor.Next r2)) ->
  execute_steps self (before ++ after) true w = (w2, Ok (StepExecutor.Next (r1 && r2))).
Proof.
  intros Hbefore Hafter.
  rewrite execute_steps_app, Hbefore, execute_steps_aggregate. by rewrite Hafter.
Qed.

(** A step that has failed stops nothing: from the aggregate [False] the
    loop runs as it does from [True], and ends with [False] where that
    ends with an aggregate. *)
Theorem failed_step_stops_nothing
    (self : StepExecutor.t) (step_names : list string) (w : StepExecutor.World) :
  execute_steps self step_names false w =
  match execute_steps self step_names true w with
  | (w', Ok (StepExecutor.Next _)) => (w', Ok (StepExecutor.Next false))
  | other => other
  end.
Proof. apply execute_steps_aggregate. Qed.

(** *** What the steps leave alone *)

(** The worlds with a given file collection and environment. *)
#[local] Abbreviation settled fc env :=
  (fun w : StepExecutor.World =>
     StepExecutor.file_collection w = fc /\ StepExecutor.environ w = env).

Lemma popen_settled (fc : FileCollection.t) (env : gmap string string)
    (c : StepExecutor.command) :
  preserves (settled fc env) (_popen c).
Proof.
  intros w Hw. rewrite popen_run.
  by destruct (process c (StepExecutor.files w)).
Qed.

Lemma runValidator_settled (fc : FileCollection.t) (env : gmap string string)
    (self : StepExecutor.t) (profile : string) (files : list string) :
  preserves (settled fc env) (_runValidator self profile files).
Proof.
  unfold StepExecutor._runValidator.
  apply preserves_bind; [by intros w Hw|]. intros out_file.
  apply preserves_bind; [apply popen_settled|]. intros result_validator.
  apply preserves_bind.
  - destruct (truthy_int result_validator).
    + apply preserves_bind; [apply popen_settled | intros ?; apply preserves_ret].
    + destruct (negb (StepExecutor.debug self)); [|apply preserves_ret].
      apply preserves_bind; [by apply preserves_modify | intros ?; apply preserves_ret].
  - intros success. apply preserves_bind; [|intros ?; apply preserves_ret].
    intros w Hw. unfold StepExecutor.os_unlink. by destruct (bool_decide _).
Qed.

Lemma execute_step_settled (fc : FileCollection.t) (env : gmap string string)
    (self : StepExecutor.t) (step_name : string) (b : bool) :
  preserves (settled fc env) (execute_step self step_name b).
Proof.
  intros w Hw. rewrite execute_step_run.
  destruct (StepExecutor.steps_getitem self step_name w) as [w0 [step|e]]; [|done].
  cbv zeta. destruct (StepExecutor.step_files step w).2 as [files|e]; [|done].
  destruct (length files =? 0)%nat; [done|].
  destruct (step_profile step) as [profile|].
  - pose proof (runValidator_settled fc env self profile files
                  (StepExecutor.set_printer (Printer.write (header step_name)) w) Hw).
    by destruct (_runValidator self profile files _) as [w2 [r|e]].
  - destruct (step_script step) as [script|]; [|done].
    assert (preserves (settled fc env) (_runExternalCommand self script files)) as Hpres.
    { unfold StepExecutor._runExternalCommand.
      apply preserves_bind; [apply popen_settled | intros ?; apply preserves_ret]. }
    specialize (Hpres (StepExecutor.set_printer (Printer.write (header step_name)) w) Hw).
    by destruct (_runExternalCommand self script files _) as [w2 [r|e]].
Qed.

Lemma execute_steps_settled (fc : FileCollection.t) (env : gmap string string)
    (self : StepExecutor.t) (step_names : list string) (b : bool) :
  preserves (settled fc env) (execute_steps self step_names b).
Proof.
  revert b. induction step_names as [|name rest IH]; intros b; simpl.
  - apply preserves_ret.
  - apply preserves_bind; [apply execute_step_settled|].
    intros [b1|v]; [apply IH | apply preserves_ret].
Qed.

(** However a run ends, the file collection is the one that the
    resolution at its start has left, and the environment is the one set
    at its start: the steps change neither, so that all steps of a run see
    the same lists. *)
Theorem steps_see_one_resolution
    (self : StepExecutor.t) (step_names : list string) (w : StepExecutor.World) :
  let w' := (execute self step_names w).1 in
  StepExecutor.file_collection w' =
    (FileCollection.resolve (glob (StepExecutor.files w)) (git (StepExecutor.files w))
       (StepExecutor.file_collection w)).1 /\
  StepExecutor.environ w' =
    <["changed_only" :=
        if FileCollection.changed_only (StepExecutor.file_collection w)
        then "1" else "0"]>
      (<["debug" := if StepExecutor.debug self then "1" else "0"]>
         (StepExecutor.environ w)).
Proof.
  pose (w_env :=
    StepExecutor.set_environ
      <["changed_only" :=
          if FileCollection.changed_only (StepExecutor.file_collection w)
          then "1" else "0"]>
      (StepExecutor.set_environ
         <["debug" := if StepExecutor.debug self then "1" else "0"]> w)).
  pose (fc := (FileCollection.resolve (glob (StepExecutor.files w))
                 (git (StepExecutor.files w)) (StepExecutor.file_collection w)).1).
  assert (settled fc (StepExecutor.environ w_env) (StepExecutor.resolve glob git w_env).1)
    as Hres.
  { unfold StepExecutor.resolve, fc. simpl. by destruct (FileCollection.resolve _ _ _). }
  change (settled fc (StepExecutor.environ w_env) (execute self step_names w).1).
  unfold StepExecutor.execute. rewrite bind_unfold, execute_loop_run. cbv zeta.
  fold w_env. destruct (StepExecutor.resolve glob git w_env) as [w3 [[]|e]]; [|exact Hres].
  pose proof (execute_steps_settled fc (StepExecutor.environ w_env) self step_names true
                w3 Hres) as Hpres.
  by destruct (execute_steps self step_names true w3) as [w4 [[b|v]|e]].
Qed.

(** *** The files of a step *)

Lemma gather_KeyError (found : list string) (pattern : string) (rest acc : list string)
    (w : StepExecutor.World) :
  (forall p, p ∈ found ->
     is_Some (FileCollection.items (StepExecutor.file_collection w) !! p)) ->
  FileCollection.items (StepExecutor.file_collection w) !! pattern = None ->
  StepExecutor.gather (found ++ pattern :: rest) acc w = (w, Raise (KeyError pattern)).
Proof.
  revert acc. induction found as [|p found IH]; intros acc Hfound Hnone; simpl.
  - rewrite bind_unfold. unfold StepExecutor.file_collection_getitem. by rewrite Hnone.
  - rewrite bind_unfold. unfold StepExecutor.file_collection_getitem at 1.
    destruct (Hfound p) as [l ->]; [apply elem_of_cons; by left|].
    apply IH; [|done]. intros q Hq. apply Hfound, elem_of_cons. by right.
Qed.

(** A step that names a pattern that is not a key of the collection makes
    [execute] raise [KeyError] with that name, after the header of the
    step: no program is started for it and the steps after it are not
    run. *)
Theorem unknown_pattern_raises_KeyError
    (self : StepExecutor.t) (d : dict Step) (before after : list string)
    (step_name : string) (step : Step) (patterns : str_or_list)
    (found rest : list string) (pattern : string)
    (b : bool) (w w1 : StepExecutor.World) :
  execute_loop self before w = (w1, Ok (StepExecutor.Next b)) ->
  StepExecutor.steps self = StepExecutor.StepsDict d ->
  dict_get d step_name = Some step ->
  step_patterns step = Some patterns ->
  as_list patterns = found ++ pattern :: rest ->
  (forall p, p ∈ found ->
     is_Some (FileCollection.items (StepExecutor.file_collection w1) !! p)) ->
  FileCollection.items (StepExecutor.file_collection w1) !! pattern = None ->
  execute self (before ++ step_name :: after) w =
  (StepExecutor.set_printer (Printer.write (header step_name)) w1,
   Raise (KeyError pattern)).
Proof.
  intros Hbefore Hsteps Hstep Hpatterns Hsplit Hfound Hnone.
  unfold StepExecutor.execute. rewrite bind_unfold, execute_loop_app, Hbefore.
  simpl. rewrite bind_unfold, execute_step_run.
  unfold StepExecutor.steps_getitem. rewrite Hsteps, Hstep. unfold ret. cbv zeta.
  unfold StepExecutor.step_files. rewrite Hpatterns, Hsplit.
  by rewrite gather_KeyError.
Qed.

(** A declared step with files, without [profile] and without [script],
    does nothing after its header: no program is started, and the
    aggregate is what it was. *)
Theorem step_without_action_does_nothing
    (self : StepExecutor.t) (d : dict Step) (step_name : string) (step : Step)
    (files : list string) (b : bool) (w : StepExecutor.World) :
  StepExecutor.steps self = StepExecutor.StepsDict d ->
  dict_get d step_name = Some step ->
  (StepExecutor.step_files step w).2 = Ok files ->
  files <> [] ->
  step_profile step = None ->
  step_script step = None ->
  execute_step self step_name b w =
  (StepExecutor.set_printer (Printer.write (header step_name)) w,
   Ok (StepExecutor.Next b)).
Proof.
  intros Hsteps Hstep Hfiles Hne Hprofile Hscript.
  rewrite execute_step_run. unfold StepExecutor.steps_getitem.
  rewrite Hsteps, Hstep. unfold ret. cbv zeta. rewrite Hfiles.
  destruct files as [|f files]; [done|]. simpl. by rewrite Hprofile, Hscript.
Qed.

(** *** The programs of a step *)

Lemma popen_argv (log : list StepExecutor.command) (args : list string) :
  preserves (fun w => exists extra, StepExecutor.popen_log w = log ++ extra /\
                                    all_argv extra)
            (_popen (StepExecutor.Argv args)).
Proof.
  intros w (extra & Hlog & Hargv). rewrite popen_run.
  assert (exists extra', StepExecutor.popen_log w ++ [StepExecutor.Argv args] =
                         log ++ extra' /\ all_argv extra') as Hnew.
  { exists (extra ++ [StepExecutor.Argv args]). split.
    - by rewrite Hlog, <- app_assoc.
    - intros c [Hc| ->%list_elem_of_singleton]%elem_of_app; [by apply Hargv | by eexists]. }
  by destruct (process _ (StepExecutor.files w)).
Qed.

(** A step with a [profile] starts no shell line, whether or not it has a
    [script] as well: every command it gives to [Popen] is an argument
    vector. *)
Theorem profile_goes_before_script
    (self : StepExecutor.t) (d : dict Step) (step_name : string) (step : Step)
    (profile : string) (b : bool) (w : StepExecutor.World) :
  StepExecutor.steps self = StepExecutor.StepsDict d ->
  dict_get d step_name = Some step ->
  step_profile step = Some profile ->
  exists extra,
    StepExecutor.popen_log (execute_step self step_name b w).1 =
      StepExecutor.popen_log w ++ extra /\
    all_argv extra.
Proof.
  intros Hsteps Hstep Hprofile.
  assert (exists extra, StepExecutor.popen_log w = StepExecutor.popen_log w ++ extra /\
                        all_argv extra) as Hstart.
  { exists []. split; [by rewrite app_nil_r | by intros c ?%elem_of_nil]. }
  rewrite execute_step_run. unfold StepExecutor.steps_getitem.
  rewrite Hsteps, Hstep. unfold ret. cbv zeta.
  destruct (StepExecutor.step_files step w).2 as [files|e]; [|done].
  destruct (length files =? 0)%nat; [done|]. rewrite Hprofile.
  assert (preserves (fun w' => exists extra,
                       StepExecutor.popen_log w' = StepExecutor.popen_log w ++ extra /\
                       all_argv extra)
            (_runValidator self profile files)) as Hpres.
  { unfold StepExecutor._runValidator.
    apply preserves_bind; [by intros w' Hw'|]. intros out_file.
    apply preserves_bind; [apply popen_argv|]. intros result_validator.
    apply preserves_bind.
    - destruct (truthy_int result_validator).
      + apply preserves_bind; [apply popen_argv | intros ?; apply preserves_ret].
      + destruct (negb (StepExecutor.debug self)); [|apply preserves_ret].
        apply preserves_bind; [by apply preserves_modify | intros ?; apply preserves_ret].
    - intros success. apply preserves_bind; [|intros ?; apply preserves_ret].
      intros w' Hw'. unfold StepExecutor.os_unlink. by destruct (bool_decide _). }
  specialize (Hpres (StepExecutor.set_printer (Printer.write (header step_name)) w) Hstart).
  by destruct (_runValidator self profile files _) as [w2 [r|e]].
Qed.

(** *** The validator, case by case *)

(** When the validator exits with a status other than 0, the analysis is
    run; if the file [u] is there afterwards, [_runValidator] returns
    whether the analysis exited with a status other than 0, both programs
    are logged, their lines are printed and nothing else is, and [u] is
    removed. *)
Theorem validator_failure_runs_analysis
    (self : StepExecutor.t) (profile : string) (files : list string)
    (w : StepExecutor.World) (run1 run2 : StepExecutor.ProcessRun) :
  process (StepExecutor.Argv (StepExecutor.validator_command profile files))
          ({[mkstemp_path (StepExecutor.files w) ".xml"]} ∪ StepExecutor.files w)
    = Some run1 ->
  StepExecutor.exit_status run1 <> 0 ->
  process (StepExecutor.Argv StepExecutor.analysis_command)
          (StepExecutor.files_after run1) = Some run2 ->
  "u" ∈ StepExecutor.files_after run2 ->
  exists w',
    _runValidator self profile files w =
      (w', Ok (negb (StepExecutor.exit_status run2 =? 0))) /\
    StepExecutor.popen_log w' =
      StepExecutor.popen_log w ++
      [StepExecutor.Argv (StepExecutor.validator_command profile files);
       StepExecutor.Argv StepExecutor.analysis_command] /\
    Printer.stdout (StepExecutor.printer w') =
      Printer.stdout (StepExecutor.printer w) ++
      StepExecutor.output run1 ++ StepExecutor.output run2 /\
    StepExecutor.files w' = StepExecutor.files_after run2 ∖ {["u"]}.
Proof.
  intros Hrun1 Hexit Hrun2 Hout.
  unfold StepExecutor._runValidator, StepExecutor.mkstemp.
  rewrite bind_unfold. cbv beta iota zeta.
  rewrite bind_unfold, popen_run. simpl. rewrite Hrun1.
  unfold truthy_int. assert ((StepExecutor.exit_status run1 =? 0) = false) as ->
    by by apply Z.eqb_neq.
  simpl. rewrite !bind_unfold, popen_run. simpl. rewrite Hrun2.
  unfold bind, ret, StepExecutor.os_unlink. simpl.
  rewrite bool_decide_eq_true_2 by done. simpl.
  eexists. split; [reflexivity|]. simpl.
  split; [by rewrite <- app_assoc|]. split; [|done].
  by rewrite !stdout_write_lines, <- app_assoc.
Qed.

(** When the validator cannot be started, [_runValidator] raises
    [FileNotFoundError]: it returns no result, prints no warning and
    removes nothing; the file that [mkstemp] has created is there. *)
Theorem validator_cannot_start
    (self : StepExecutor.t) (profile : string) (files : list string)
    (w : StepExecutor.World) :
  process (StepExecutor.Argv (StepExecutor.validator_command profile files))
          ({[mkstemp_path (StepExecutor.files w) ".xml"]} ∪ StepExecutor.files w)
    = None ->
  _runValidator self profile files w =
  (StepExecutor.log_popen
     (StepExecutor.Argv (StepExecutor.validator_command profile files))
     (StepExecutor.set_files
        (fun fs => {[mkstemp_path (StepExecutor.files w) ".xml"]} ∪ fs) w),
   Raise (FileNotFoundError "java")).
Proof.
  intros Hrun.
  unfold StepExecutor._runValidator, StepExecutor.mkstemp.
  rewrite bind_unfold. cbv beta iota zeta.
  rewrite bind_unfold, popen_run. simpl. by rewrite Hrun.
Qed.

(** When the validator exits with status 0 and has not written the file
    [u], [_runValidator] raises [FileNotFoundError] for [u]. *)
Theorem missing_output_file_raises
    (self : StepExecutor.t) (profile : string) (files : list string)
    (w : StepExecutor.World) (run : StepExecutor.ProcessRun) :
  process (StepExecutor.Argv (StepExecutor.validator_command profile files))
          ({[mkstemp_path (StepExecutor.files w) ".xml"]} ∪ StepExecutor.files w)
    = Some run ->
  StepExecutor.exit_status run = 0 ->
  "u" ∉ StepExecutor.files_after run ->
  (_runValidator self profile files w).2 = Raise (FileNotFoundError "u").
Proof.
  intros Hrun Hexit Hout.
  unfold StepExecutor._runValidator, StepExecutor.mkstemp.
  rewrite bind_unfold. cbv beta iota zeta.
  rewrite bind_unfold, popen_run. simpl. rewrite Hrun, Hexit. simpl.
  destruct (StepExecutor.debug self); simpl;
    unfold bind, StepExecutor.printer_write, modify, ret, StepExecutor.os_unlink; simpl;
    by rewrite bool_decide_eq_false_2.
Qed.

(** *** The run, at its edges *)

(** When the shell cannot be started for the script of a step, [execute]
    raises [FileNotFoundError]: the step is not counted as failed, the
    steps after it are not run and no summary is printed. *)
Theorem script_cannot_start_aborts_run
    (self : StepExecutor.t) (d : dict Step) (before after : list string)
    (step_name : string) (step : Step) (script : string) (files : list string)
    (b : bool) (w w1 : StepExecutor.World) :
  execute_loop self before w = (w1, Ok (StepExecutor.Next b)) ->
  StepExecutor.steps self = StepExecutor.StepsDict d ->
  dict_get d step_name = Some step ->
  step_profile step = None ->
  step_script step = Some script ->
  (StepExecutor.step_files step w1).2 = Ok files ->
  files <> [] ->
  process (StepExecutor.Shell (script +:+ " " +:+ join " " files)) (StepExecutor.files w1)
    = None ->
  execute self (before ++ step_name :: after) w =
  (StepExecutor.log_popen (StepExecutor.Shell (script +:+ " " +:+ join " " files))
     (StepExecutor.set_printer (Printer.write (header step_name)) w1),
   Raise (FileNotFoundError "/bin/sh")).
Proof.
  intros Hbefore Hsteps Hstep Hprofile Hscript Hfiles Hne Hrun.
  unfold StepExecutor.execute. rewrite bind_unfold, execute_loop_app, Hbefore.
  simpl. rewrite bind_unfold, execute_step_run.
  unfold StepExecutor.steps_getitem. rewrite Hsteps, Hstep. unfold ret. cbv zeta.
  rewrite Hfiles.
  assert ((length files =? 0)%nat = false) as -> by by destruct files.
  rewrite Hprofile, Hscript.
  unfold StepExecutor._runExternalCommand. rewrite bind_unfold, popen_run.
  cbn [StepExecutor.files StepExecutor.set_printer]. by rewrite Hrun.
Qed.

(** A declared step with files, a script and no profile starts one shell
    line, the script followed by the files with spaces between, prints
    its header and the lines of the program, and succeeds exactly if the
    program exits with status 0. *)
Theorem script_step_result
    (self : StepExecutor.t) (d : dict Step) (step_name : string) (step : Step)
    (script : string) (files : list string) (b : bool)
    (w : StepExecutor.World) (run : StepExecutor.ProcessRun) :
  StepExecutor.steps self = StepExecutor.StepsDict d ->
  dict_get d step_name = Some step ->
  step_profile step = None ->
  step_script step = Some script ->
  (StepExecutor.step_files step w).2 = Ok files ->
  files <> [] ->
  process (StepExecutor.Shell (script +:+ " " +:+ join " " files)) (StepExecutor.files w)
    = Some run ->
  exists w',
    execute_step self step_name b w =
      (w', Ok (StepExecutor.Next (b && (StepExecutor.exit_status run =? 0)))) /\
    StepExecutor.popen_log w' =
      StepExecutor.popen_log w ++
      [StepExecutor.Shell (script +:+ " " +:+ join " " files)] /\
    Printer.stdout (StepExecutor.printer w') =
      Printer.stdout (StepExecutor.printer w) ++
      [header step_name] ++ StepExecutor.output run.
Proof.
  intros Hsteps Hstep Hprofile Hscript Hfiles Hne Hrun.
  rewrite execute_step_run. unfold StepExecutor.steps_getitem.
  rewrite Hsteps, Hstep. unfold ret. cbv zeta. rewrite Hfiles.
  assert ((length files =? 0)%nat = false) as -> by by destruct files.
  rewrite Hprofile, Hscript.
  unfold StepExecutor._runExternalCommand. rewrite bind_unfold, popen_run.
  cbn [StepExecutor.files StepExecutor.set_printer]. rewrite Hrun.
  eexists. split; [reflexivity|]. simpl. split; [done|].
  by rewrite stdout_write_lines, stdout_write, <- app_assoc.
Qed.

(** With no step name, when the resolution returns, [execute] prints
    that all checks finished successfully and returns [None]; no program
    is started. *)
Theorem no_step_names
    (self : StepExecutor.t) (w : StepExecutor.World) :
  (FileCollection.resolve (glob (StepExecutor.files w)) (git (StepExecutor.files w))
     (StepExecutor.file_collection w)).2 = Ok tt ->
  let w' := (execute self [] w).1 in
  (execute self [] w).2 = Ok PyNone /\
  Printer.stdout (StepExecutor.printer w') =
    Printer.stdout (StepExecutor.printer w) ++ ["All checks finished succesfully"] /\
  StepExecutor.popen_log w' = StepExecutor.popen_log w /\
  StepExecutor.files w' = StepExecutor.files w.
Proof.
  intros Hres.
  assert (exists w3, execute_loop self [] w = (w3, Ok (StepExecutor.Next true)) /\
                     StepExecutor.printer w3 = StepExecutor.printer w /\
                     StepExecutor.popen_log w3 = StepExecutor.popen_log w /\
                     StepExecutor.files w3 = StepExecutor.files w) as (w3 & Hloop & Hp & Hl & Hf).
  { rewrite execute_loop_run. cbv zeta. unfold StepExecutor.resolve. simpl.
    destruct (FileCollection.resolve _ _ _) as [fc r]. simpl in Hres. subst r.
    by eexists. }
  unfold StepExecutor.execute. rewrite bind_unfold, Hloop.
  simpl. rewrite stdout_write, Hp. by repeat split.
Qed.

End Run.

(** *** The scenario *)

#[local] Abbreviation scn_execute process self :=
  (StepExecutor.execute Scenario.glob_at Scenario.git_at process Scenario.mkstemp_path self).
#[local] Abbreviation scn_loop process self :=
  (StepExecutor.execute_loop Scenario.glob_at Scenario.git_at process
     Scenario.mkstemp_path self).
#[local] Abbreviation scn_steps process self :=
  (StepExecutor.execute_steps process Scenario.mkstemp_path self).
#[local] Abbreviation scn_step process self :=
  (StepExecutor.execute_step process Scenario.mkstemp_path self).
#[local] Abbreviation scn_validator process :=
  (StepExecutor._runValidator process Scenario.mkstemp_path Scenario.executor
     "qa-profile" ["src/a.py"; "b.py"] Scenario.world).

(** The theorem on the scenario: the line of the program is sent over the
    open socket. *)
Lemma popen_streams_the_lines_witness :
  Printer.socket
    (StepExecutor.printer
       (StepExecutor._popen (Scenario.process_exit 0) (StepExecutor.Shell "pylint")
          Scenario.live_world).1) =
  Some {| Printer.closed := false;
          Printer.sent := [] ++ map (fun line => Printer.OutputMsg (Printer.html_msg line))
                                    ["checking" +:+ String NL ""] |}.
Proof.
  refine (proj1 (proj2 (proj2 (proj2
    (popen_streams_the_lines (Scenario.process_exit 0) (StepExecutor.Shell "pylint")
       Scenario.live_world
       {| StepExecutor.output := ["checking" +:+ String NL ""];
          StepExecutor.exit_status := 0;
          StepExecutor.files_after := StepExecutor.files Scenario.live_world |} _))))
    {| Printer.closed := false; Printer.sent := [] |} _ _); reflexivity.
Defined.

(** The theorem on the scenario: the run of [lint] returns [None] after a
    summary. *)
Lemma execute_never_returns_False_witness :
  (PyNone = PyNone /\
   exists b, last (Printer.stdout (StepExecutor.printer (Scenario.run 0 ["lint"]).1)) =
             Some (StepExecutor.SUMMARY b)) \/
  (PyNone = PyBool true /\
   last (Printer.stdout (StepExecutor.printer (Scenario.run 0 ["lint"]).1)) =
   Some "Nothing to check, skipping").
Proof.
  apply (execute_never_returns_False Scenario.glob_at Scenario.git_at
           (Scenario.process_exit 0) Scenario.mkstemp_path Scenario.executor
           ["lint"] Scenario.world).
  vm_compute. reflexivity.
Defined.

(** The theorem on the scenario: [lint] fails, [docs] fails. *)
Lemma aggregate_is_the_conjunction_witness :
  (scn_steps (Scenario.process_exit 1) Scenario.executor (["lint"] ++ ["docs"]) true
     Scenario.resolved_world).2 = Ok (StepExecutor.Next (false && false)).
Proof.
  rewrite (aggregate_is_the_conjunction (Scenario.process_exit 1) Scenario.mkstemp_path
             Scenario.executor ["lint"] ["docs"] false false Scenario.resolved_world
             (scn_steps (Scenario.process_exit 1) Scenario.executor ["lint"] true
                Scenario.resolved_world).1
             (scn_steps (Scenario.process_exit 1) Scenario.executor ["docs"] true
                (scn_steps (Scenario.process_exit 1) Scenario.executor ["lint"] true
                   Scenario.resolved_world).1).1).
  - reflexivity.
  - vm_compute. reflexivity.
  - vm_compute. reflexivity.
Defined.

(** The theorem on the scenario: the step [broken] names the pattern
    [missing]. *)
Lemma unknown_pattern_raises_KeyError_witness :
  (scn_execute (Scenario.process_exit 0) Scenario.executor2
     (["lint"] ++ "broken" :: []) Scenario.world).2 = Raise (KeyError "missing").
Proof.
  rewrite (unknown_pattern_raises_KeyError Scenario.glob_at Scenario.git_at
             (Scenario.process_exit 0) Scenario.mkstemp_path Scenario.executor2
             match StepExecutor.steps Scenario.executor2 with
             | StepExecutor.StepsDict d => d
             | StepExecutor.StepsEmptyList => []
             end
             ["lint"] [] "broken"
             {| step_patterns := Some (StrList ["python"; "missing"]);
                step_profile := None; step_script := Some "pylint" |}
             (StrList ["python"; "missing"]) ["python"] [] "missing" true Scenario.world
             (scn_loop (Scenario.process_exit 0) Scenario.executor2 ["lint"]
                Scenario.world).1).
  - reflexivity.
  - vm_compute. reflexivity.
  - reflexivity.
  - reflexivity.
  - reflexivity.
  - reflexivity.
  - intros p [->|H]%elem_of_cons; [|by apply elem_of_nil in H].
    exists ["src/a.py"; "b.py"]. vm_compute. reflexivity.
  - vm_compute. reflexivity.
Defined.

(** The theorem on the scenario: the step [idle]. *)
Lemma step_without_action_does_nothing_witness :
  (scn_step (Scenario.process_exit 0) Scenario.executor2 "idle" false
     Scenario.resolved_world).2 = Ok (StepExecutor.Next false).
Proof.
  rewrite (step_without_action_does_nothing (Scenario.process_exit 0)
             Scenario.mkstemp_path Scenario.executor2
             match StepExecutor.steps Scenario.executor2 with
             | StepExecutor.StepsDict d => d
             | StepExecutor.StepsEmptyList => []
             end
             "idle"
             {| step_patterns := Some (Str "python"); step_profile := None;
                step_script := None |}
             ["src/a.py"; "b.py"] false Scenario.resolved_world).
  - reflexivity.
  - reflexivity.
  - reflexivity.
  - vm_compute. reflexivity.
  - discriminate.
  - reflexivity.
  - reflexivity.
Defined.

(** The theorem on the scenario: the step [both]. *)
Lemma profile_goes_before_script_witness :
  exists extra,
    StepExecutor.popen_log
      (scn_step (Scenario.process_exit 0) Scenario.executor2 "both" true
         Scenario.resolved_world).1 =
      StepExecutor.popen_log Scenario.resolved_world ++ extra /\
    all_argv extra.
Proof.
  apply (profile_goes_before_script (Scenario.process_exit 0) Scenario.mkstemp_path
           Scenario.executor2
           match StepExecutor.steps Scenario.executor2 with
           | StepExecutor.StepsDict d => d
           | StepExecutor.StepsEmptyList => []
           end
           "both"
           {| step_patterns := Some (Str "python"); step_profile := Some "qa-profile";
              step_script := Some "pylint" |}
           "qa-profile" true Scenario.resolved_world); reflexivity.
Defined.

(** The theorem on the scenario: validator and analysis exit with
    status 1. *)
Lemma validator_failure_runs_analysis_witness :
  (scn_validator (Scenario.process_exit 1)).2 = Ok (negb (1 =? 0)).
Proof.
  destruct (validator_failure_runs_analysis (Scenario.process_exit 1)
              Scenario.mkstemp_path Scenario.executor "qa-profile"
              ["src/a.py"; "b.py"] Scenario.world
              {| StepExecutor.output := ["checking" +:+ String NL ""];
                 StepExecutor.exit_status := 1;
                 StepExecutor.files_after :=
                   {["u"]} ∪ ({["/tmp/tmpk3x9w2ab.xml"]} ∪
                              StepExecutor.files Scenario.world) |}
              {| StepExecutor.output := ["checking" +:+ String NL ""];
                 StepExecutor.exit_status := 1;
                 StepExecutor.files_after :=
                   {["u"]} ∪ ({["/tmp/tmpk3x9w2ab.xml"]} ∪
                              StepExecutor.files Scenario.world) |})
    as (w' & Hrun & _).
  - reflexivity.
  - discriminate.
  - reflexivity.
  - apply elem_of_union_l, elem_of_singleton. reflexivity.
  - rewrite Hrun. reflexivity.
Defined.

(** The theorem on the scenario: no program can be started. *)
Lemma validator_cannot_start_witness :
  (scn_validator Scenario.process_missing).2 = Raise (FileNotFoundError "java").
Proof.
  rewrite (validator_cannot_start Scenario.process_missing Scenario.mkstemp_path
             Scenario.executor "qa-profile" ["src/a.py"; "b.py"] Scenario.world).
  - reflexivity.
  - reflexivity.
Defined.

(** The theorem on the scenario: the validator writes no file. *)
Lemma missing_output_file_raises_witness :
  (scn_validator (Scenario.process_silent 0)).2 = Raise (FileNotFoundError "u").
Proof.
  apply (missing_output_file_raises (Scenario.process_silent 0) Scenario.mkstemp_path
           Scenario.executor "qa-profile" ["src/a.py"; "b.py"] Scenario.world
           {| StepExecutor.output := ["checking" +:+ String NL ""];
              StepExecutor.exit_status := 0;
              StepExecutor.files_after :=
                {["/tmp/tmpk3x9w2ab.xml"]} ∪ StepExecutor.files Scenario.world |}).
  - reflexivity.
  - reflexivity.
  - simpl. apply (bool_decide_eq_false_1 _). vm_compute. reflexivity.
Defined.

(** The theorem on the scenario: the shell cannot be started for [lint]. *)
Lemma script_cannot_start_aborts_run_witness :
  (scn_execute Scenario.process_missing Scenario.executor ([] ++ "lint" :: ["docs"])
     Scenario.world).2 = Raise (FileNotFoundError "/bin/sh").
Proof.
  rewrite (script_cannot_start_aborts_run Scenario.glob_at Scenario.git_at
             Scenario.process_missing Scenario.mkstemp_path Scenario.executor
             match cfg_steps Scenario.config with Some d => d | None => [] end
             [] ["docs"] "lint"
             {| step_patterns := Some (StrList ["python"]); step_profile := None;
                step_script := Some "pylint" |}
             "pylint" ["src/a.py"; "b.py"] true Scenario.world
             (scn_loop Scenario.process_missing Scenario.executor [] Scenario.world).1).
  - reflexivity.
  - vm_compute. reflexivity.
  - reflexivity.
  - reflexivity.
  - reflexivity.
  - reflexivity.
  - vm_compute. reflexivity.
  - discriminate.
  - reflexivity.
Defined.

(** The theorem on the scenario: [lint] with [pylint] exiting with
    status 0. *)
Lemma script_step_result_witness :
  (scn_step (Scenario.process_exit 0) Scenario.executor "lint" true
     Scenario.resolved_world).2 = Ok (StepExecutor.Next (true && (0 =? 0))).
Proof.
  destruct (script_step_result (Scenario.process_exit 0) Scenario.mkstemp_path
              Scenario.executor
              match cfg_steps Scenario.config with Some d => d | None => [] end
              "lint"
              {| step_patterns := Some (StrList ["python"]); step_profile := None;
                 step_script := Some "pylint" |}
              "pylint" ["src/a.py"; "b.py"] true Scenario.resolved_world
              {| StepExecutor.output := ["checking" +:+ String NL ""];
                 StepExecutor.exit_status := 0;
                 StepExecutor.files_after := StepExecutor.files Scenario.resolved_world |})
    as (w' & Hrun & _).
  - reflexivity.
  - reflexivity.
  - reflexivity.
  - reflexivity.
  - vm_compute. reflexivity.
  - discriminate.
  - reflexivity.
  - rewrite Hrun. reflexivity.
Defined.

(** The theorem on the scenario. *)
Lemma no_step_names_witness : (Scenario.run 0 []).2 = Ok PyNone.
Proof.
  refine (proj1 (no_step_names Scenario.glob_at Scenario.git_at (Scenario.process_exit 0)
                   Scenario.mkstemp_path Scenario.executor Scenario.world _)).
  vm_compute. reflexivity.
Defined.

(** When [_runValidator] returns, the file [u] is not there. *)
Lemma file_u_is_unlinked_witness :
  "u" ∉ StepExecutor.files (scn_validator (Scenario.process_exit 0)).1.
Proof.
  apply (file_u_is_unlinked (Scenario.process_exit 0) Scenario.mkstemp_path
           Scenario.executor "qa-profile" ["src/a.py"; "b.py"] Scenario.world
           (scn_validator (Scenario.process_exit 0)).1 false).
  vm_compute. reflexivity.
Defined.

(** A configuration without steps. *)
Lemma no_steps_raises_TypeError_witness :
  (scn_execute (Scenario.process_exit 0)
     (StepExecutor.__init__ {| cfg_patterns := cfg_patterns Scenario.config;
                               cfg_steps := None |})
     ("lint" :: ["docs"]) Scenario.world).2 =
  Raise (TypeError "list indices must be integers or slices, not str").
Proof.
  rewrite (no_steps_raises_TypeError Scenario.glob_at Scenario.git_at
             (Scenario.process_exit 0) Scenario.mkstemp_path
             {| cfg_patterns := cfg_patterns Scenario.config; cfg_steps := None |}
             "lint" ["docs"] Scenario.world
             (scn_loop (Scenario.process_exit 0)
                (StepExecutor.__init__ {| cfg_patterns := cfg_patterns Scenario.config;
                                          cfg_steps := None |})
                [] Scenario.world).1).
  - reflexivity.
  - reflexivity.
  - vm_compute. reflexivity.
Defined.

End StepExecutorMore.
